(** * Protocol adapters and streaming reconstruction of openai-custom-vscode-chat

    A shallow embedding of [adapters.ts] (request builders and the two SSE
    line parsers) and of the streaming part of [provider.ts] (tool-call
    reconstruction, inline tool-call tokenizer, per-turn state), followed by
    the properties of the specification that were checked against it.

    Conventions of the embedding:
    - a JavaScript string is a [string]; every [ascii] stands for one code
      unit (the development only inspects code units below 256);
    - a value produced by [JSON.parse] is a [json]; [undefined] is the [None]
      of [option json]; JSON numbers are integers ([Z]);
    - a JavaScript exception is the [None] of an [option] result, or the
      [Thrown] outcome of the streaming loop;
    - [Math.random] identifiers are not computed: a generated identifier is
      recorded as [FreshId prefix];
    - a [Map] whose iteration order is observable is an association list in
      insertion order, a [Set] that is only tested and extended is a [gset]. *)

From Stdlib Require Import String Ascii ZArith List Bool Lia.
From Stdlib Require Import Numbers.DecimalString.
From stdpp Require Import base decidable countable gmap strings.
Import ListNotations.

Local Open Scope string_scope.
Local Open Scope list_scope.
Set Warnings "-register-all".

(* ===================================================================== *)
(** ** JavaScript string primitives *)
(* ===================================================================== *)

Module JsString.

Fixpoint take (n : nat) (s : string) : string :=
  match n, s with
  | S n', String c s' => String c (take n' s')
  | _, _ => EmptyString
  end.

Fixpoint drop (n : nat) (s : string) : string :=
  match n, s with
  | S n', String _ s' => drop n' s'
  | _, _ => s
  end.

(** [s.startsWith(p)] *)
Fixpoint startsWith (s p : string) : bool :=
  match p, s with
  | EmptyString, _ => true
  | String a p', String b s' => Ascii.eqb a b && startsWith s' p'
  | String _ _, EmptyString => false
  end.

(** [s.endsWith(p)] *)
Definition endsWith (s p : string) : bool :=
  (String.length p <=? String.length s)%nat &&
  String.eqb (drop (String.length s - String.length p) s) p.

(** [s.indexOf(p)]; [None] is JavaScript's [-1]. *)
Fixpoint indexOf (s p : string) : option nat :=
  if startsWith s p then Some 0%nat
  else match s with
       | EmptyString => None
       | String _ s' => option_map S (indexOf s' p)
       end.

(** [s.includes(p)] *)
Definition includes (s p : string) : bool :=
  match indexOf s p with Some _ => true | None => false end.

(** White space removed by [trim] among the code units below 256:
    TAB, LF, VT, FF, CR, SPACE and NBSP. *)
Definition isWhiteSpace (c : ascii) : bool :=
  let n := nat_of_ascii c in
  ((9 <=? n) && (n <=? 13) || (n =? 32) || (n =? 160))%nat.

Fixpoint trimStart (s : string) : string :=
  match s with
  | String c s' => if isWhiteSpace c then trimStart s' else s
  | EmptyString => EmptyString
  end.

Fixpoint trimEnd (s : string) : string :=
  match s with
  | EmptyString => EmptyString
  | String c s' =>
      match trimEnd s' with
      | EmptyString => if isWhiteSpace c then EmptyString else String c EmptyString
      | t => String c t
      end
  end.

(** [s.trim()] *)
Definition trim (s : string) : string := trimEnd (trimStart s).

(** [s.replace(/\/$/, empty)]: without the [m] flag [$] only matches at the
    end of the input, so at most the last character is removed. *)
Definition replaceTrailingSlash (s : string) : string :=
  if endsWith s "/" then take (String.length s - 1) s else s.

(** [s.split("\n")]: never empty, the last element is the text after the
    last line feed. *)
Fixpoint splitLines (s : string) : list string :=
  match s with
  | EmptyString => [EmptyString]
  | String c s' =>
      if Ascii.eqb c "010"%char then EmptyString :: splitLines s'
      else match splitLines s' with
           | l :: ls => String c l :: ls
           | [] => [String c EmptyString]
           end
  end.

(** Decimal rendering of an integer, as [String(n)] or a template literal
    prints it. *)
Definition ofZ (n : Z) : string := NilZero.string_of_int (Z.to_int n).

End JsString.

(* ===================================================================== *)
(** ** adapters.ts: endpoint normalisation of the two request builders *)
(* ===================================================================== *)

Module Endpoint.
Import JsString.

(** [ChatCompletionsAdapter.buildRequest], the [endpoint] it returns. *)
Definition chatEndpoint (baseUrl : string) : string :=
  let endpoint := baseUrl in
  if negb (endsWith endpoint "/chat/completions") then
    let endpoint := replaceTrailingSlash endpoint in
    if endsWith endpoint "/v1" then endpoint +:+ "/chat/completions"
    else if negb (includes endpoint "/v1") then endpoint +:+ "/v1/chat/completions"
    else endpoint +:+ "/chat/completions"
  else endpoint.

(** [ResponsesAdapter.buildRequest], the [endpoint] it returns. *)
Definition responsesEndpoint (baseUrl : string) : string :=
  let endpoint := baseUrl in
  if negb (endsWith endpoint "/responses") then
    let endpoint := replaceTrailingSlash endpoint in
    if endsWith endpoint "/v1" then endpoint +:+ "/responses"
    else if negb (includes endpoint "/v1") then endpoint +:+ "/v1/responses"
    else endpoint +:+ "/responses"
  else endpoint.

End Endpoint.

(* ===================================================================== *)
(** ** JSON values and the JavaScript operations applied to them *)
(* ===================================================================== *)

Inductive json : Type :=
| JNull
| JBool (b : bool)
| JNum (n : Z)
| JStr (s : string)
| JArr (items : list json)
| JObj (members : list (string * json)).

(** A JavaScript value read out of parsed JSON: [None] is [undefined]. *)
Definition jsval : Type := option json.

Module Js.
Import JsString.

(** ToBoolean *)
Definition truthy (v : jsval) : bool :=
  match v with
  | None | Some JNull => false
  | Some (JBool b) => b
  | Some (JNum n) => negb (n =? 0)%Z
  | Some (JStr s) => negb (String.eqb s EmptyString)
  | Some (JArr _) | Some (JObj _) => true
  end.

(** [v === undefined || v === null] *)
Definition nullish (v : jsval) : bool :=
  match v with None | Some JNull => true | _ => false end.

(** [a ?? b] *)
Definition coalesce (a b : jsval) : jsval := if nullish a then b else a.

(** [typeof v === "string" ? v : undefined] *)
Definition stringOf (v : jsval) : option string :=
  match v with Some (JStr s) => Some s | _ => None end.

(** [typeof v === "object"] (true of [null] and of arrays) *)
Definition typeofObject (v : jsval) : bool :=
  match v with Some JNull | Some (JArr _) | Some (JObj _) => true | _ => false end.

Fixpoint assoc (k : string) (l : list (string * json)) : jsval :=
  match l with
  | [] => None
  | (k', v) :: l' => if String.eqb k k' then Some v else assoc k l'
  end.

(** [v.k] for a property name [k] other than an array index. The outer
    [None] is the TypeError raised on [undefined] and [null]. No name read
    by the adapters is defined on a prototype, [length] apart. *)
Definition prop (v : jsval) (k : string) : option jsval :=
  match v with
  | None | Some JNull => None
  | Some (JObj l) => Some (assoc k l)
  | Some (JArr l) =>
      Some (if String.eqb k "length" then Some (JNum (Z.of_nat (List.length l))) else None)
  | Some (JStr s) =>
      Some (if String.eqb k "length" then Some (JNum (Z.of_nat (String.length s))) else None)
  | Some (JBool _) | Some (JNum _) => Some None
  end.

(** [v?.k] *)
Definition optProp (v : jsval) (k : string) : jsval :=
  match prop v k with Some r => r | None => None end.

(** [v[i]] for a natural number [i]; raises on [undefined] and [null]. *)
Definition at_ (v : jsval) (i : nat) : option jsval :=
  match v with
  | None | Some JNull => None
  | Some (JArr l) => Some (nth_error l i)
  | Some (JStr s) =>
      Some (match String.get i s with
            | Some c => Some (JStr (String c EmptyString))
            | None => None
            end)
  | Some (JObj l) => Some (assoc (ofZ (Z.of_nat i)) l)
  | Some (JBool _) | Some (JNum _) => Some None
  end.

Fixpoint join (sep : string) (l : list string) : string :=
  match l with
  | [] => EmptyString
  | [x] => x
  | x :: l' => x +:+ sep +:+ join sep l'
  end.

(** [String(v)], which is also what [s + v] appends to a string [s]. *)
Fixpoint toString (v : json) : string :=
  match v with
  | JNull => "null"
  | JBool true => "true"
  | JBool false => "false"
  | JNum n => ofZ n
  | JStr s => s
  | JArr l =>
      join "," (List.map (fun x => match x with JNull => EmptyString | _ => toString x end) l)
  | JObj _ => "[object Object]"
  end.

End Js.

(** What the embedding takes from the JavaScript run time and from
    [utils.ts], which is not part of the sources at hand. *)
Class Runtime : Type := {
  (** [JSON.parse]; [None] is the SyntaxError it raises. *)
  JSON_parse : string -> option json;
  (** [JSON.stringify] on a value read out of JSON (it cannot raise there). *)
  JSON_stringify : json -> string;
  (** [tryParseJSONObject] of [utils.ts]: [Some v] stands for
      [{ ok: true, value: v }], [None] for [{ ok: false }]. *)
  tryParseJSONObject : string -> option json;
  (** [v > 0] for a value [v] that is not a number. *)
  looselyPositive : json -> bool;
  (** The unchecked TypeScript cast [v as number] of a value that is not a
      number, where the result is used as a tool-call index. *)
  castIndex : json -> Z;
  (** The unchecked cast of a value that is not a string to a field declared
      [string]. *)
  castString : json -> string;
  (** [new TextDecoder().decode(bytes)] *)
  TextDecoder_decode : string -> string;
  (** [Buffer.from(bytes).toString("base64")] *)
  base64 : string -> string;
  (** Whether the host defines [vscode.LanguageModelThinkingPart]. *)
  hostHasThinkingPart : bool
}.

(* ===================================================================== *)
(** ** adapters.ts: the stream event vocabulary and the two line parsers *)
(* ===================================================================== *)

(** [StreamEventResult] *)
Inductive StreamEvent : Type :=
| text (content : string)
| tool_call (index : Z) (id name args : option string)
| thinking (text : string) (id : option string) (metadata : jsval)
| stateful_marker (marker : string)
| finish (reason : json)
| done
| skip.

Module Adapters.
Import JsString Js.

Section WithRuntime.
Context `{RT : Runtime}.

(** A value stored in a field declared [string]. *)
Definition asString (v : json) : string :=
  match v with JStr s => s | _ => castString v end.

(** A value stored in the [index] field, declared [number]. *)
Definition asIndex (v : json) : Z :=
  match v with JNum n => n | _ => castIndex v end.

(** [v > 0] *)
Definition positive (v : jsval) : bool :=
  match v with
  | None => false
  | Some (JNum n) => (0 <? n)%Z
  | Some w => looselyPositive w
  end.

(** The value of [maybeThinking] when it is not [undefined]: the [text],
    [id] and [metadata] the chat parser reads from it. *)
Definition thinkingFields (maybeThinking : json) : string * option string * jsval :=
  if truthy (Some maybeThinking) && typeofObject (Some maybeThinking) then
    let mt := Some maybeThinking in
    (match stringOf (optProp mt "text") with Some t => t | None => EmptyString end,
     stringOf (optProp mt "id"),
     optProp mt "metadata")
  else match maybeThinking with
       | JStr s => (s, None, None)
       | _ => (EmptyString, None, None)
       end.

(** The body of the [try] block of [ChatCompletionsAdapter.parseStreamEvent],
    after [JSON.parse] succeeded; [None] is an exception raised in it. *)
Definition chatParsed (parsed : json) : option StreamEvent :=
  match prop (Some parsed) "choices" with
  | None => None
  | Some choices =>
    match (if nullish choices then Some None else at_ choices 0) with
    | None => None
    | Some choice =>
      if negb (truthy choice) then Some skip else
      let deltaObj := optProp choice "delta" in
      let maybeThinking :=
        coalesce (optProp choice "reasoning_content") (optProp deltaObj "reasoning_content") in
      let thought :=
        match maybeThinking with
        | None => None
        | Some mt =>
            let '(t, i, m) := thinkingFields mt in
            if negb (String.eqb t EmptyString) then Some (thinking t i m) else None
        end in
      match thought with
      | Some ev => Some ev
      | None =>
        if truthy (optProp deltaObj "content") then
          Some (text (match optProp deltaObj "content" with
                      | Some c => toString c
                      | None => EmptyString
                      end))
        else
          let finishStep :=
            let fin := optProp choice "finish_reason" in
            match fin with
            | Some r => if truthy fin then Some (finish r) else Some skip
            | None => Some skip
            end in
          let toolCalls := optProp deltaObj "tool_calls" in
          if truthy toolCalls && positive (optProp toolCalls "length") then
            match at_ toolCalls 0 with
            | None => None
            | Some tc =>
              match prop tc "index" with
              | None => None
              | Some rawIndex =>
                let idx := match rawIndex with
                           | None | Some JNull => 0%Z
                           | Some v => asIndex v
                           end in
                let func := optProp tc "function" in
                Some (tool_call idx
                        (stringOf (optProp tc "id"))
                        (stringOf (optProp func "name"))
                        (stringOf (optProp func "arguments")))
              end
            end
          else finishStep
      end
    end
  end.

(** [ChatCompletionsAdapter.parseStreamEvent] *)
Definition chatParseStreamEvent (line : string) : StreamEvent :=
  if negb (startsWith line "data:") then skip
  else
    let data := trim (drop 5 line) in
    if String.eqb data "[DONE]" then done
    else match JSON_parse data with
         | None => skip
         | Some parsed =>
             match chatParsed parsed with
             | Some ev => ev
             | None => skip
             end
         end.

(** *** [ResponsesAdapter] *)

(** The private fields of a [ResponsesAdapter] instance. *)
Record ResponsesAdapter : Type := {
  _toolCallIndexById : gmap string Z;
  _nextToolCallIndex : Z;
  _sawOutputTextDelta : bool;
  _lastSseEventType : option string;
  _emittedTextItemKeys : gset string
}.

(** [new ResponsesAdapter()] *)
Definition newResponsesAdapter : ResponsesAdapter :=
  {| _toolCallIndexById := ∅; _nextToolCallIndex := 0;
     _sawOutputTextDelta := false; _lastSseEventType := None;
     _emittedTextItemKeys := ∅ |}.

(** [getToolCallIndex] *)
Definition getToolCallIndex (a : ResponsesAdapter) (callId : option string)
  : ResponsesAdapter * Z :=
  match callId with
  | None => (a, 0%Z)
  | Some cid =>
      if String.eqb cid EmptyString then (a, 0%Z) else
      match _toolCallIndexById a !! cid with
      | Some existing => (a, existing)
      | None =>
          let idx := _nextToolCallIndex a in
          ({| _toolCallIndexById := <[cid := idx]> (_toolCallIndexById a);
              _nextToolCallIndex := (idx + 1)%Z;
              _sawOutputTextDelta := _sawOutputTextDelta a;
              _lastSseEventType := _lastSseEventType a;
              _emittedTextItemKeys := _emittedTextItemKeys a |}, idx)
      end
  end.

Definition markSawOutputTextDelta (a : ResponsesAdapter) : ResponsesAdapter :=
  {| _toolCallIndexById := _toolCallIndexById a;
     _nextToolCallIndex := _nextToolCallIndex a;
     _sawOutputTextDelta := true;
     _lastSseEventType := _lastSseEventType a;
     _emittedTextItemKeys := _emittedTextItemKeys a |}.

Definition setLastSseEventType (a : ResponsesAdapter) (ev : string) : ResponsesAdapter :=
  {| _toolCallIndexById := _toolCallIndexById a;
     _nextToolCallIndex := _nextToolCallIndex a;
     _sawOutputTextDelta := _sawOutputTextDelta a;
     _lastSseEventType := Some ev;
     _emittedTextItemKeys := _emittedTextItemKeys a |}.

Definition addEmittedTextItemKey (a : ResponsesAdapter) (key : string) : ResponsesAdapter :=
  {| _toolCallIndexById := _toolCallIndexById a;
     _nextToolCallIndex := _nextToolCallIndex a;
     _sawOutputTextDelta := _sawOutputTextDelta a;
     _lastSseEventType := _lastSseEventType a;
     _emittedTextItemKeys := {[ key ]} ∪ _emittedTextItemKeys a |}.

(** [delta && typeof delta === "object" ? delta : undefined] *)
Definition objectOrUndefined (v : jsval) : jsval :=
  if truthy v && typeofObject v then v else None.

(** [a ?? b] on optional strings *)
Definition orElse (a b : option string) : option string :=
  match a with Some _ => a | None => b end.

(** The [text] read from a [delta] that is an object with a string [text]
    or is itself a string. *)
Definition deltaText (delta : jsval) : option string :=
  orElse (stringOf (optProp (objectOrUndefined delta) "text")) (stringOf delta).

Definition nonEmpty (s : option string) : bool :=
  match s with Some t => negb (String.eqb t EmptyString) | None => false end.

(** The [args] of a function-call event: a string as it is, an object
    stringified, anything else dropped. *)
Definition argsOf (argsRaw : jsval) : option string :=
  match argsRaw with
  | Some (JStr s) => Some s
  | Some v => if truthy argsRaw && typeofObject argsRaw then Some (JSON_stringify v) else None
  | None => None
  end.

(** The key under which a text item is remembered as emitted. *)
Definition textItemKey (it p : jsval) : option string :=
  orElse (stringOf (optProp it "id"))
         (match optProp p "output_index" with
          | Some (JNum n) => Some ("output_index:" +:+ ofZ n)
          | _ => None
          end).

(** Emission of the text [t] of an item, unless its key was seen. *)
Definition emitTextItem (a : ResponsesAdapter) (it p : jsval) (t : string)
  : ResponsesAdapter * StreamEvent :=
  match textItemKey it p with
  | Some key =>
      if negb (String.eqb key EmptyString) then
        if bool_decide (key ∈ _emittedTextItemKeys a) then (a, skip)
        else (addEmittedTextItemKey a key, text t)
      else (a, text t)
  | None => (a, text t)
  end.

(** The callback of [content.find] for an embedded message item; it is
    guarded by [c &&], so it cannot raise. *)
Definition isOutputTextContent (c : json) : bool :=
  truthy (Some c) && typeofObject (Some c)
  && match optProp (Some c) "type" with
     | Some (JStr "output_text") => true
     | _ => false
     end
  && nonEmpty (stringOf (optProp (Some c) "text")).

(** The callback of [msg.content?.find] in the [output] fallback, which
    reads [c.type] without a guard and so raises on [null]. *)
Definition isOutputTextContentUnguarded (c : json) : option bool :=
  match prop (Some c) "type" with
  | None => None
  | Some ty =>
      Some (match ty with Some (JStr "output_text") => true | _ => false end
            && nonEmpty (stringOf (optProp (Some c) "text")))
  end.

Fixpoint findOutputTextUnguarded (content : list json) : option jsval :=
  match content with
  | [] => Some None
  | c :: rest =>
      match isOutputTextContentUnguarded c with
      | None => None
      | Some true => Some (Some c)
      | Some false => findOutputTextUnguarded rest
      end
  end.

Definition typeIs (v : jsval) (name : string) : bool :=
  match optProp v "type" with
  | Some (JStr s) => String.eqb s name
  | _ => false
  end.

(** The fallback on a trailing [output] array. *)
Definition responsesOutputFallback (a : ResponsesAdapter) (parsed : json)
  : option (ResponsesAdapter * StreamEvent) :=
  let output := optProp (Some parsed) "output" in
  match output with
  | Some (JArr items) =>
      if (0 <? List.length items)%nat then
        let lastItem := nth_error items (List.length items - 1) in
        match prop lastItem "type" with
        | None => None
        | Some _ =>
          if negb (_sawOutputTextDelta a) && typeIs lastItem "output_text"
             && truthy (optProp lastItem "text")
          then Some (a, text (match optProp lastItem "text" with
                              | Some t => asString t
                              | None => EmptyString
                              end))
          else
            let messageStep :=
              if negb (_sawOutputTextDelta a) && typeIs lastItem "message" then
                let content := optProp lastItem "content" in
                if nullish content then Some None
                else match content with
                     | Some (JArr cs) =>
                         match findOutputTextUnguarded cs with
                         | None => None
                         | Some found => Some (coalesce (optProp found "text") None)
                         end
                     | _ => None
                     end
              else Some None in
            match messageStep with
            | None => None
            | Some t =>
              if truthy t then
                Some (a, text (match t with Some v => asString v | None => EmptyString end))
              else if typeIs lastItem "function_call" then
                let field k := match optProp lastItem k with
                               | None | Some JNull => None
                               | Some v => Some (asString v)
                               end in
                let '(a', idx) :=
                  getToolCallIndex a (if truthy (optProp lastItem "call_id")
                                      then field "call_id" else None) in
                Some (a', tool_call idx (field "call_id") (field "name") (field "arguments"))
              else Some (a, skip)
            end
        end
      else Some (a, skip)
  | _ => Some (a, skip)
  end.

(** The body of the [try] block of [ResponsesAdapter.parseStreamEvent],
    after [JSON.parse] succeeded; [None] is an exception raised in it. *)
Definition responsesParsed (a : ResponsesAdapter) (parsed : json)
  : option (ResponsesAdapter * StreamEvent) :=
  let p := Some parsed in
  match prop p "type" with
  | None => None
  | Some ty =>
    let jsonType := stringOf ty in
    let sseType := _lastSseEventType a in
    let eventType :=
      match sseType with
      | Some s => if negb (String.eqb s EmptyString) && negb (String.eqb s "message")
                  then Some s else jsonType
      | None => jsonType
      end in
    let isType name := match eventType with Some e => String.eqb e name | None => false end in
    if isType "response.completed" then
      let resp := optProp p "response" in
      let rid := orElse (stringOf (optProp (objectOrUndefined resp) "id"))
                        (stringOf (optProp p "id")) in
      match rid with
      | Some r => if negb (String.eqb r EmptyString) then Some (a, stateful_marker r) else Some (a, done)
      | None => Some (a, done)
      end
    else if isType "response.done" then Some (a, done)
    else
      let delta := optProp p "delta" in
      if isType "response.output_text.delta" && nonEmpty (deltaText delta) then
        Some (markSawOutputTextDelta a,
              text (match deltaText delta with Some t => t | None => EmptyString end))
      else if isType "response.output_text.done" && _sawOutputTextDelta a then Some (a, skip)
      else if isType "response.output_text.done"
              && nonEmpty (orElse (deltaText delta) (stringOf (optProp p "text"))) then
        Some (a, text (match orElse (deltaText delta) (stringOf (optProp p "text")) with
                       | Some t => t
                       | None => EmptyString
                       end))
      else
        let reasoningDelta :=
          coalesce (coalesce (coalesce (optProp p "delta") (optProp p "reasoning_summary"))
                             (optProp p "reasoning"))
                   (optProp p "summary") in
        let rd := objectOrUndefined reasoningDelta in
        let reasoningText :=
          orElse (orElse (stringOf (optProp rd "text")) (stringOf reasoningDelta))
                 (stringOf (optProp p "text")) in
        let reasoningId :=
          orElse (orElse (stringOf (optProp rd "id")) (stringOf (optProp p "item_id")))
                 (stringOf (optProp p "id")) in
        if (isType "response.reasoning_summary.delta" || isType "response.reasoning_summary.done"
            || isType "response.reasoning.delta" || isType "response.reasoning.done")
           && nonEmpty reasoningText then
          Some (a, thinking (match reasoningText with Some t => t | None => EmptyString end)
                            reasoningId None)
        else if isType "response.function_call.delta"
                || isType "response.function_call_arguments.delta" then
          let d := objectOrUndefined delta in
          let callId := orElse (stringOf (optProp d "call_id")) (stringOf (optProp p "call_id")) in
          let argsRaw :=
            coalesce (coalesce (optProp d "arguments") (optProp d "delta"))
                     (match delta with Some (JStr s) => delta | _ => None end) in
          let '(a', idx) := getToolCallIndex a callId in
          Some (a', tool_call idx callId (stringOf (optProp d "name")) (argsOf argsRaw))
        else
          let item := coalesce (optProp p "item") (optProp p "output_item") in
          let itemStep : option (ResponsesAdapter * StreamEvent) :=
            if (isType "response.output_item.added" || isType "response.output_item.done")
               && truthy item && typeofObject item then
              if typeIs item "function_call" then
                let callId := stringOf (optProp item "call_id") in
                let '(a', idx) := getToolCallIndex a callId in
                Some (a', tool_call idx callId (stringOf (optProp item "name"))
                                    (argsOf (optProp item "arguments")))
              else if negb (_sawOutputTextDelta a) then
                if typeIs item "output_text" && nonEmpty (stringOf (optProp item "text")) then
                  Some (emitTextItem a item p
                          (match stringOf (optProp item "text") with
                           | Some t => t
                           | None => EmptyString
                           end))
                else if typeIs item "message" then
                  match optProp item "content" with
                  | Some (JArr cs) =>
                      let first := List.find isOutputTextContent cs in
                      let t := if truthy first then stringOf (optProp first "text") else None in
                      if nonEmpty t then
                        Some (emitTextItem a item p (match t with Some x => x | None => EmptyString end))
                      else None
                  | _ => None
                  end
                else None
              else None
            else None in
          match itemStep with
          | Some r => Some r
          | None => responsesOutputFallback a parsed
          end
  end.

(** [ResponsesAdapter.parseStreamEvent] *)
Definition responsesParseStreamEvent (a : ResponsesAdapter) (line : string)
  : ResponsesAdapter * StreamEvent :=
  if startsWith line "event:" then
    let ev := trim (drop 6 line) in
    (setLastSseEventType a (if String.eqb ev EmptyString then "message" else ev), skip)
  else if negb (startsWith line "data:") then (a, skip)
  else
    let data := trim (drop 5 line) in
    if String.eqb data "[DONE]" then (a, done)
    else match JSON_parse data with
         | None => (a, skip)
         | Some parsed =>
             match responsesParsed a parsed with
             | Some r => r
             | None => (a, skip)
             end
         end.

(** The adapter made by [createAdapter], with the state it carries. *)
Inductive LLMAdapter : Type :=
| ChatCompletions
| Responses (a : ResponsesAdapter).

(** [adapter.parseStreamEvent(line)] *)
Definition parseStreamEvent (ad : LLMAdapter) (line : string) : LLMAdapter * StreamEvent :=
  match ad with
  | ChatCompletions => (ChatCompletions, chatParseStreamEvent line)
  | Responses a =>
      let '(a', ev) := responsesParseStreamEvent a line in (Responses a', ev)
  end.

End WithRuntime.
End Adapters.

(* ===================================================================== *)
(** ** adapters.ts: the items-protocol request builder *)
(* ===================================================================== *)

(** An identifier of a tool call: one that was provided, or one the code
    makes up from a prefix and [Math.random]. *)
Inductive CallId : Type :=
| GivenId (id : string)
| FreshId (prefix : string).

Module Request.
Import JsString.

(** [vscode.LanguageModelChatMessageRole]; every role that is neither
    [User] nor [Assistant] is sent as [system]. *)
Inductive LanguageModelChatMessageRole : Type := User | Assistant | OtherRole.

(** An element of the [content] of a tool-result part. *)
Inductive ToolResultContent : Type :=
| ResultTextPart (value : string)
| ResultDataPart (mimeType data : string)
| ResultString (s : string)
| ResultOther (v : json).

(** A part of a request message, as the [instanceof] tests and
    [isToolResultPart] tell them apart. *)
Inductive ChatPart : Type :=
| LanguageModelTextPart (value : string)
| LanguageModelDataPart (mimeType data : string)
| LanguageModelToolCallPart (callId name : string) (input : jsval)
| ToolResultPart (callId : string) (content : list ToolResultContent)
| UnknownPart.

Record LanguageModelChatRequestMessage : Type := {
  role : LanguageModelChatMessageRole;
  content : list ChatPart
}.

(** The fields of [OpenAICustomModelConfig] read by the builder. *)
Record OpenAICustomModelConfig : Type := {
  id : string;
  modelName : string;
  baseUrl : string;
  instructions : option string;
  supportsSystemRole : option bool;
  supportsStatefulResponses : option bool
}.

Inductive ContentType : Type := input_text | output_text | input_image.

Record ResponsesContentItem : Type := {
  ci_type : ContentType;
  ci_text : option string;
  ci_image_url : option string
}.

Inductive ItemRole : Type := user | assistant | system.

Inductive ResponsesItem : Type :=
| message (r : ItemRole) (c : list ResponsesContentItem)
| function_call (call_id : CallId) (name arguments : string)
| function_call_output (call_id output : string).

(** The fields of the request body that depend on the conversation. The
    generation options, tools and reasoning settings are set independently
    of them and are left out. *)
Record ResponsesBody : Type := {
  model : string;
  input : list ResponsesItem;
  stream : bool;
  store : bool;
  previous_response_id : option string
}.

Section WithRuntime.
Context `{RT : Runtime}.

Definition textItem (ty : ContentType) (t : string) : ResponsesContentItem :=
  {| ci_type := ty; ci_text := Some t; ci_image_url := None |}.

Definition imageItem (url : string) : ResponsesContentItem :=
  {| ci_type := input_image; ci_text := None; ci_image_url := Some url |}.

(** [tryDataPartToDataUrl] *)
Definition tryDataPartToDataUrl (mimeType data : string) : option string :=
  if negb (startsWith mimeType "image/") then None
  else Some ("data:" +:+ mimeType +:+ ";base64," +:+ base64 data).

(** The separator of a stateful marker, a single backslash. *)
Definition backslash : string := String "092"%char EmptyString.

(** The model id and the response id embedded in a part, when the part is
    a stateful marker that [extractPreviousResponseId] does not skip before
    it compares the model id. *)
Definition decodeMarker (part : ChatPart) : option (string * string) :=
  match part with
  | LanguageModelDataPart mimeType data =>
      if String.eqb mimeType "stateful_marker" then
        let raw := TextDecoder_decode data in
        match indexOf raw backslash with
        | None | Some 0%nat => None
        | Some sep =>
            let mid := take sep raw in
            let marker := drop (sep + 1) raw in
            if String.eqb mid EmptyString || String.eqb marker EmptyString then None
            else Some (mid, marker)
        end
      else None
  | _ => None
  end.

(** The inner loop of [extractPreviousResponseId] over the parts of
    message [i]. *)
Fixpoint scanParts (modelId : string) (i : nat) (parts : list ChatPart)
    (last : option (string * nat)) : option (string * nat) :=
  match parts with
  | [] => last
  | part :: rest =>
      scanParts modelId i rest
        (match decodeMarker part with
         | Some (mid, marker) =>
             if String.eqb mid modelId then Some (marker, S i) else last
         | None => last
         end)
  end.

(** The outer loop, from message [i] on. *)
Fixpoint scanMessages (modelId : string) (i : nat)
    (messages : list LanguageModelChatRequestMessage)
    (last : option (string * nat)) : option (string * nat) :=
  match messages with
  | [] => last
  | msg :: rest => scanMessages modelId (S i) rest (scanParts modelId i (content msg) last)
  end.

(** [extractPreviousResponseId]: the pair is
    [(previous_response_id, sliceFromMessageIndex)]. *)
Definition extractPreviousResponseId
    (messages : list LanguageModelChatRequestMessage) (modelId : string)
  : option (string * nat) :=
  scanMessages modelId 0 messages None.

(** [collectToolResultTextAndImages] *)
Fixpoint collectToolResultTextAndImages (cs : list ToolResultContent)
  : string * list string :=
  match cs with
  | [] => (EmptyString, [])
  | c :: rest =>
      let '(t, urls) := collectToolResultTextAndImages rest in
      match c with
      | ResultTextPart v => (v +:+ t, urls)
      | ResultDataPart mime data =>
          match tryDataPartToDataUrl mime data with
          | Some url => (t, url :: urls)
          | None => (t, urls)
          end
      | ResultString s => (s +:+ t, urls)
      | ResultOther v => (JSON_stringify v +:+ t, urls)
      end
  end.

(** The four accumulators of one iteration of the message loop of
    [convertMessagesToItems]. *)
Record PartAcc : Type := {
  pendingText : string;
  contentItems : list ResponsesContentItem;
  toolCalls : list ResponsesItem;
  toolResults : list ResponsesItem
}.

(** One iteration of the loop over the parts of a message. *)
Definition convertPart (r : LanguageModelChatMessageRole) (acc : PartAcc) (part : ChatPart)
  : PartAcc :=
  match part with
  | LanguageModelTextPart value =>
      {| pendingText := pendingText acc +:+ value; contentItems := contentItems acc;
         toolCalls := toolCalls acc; toolResults := toolResults acc |}
  | LanguageModelDataPart mimeType data =>
      if String.eqb mimeType "stateful_marker" then acc
      else match tryDataPartToDataUrl mimeType data with
           | None => acc
           | Some url =>
               match r with
               | Assistant => acc
               | _ =>
                   {| pendingText := EmptyString;
                      contentItems :=
                        (if negb (String.eqb (pendingText acc) EmptyString)
                         then contentItems acc ++ [textItem input_text (pendingText acc)]
                         else contentItems acc) ++ [imageItem url];
                      toolCalls := toolCalls acc; toolResults := toolResults acc |}
               end
           end
  | LanguageModelToolCallPart callId name inp =>
      let cid := if negb (String.eqb callId EmptyString) then GivenId callId else FreshId "call_" in
      let args := match inp with
                  | None | Some JNull => JSON_stringify (JObj [])
                  | Some v => JSON_stringify v
                  end in
      {| pendingText := pendingText acc; contentItems := contentItems acc;
         toolCalls := toolCalls acc ++ [function_call cid name args];
         toolResults := toolResults acc |}
  | ToolResultPart callId cs =>
      let '(t, urls) := collectToolResultTextAndImages cs in
      {| pendingText := pendingText acc; contentItems := contentItems acc;
         toolCalls := toolCalls acc;
         toolResults :=
           toolResults acc ++ function_call_output callId t ::
             List.map (fun url =>
                         message user [textItem input_text "Image associated with tool output.";
                                       imageItem url]) urls |}
  | UnknownPart => acc
  end.

(** The items one message contributes. *)
Definition convertMessage (supportsSystem : bool) (msg : LanguageModelChatRequestMessage)
  : list ResponsesItem :=
  let acc := fold_left (convertPart (role msg)) (content msg)
               {| pendingText := EmptyString; contentItems := []; toolCalls := []; toolResults := [] |} in
  let role0 := match role msg with
               | Assistant => assistant
               | User => user
               | OtherRole => system
               end in
  let downgraded := match role0 with system => negb supportsSystem | _ => false end in
  let role1 := if downgraded then user else role0 in
  let needsSystemPrefix := downgraded in
  let '(items1, needsSystemPrefix) :=
    if negb (String.eqb (pendingText acc) EmptyString) then
      (contentItems acc ++
         [textItem (match role1 with assistant => output_text | _ => input_text end)
                   (if needsSystemPrefix then "[System]: " +:+ pendingText acc
                    else pendingText acc)],
       false)
    else (contentItems acc, needsSystemPrefix) in
  let messageItems :=
    match items1 with
    | [] => []
    | _ =>
        let items2 := if needsSystemPrefix
                      then textItem input_text "[System]:" :: items1 else items1 in
        match role1 with
        | assistant =>
            [message role1
               (List.map (fun c => match ci_type c with
                                   | output_text => c
                                   | _ => {| ci_type := output_text; ci_text := ci_text c;
                                             ci_image_url := None |}
                                   end) items2)]
        | _ => [message role1 items2]
        end
    end in
  messageItems ++ toolCalls acc ++ toolResults acc.

(** [convertMessagesToItems] *)
Definition convertMessagesToItems (messages : list LanguageModelChatRequestMessage)
    (config : OpenAICustomModelConfig) : list ResponsesItem :=
  let supportsSystem := match supportsSystemRole config with
                        | Some false => false
                        | _ => true
                        end in
  let lead :=
    match instructions config with
    | Some ins =>
        let raw := trim ins in
        if negb (String.eqb raw EmptyString) then
          [message (if supportsSystem then system else user)
                   [textItem input_text (if supportsSystem then raw else "[System]: " +:+ raw)]]
        else []
    | None => []
    end in
  lead ++ flat_map (convertMessage supportsSystem) messages.

(** [ResponsesAdapter.buildRequest] *)
Definition buildRequest (messages : list LanguageModelChatRequestMessage)
    (config : OpenAICustomModelConfig) : string * ResponsesBody :=
  let supportsStateful := match supportsStatefulResponses config with
                          | Some false => false
                          | _ => true
                          end in
  let stateful := if supportsStateful
                  then extractPreviousResponseId messages (id config) else None in
  let effectiveMessages := match stateful with
                           | Some (_, sliceFromMessageIndex) =>
                               List.skipn sliceFromMessageIndex messages
                           | None => messages
                           end in
  let items := convertMessagesToItems effectiveMessages config in
  (Endpoint.responsesEndpoint (baseUrl config),
   {| model := modelName config;
      input := items;
      stream := true;
      store := false;
      previous_response_id :=
        match stateful with
        | Some (rid, _) =>
            if supportsStateful && negb (String.eqb rid EmptyString) then Some rid else None
        | None => None
        end |}).

End WithRuntime.
End Request.

(* ===================================================================== *)
(** ** provider.ts: per-turn state and the two tool-call reconstructors *)
(* ===================================================================== *)

(** What [progress.report] receives. *)
Inductive LanguageModelResponsePart : Type :=
| LanguageModelTextPart (value : string)
| LanguageModelToolCallPart (callId : CallId) (name : string) (input : json)
| LanguageModelThinkingPart (value : string) (id : option string) (metadata : jsval)
| LanguageModelDataPart_text (value mime : string).

(** An entry of [_toolCallBuffers]. *)
Module ToolCallBuffer.
Record t : Type := { id : option string; name : option string; args : string }.
End ToolCallBuffer.

(** The object held by [_textToolActive]. *)
Module TextToolActive.
Record t : Type := {
  name : option string;
  index : option Z;
  argBuffer : string;
  emitted : bool
}.
End TextToolActive.

(** A [Map<number, V>] in insertion order. *)
Module NumMap.
Section Ops.
Context {V : Type}.

Fixpoint get (k : Z) (m : list (Z * V)) : option V :=
  match m with
  | [] => None
  | (k', v) :: m' => if (k =? k')%Z then Some v else get k m'
  end.

(** [m.set(k, v)]: an existing key keeps its place. *)
Fixpoint set (k : Z) (v : V) (m : list (Z * V)) : list (Z * V) :=
  match m with
  | [] => [(k, v)]
  | (k', v') :: m' => if (k =? k')%Z then (k, v) :: m' else (k', v') :: set k v m'
  end.

Fixpoint delete (k : Z) (m : list (Z * V)) : list (Z * V) :=
  match m with
  | [] => []
  | (k', v') :: m' => if (k =? k')%Z then m' else (k', v') :: delete k m'
  end.

End Ops.
End NumMap.

Module Provider.
Import JsString.

(** The mutable fields of [OpenAICustomChatModelProvider] that belong to
    one turn. *)
Record State : Type := {
  _toolCallBuffers : list (Z * ToolCallBuffer.t);
  _completedToolCallIndices : gset Z;
  _hasEmittedAssistantText : bool;
  _emittedBeginToolCallsHint : bool;
  _textToolParserBuffer : string;
  _textToolActive : option TextToolActive.t;
  _emittedTextToolCallKeys : gset string;
  _emittedTextToolCallIds : gset string
}.

(** The state of a provider right after construction. *)
Definition initialState : State :=
  {| _toolCallBuffers := []; _completedToolCallIndices := ∅;
     _hasEmittedAssistantText := false; _emittedBeginToolCallsHint := false;
     _textToolParserBuffer := EmptyString; _textToolActive := None;
     _emittedTextToolCallKeys := ∅; _emittedTextToolCallIds := ∅ |}.

Definition setBuffers (st : State) (b : list (Z * ToolCallBuffer.t)) : State :=
  {| _toolCallBuffers := b;
     _completedToolCallIndices := _completedToolCallIndices st;
     _hasEmittedAssistantText := _hasEmittedAssistantText st;
     _emittedBeginToolCallsHint := _emittedBeginToolCallsHint st;
     _textToolParserBuffer := _textToolParserBuffer st;
     _textToolActive := _textToolActive st;
     _emittedTextToolCallKeys := _emittedTextToolCallKeys st;
     _emittedTextToolCallIds := _emittedTextToolCallIds st |}.

Definition addCompleted (st : State) (i : Z) : State :=
  {| _toolCallBuffers := _toolCallBuffers st;
     _completedToolCallIndices := {[ i ]} ∪ _completedToolCallIndices st;
     _hasEmittedAssistantText := _hasEmittedAssistantText st;
     _emittedBeginToolCallsHint := _emittedBeginToolCallsHint st;
     _textToolParserBuffer := _textToolParserBuffer st;
     _textToolActive := _textToolActive st;
     _emittedTextToolCallKeys := _emittedTextToolCallKeys st;
     _emittedTextToolCallIds := _emittedTextToolCallIds st |}.

Definition setHasEmittedAssistantText (st : State) (b : bool) : State :=
  {| _toolCallBuffers := _toolCallBuffers st;
     _completedToolCallIndices := _completedToolCallIndices st;
     _hasEmittedAssistantText := b;
     _emittedBeginToolCallsHint := _emittedBeginToolCallsHint st;
     _textToolParserBuffer := _textToolParserBuffer st;
     _textToolActive := _textToolActive st;
     _emittedTextToolCallKeys := _emittedTextToolCallKeys st;
     _emittedTextToolCallIds := _emittedTextToolCallIds st |}.

Definition setEmittedBeginToolCallsHint (st : State) (b : bool) : State :=
  {| _toolCallBuffers := _toolCallBuffers st;
     _completedToolCallIndices := _completedToolCallIndices st;
     _hasEmittedAssistantText := _hasEmittedAssistantText st;
     _emittedBeginToolCallsHint := b;
     _textToolParserBuffer := _textToolParserBuffer st;
     _textToolActive := _textToolActive st;
     _emittedTextToolCallKeys := _emittedTextToolCallKeys st;
     _emittedTextToolCallIds := _emittedTextToolCallIds st |}.

Definition setParserBuffer (st : State) (s : string) : State :=
  {| _toolCallBuffers := _toolCallBuffers st;
     _completedToolCallIndices := _completedToolCallIndices st;
     _hasEmittedAssistantText := _hasEmittedAssistantText st;
     _emittedBeginToolCallsHint := _emittedBeginToolCallsHint st;
     _textToolParserBuffer := s;
     _textToolActive := _textToolActive st;
     _emittedTextToolCallKeys := _emittedTextToolCallKeys st;
     _emittedTextToolCallIds := _emittedTextToolCallIds st |}.

Definition setActive (st : State) (a : option TextToolActive.t) : State :=
  {| _toolCallBuffers := _toolCallBuffers st;
     _completedToolCallIndices := _completedToolCallIndices st;
     _hasEmittedAssistantText := _hasEmittedAssistantText st;
     _emittedBeginToolCallsHint := _emittedBeginToolCallsHint st;
     _textToolParserBuffer := _textToolParserBuffer st;
     _textToolActive := a;
     _emittedTextToolCallKeys := _emittedTextToolCallKeys st;
     _emittedTextToolCallIds := _emittedTextToolCallIds st |}.

Definition addKey (st : State) (key : string) : State :=
  {| _toolCallBuffers := _toolCallBuffers st;
     _completedToolCallIndices := _completedToolCallIndices st;
     _hasEmittedAssistantText := _hasEmittedAssistantText st;
     _emittedBeginToolCallsHint := _emittedBeginToolCallsHint st;
     _textToolParserBuffer := _textToolParserBuffer st;
     _textToolActive := _textToolActive st;
     _emittedTextToolCallKeys := {[ key ]} ∪ _emittedTextToolCallKeys st;
     _emittedTextToolCallIds := _emittedTextToolCallIds st |}.

Definition addId (st : State) (idKey : string) : State :=
  {| _toolCallBuffers := _toolCallBuffers st;
     _completedToolCallIndices := _completedToolCallIndices st;
     _hasEmittedAssistantText := _hasEmittedAssistantText st;
     _emittedBeginToolCallsHint := _emittedBeginToolCallsHint st;
     _textToolParserBuffer := _textToolParserBuffer st;
     _textToolActive := _textToolActive st;
     _emittedTextToolCallKeys := _emittedTextToolCallKeys st;
     _emittedTextToolCallIds := {[ idKey ]} ∪ _emittedTextToolCallIds st |}.

(** The eight assignments at the head of
    [provideLanguageModelChatResponse]. *)
Definition resetAtTurnStart (st : State) : State :=
  {| _toolCallBuffers := [];
     _completedToolCallIndices := ∅;
     _hasEmittedAssistantText := false;
     _emittedBeginToolCallsHint := false;
     _textToolParserBuffer := EmptyString;
     _textToolActive := None;
     _emittedTextToolCallKeys := ∅;
     _emittedTextToolCallIds := ∅ |}.

(** The seven assignments of the [finally] block of
    [processStreamingResponse]. *)
Definition cleanUpAfterStream (st : State) : State :=
  {| _toolCallBuffers := [];
     _completedToolCallIndices := ∅;
     _hasEmittedAssistantText := false;
     _emittedBeginToolCallsHint := false;
     _textToolParserBuffer := EmptyString;
     _textToolActive := None;
     _emittedTextToolCallKeys := ∅;
     _emittedTextToolCallIds := _emittedTextToolCallIds st |}.

(** The key [`${name}:${canonical}`] of a call. *)
Definition callKey `{RT : Runtime} (name : string) (value : json) : string :=
  name +:+ ":" +:+ JSON_stringify value.

Section WithRuntime.
Context `{RT : Runtime}.

(** [emitTextToolCallIfValid]: the result, the state and the parts
    reported. *)
Definition emitTextToolCallIfValid (st : State) (call : TextToolActive.t) (argText : string)
  : bool * State * list LanguageModelResponsePart :=
  let name := match TextToolActive.name call with Some n => n | None => "unknown_tool" end in
  match tryParseJSONObject argText with
  | None => (false, st, [])
  | Some value =>
      let key := callKey name value in
      let report st' :=
        (true, addKey st' key, [LanguageModelToolCallPart (FreshId "tct_") name value]) in
      match TextToolActive.index call with
      | Some i =>
          let idKey := name +:+ ":" +:+ ofZ i in
          if bool_decide (idKey ∈ _emittedTextToolCallIds st) then (false, st, [])
          else report (addId st idKey)
      | None =>
          if bool_decide (key ∈ _emittedTextToolCallKeys st) then (false, st, [])
          else report st
      end
  end.

(** [flushActiveTextToolCall] *)
Definition flushActiveTextToolCall (st : State) : State * list LanguageModelResponsePart :=
  match _textToolActive st with
  | None => (st, [])
  | Some act =>
      match tryParseJSONObject (TextToolActive.argBuffer act) with
      | None => (st, [])
      | Some _ =>
          let '(_, st', out) := emitTextToolCallIfValid st act (TextToolActive.argBuffer act) in
          (setActive st' None, out)
      end
  end.

(** [tryEmitBufferedToolCall] *)
Definition tryEmitBufferedToolCall (st : State) (index : Z)
  : State * list LanguageModelResponsePart :=
  match NumMap.get index (_toolCallBuffers st) with
  | None => (st, [])
  | Some buf =>
      match ToolCallBuffer.name buf with
      | None => (st, [])
      | Some name =>
          if String.eqb name EmptyString then (st, []) else
          match tryParseJSONObject (ToolCallBuffer.args buf) with
          | None => (st, [])
          | Some parameters =>
              let id := match ToolCallBuffer.id buf with
                        | Some i => GivenId i
                        | None => FreshId "call_"
                        end in
              let st1 := addKey st (callKey name parameters) in
              let st2 := setBuffers st1 (NumMap.delete index (_toolCallBuffers st1)) in
              (addCompleted st2 index, [LanguageModelToolCallPart id name parameters])
          end
      end
  end.

(** The [for] loop of [flushToolCallBuffers] over the snapshot
    [Array.from(this._toolCallBuffers.entries())]; the last component is
    the message of the error thrown, if any. *)
Fixpoint flushEntries (entries : list (Z * ToolCallBuffer.t)) (throwOnInvalid : bool)
    (st : State) : State * list LanguageModelResponsePart * option string :=
  match entries with
  | [] => (st, [], None)
  | (idx, buf) :: rest =>
      match tryParseJSONObject (ToolCallBuffer.args buf) with
      | None =>
          if throwOnInvalid then (st, [], Some "Invalid JSON for tool call")
          else flushEntries rest throwOnInvalid st
      | Some value =>
          let id := match ToolCallBuffer.id buf with
                    | Some i => GivenId i
                    | None => FreshId "call_"
                    end in
          let name := match ToolCallBuffer.name buf with
                      | Some n => n
                      | None => "unknown_tool"
                      end in
          let st1 := addKey st (callKey name value) in
          let st2 := setBuffers st1 (NumMap.delete idx (_toolCallBuffers st1)) in
          let '(st3, out, err) := flushEntries rest throwOnInvalid (addCompleted st2 idx) in
          (st3, LanguageModelToolCallPart id name value :: out, err)
      end
  end.

(** [flushToolCallBuffers] *)
Definition flushToolCallBuffers (st : State) (throwOnInvalid : bool)
  : State * list LanguageModelResponsePart * option string :=
  match _toolCallBuffers st with
  | [] => (st, [], None)
  | entries => flushEntries entries throwOnInvalid st
  end.

(** *** The inline tool-call tokenizer *)

Definition BEGIN : string := "<|tool_call_begin|>".
Definition ARG_BEGIN : string := "<|tool_call_argument_begin|>".
Definition END : string := "<|tool_call_end|>".

Definition isDigit (c : ascii) : bool :=
  let n := nat_of_ascii c in ((48 <=? n) && (n <=? 57))%nat.

Definition isAlphaNum (c : ascii) : bool :=
  let n := nat_of_ascii c in
  (isDigit c || ((65 <=? n) && (n <=? 90)) || ((97 <=? n) && (n <=? 122)))%nat.

(** The class [[a-zA-Z0-9_-]] *)
Definition isWordOrDash (c : ascii) : bool :=
  isAlphaNum c || Ascii.eqb c "_"%char || Ascii.eqb c "-"%char.

(** The class [[A-Za-z0-9_\-.]] *)
Definition isNameChar (c : ascii) : bool :=
  isWordOrDash c || Ascii.eqb c "."%char.

Fixpoint takeWhile (f : ascii -> bool) (s : string) : string :=
  match s with
  | String c s' => if f c then String c (takeWhile f s') else EmptyString
  | EmptyString => EmptyString
  end.

Fixpoint dropWhile (f : ascii -> bool) (s : string) : string :=
  match s with
  | String c s' => if f c then dropWhile f s' else s
  | EmptyString => EmptyString
  end.

(** The length of the match of
    [/<\|[a-zA-Z0-9_-]+_section_(?:begin|end)\|>/] at the head of [s].
    Every character the pattern consumes between [<|] and [|>] is in the
    class and [|] is not, so the run of class characters after [<|] has
    to end in [_section_begin] or [_section_end], with at least one
    character before that, and [|>] has to follow it. *)
Definition sectionMarkerLength (s : string) : option nat :=
  if startsWith s "<|" then
    let run := takeWhile isWordOrDash (drop 2 s) in
    let n := String.length run in
    if startsWith (drop n (drop 2 s)) "|>"
       && ((endsWith run "_section_begin" && (14 <? n)%nat)
           || (endsWith run "_section_end" && (12 <? n)%nat))
    then Some (2 + n + 2)%nat else None
  else None.

(** The length of the match of
    [/<\|tool_call_(?:argument_)?(?:begin|end)\|>/] at the head of [s]. *)
Definition toolTokenLength (s : string) : option nat :=
  let tokens := ["<|tool_call_argument_begin|>"; "<|tool_call_argument_end|>";
                 "<|tool_call_begin|>"; "<|tool_call_end|>"] in
  match List.find (startsWith s) tokens with
  | Some t => Some (String.length t)
  | None => None
  end.

(** [s.replace(re, empty)] for a global pattern given by the length of its
    match at a position: [skip] characters of a match are still to be
    dropped. *)
Fixpoint removeMatches (matchLength : string -> option nat) (skip : nat) (s : string)
  : string :=
  match s with
  | EmptyString => EmptyString
  | String c s' =>
      match skip with
      | S k => removeMatches matchLength k s'
      | O =>
          match matchLength s with
          | Some (S k) => removeMatches matchLength k s'
          | _ => String c (removeMatches matchLength 0 s')
          end
      end
  end.

(** [stripControlTokens] *)
Definition stripControlTokens (t : string) : string :=
  removeMatches toolTokenLength 0 (removeMatches sectionMarkerLength 0 t).

(** The closure computing [longestPartialPrefix], its loop started at [k]. *)
Fixpoint longestPartialPrefixFrom (k : nat) (data : string) : nat :=
  match k with
  | O => O
  | S k' => if endsWith data (take k BEGIN) then k else longestPartialPrefixFrom k' data
  end.

Definition longestPartialPrefix (data : string) : nat :=
  longestPartialPrefixFrom
    (Nat.min (String.length BEGIN - 1) (String.length data - 1)) data.

(** [Number(digits)] for a string of decimal digits. *)
Definition numberOfDigits (digits : string) : Z :=
  fold_left (fun acc c => (10 * acc + Z.of_nat (nat_of_ascii c - 48))%Z)
            (list_ascii_of_string digits) 0%Z.

(** [header.match(/^([A-Za-z0-9_\-.]+)(?::(\d+))?/)]: the groups 1 and 2
    as the code converts them, [(name, index)]. *)
Definition matchHeader (header : string) : option string * option Z :=
  let name := takeWhile isNameChar header in
  if String.eqb name EmptyString then (None, None)
  else
    let rest := drop (String.length name) header in
    match rest with
    | String ":" rest' =>
        let digits := takeWhile isDigit rest' in
        if String.eqb digits EmptyString then (Some name, None)
        else (Some name, Some (numberOfDigits digits))
    | _ => (Some name, None)
    end.

(** The variables of the [while] loop of [processTextContent]. *)
Record LoopVars : Type := {
  data : string;
  visibleOut : string;
  emittedAny : bool;
  state : State;
  reported : list LanguageModelResponsePart
}.

Definition withArgBuffer (a : TextToolActive.t) (b : string) : TextToolActive.t :=
  {| TextToolActive.name := TextToolActive.name a;
     TextToolActive.index := TextToolActive.index a;
     TextToolActive.argBuffer := b;
     TextToolActive.emitted := TextToolActive.emitted a |}.

Definition withEmitted (a : TextToolActive.t) (e : bool) : TextToolActive.t :=
  {| TextToolActive.name := TextToolActive.name a;
     TextToolActive.index := TextToolActive.index a;
     TextToolActive.argBuffer := TextToolActive.argBuffer a;
     TextToolActive.emitted := e |}.

(** The [while (data.length > 0)] loop of [processTextContent]. Every
    [continue] shortens [data], so [fuel] above its length is never used
    up; [None] is the loop still running when the fuel is. *)
Fixpoint textLoop (fuel : nat) (v : LoopVars) : option LoopVars :=
  match fuel with
  | O => None
  | S fuel' =>
    if String.eqb (data v) EmptyString then Some v else
    let st := state v in
    match _textToolActive st with
    | None =>
      match indexOf (data v) BEGIN with
      | None =>
          let k := longestPartialPrefix (data v) in
          if (0 <? k)%nat then
            let visible := take (String.length (data v) - k) (data v) in
            Some {| data := EmptyString;
                    visibleOut := if negb (String.eqb visible EmptyString)
                                  then visibleOut v +:+ stripControlTokens visible
                                  else visibleOut v;
                    emittedAny := emittedAny v;
                    state := setParserBuffer st (drop (String.length (data v) - k) (data v));
                    reported := reported v |}
          else
            Some {| data := EmptyString;
                    visibleOut := visibleOut v +:+ stripControlTokens (data v);
                    emittedAny := emittedAny v;
                    state := st;
                    reported := reported v |}
      | Some b =>
          let pre := take b (data v) in
          let visibleOut1 := if negb (String.eqb pre EmptyString)
                             then visibleOut v +:+ stripControlTokens pre
                             else visibleOut v in
          let data1 := drop (b + String.length BEGIN) (data v) in
          let a := indexOf data1 ARG_BEGIN in
          let e := indexOf data1 END in
          let delim : option (nat * bool) :=
            match a, e with
            | Some ai, None => Some (ai, true)
            | Some ai, Some ei => if (ai <? ei)%nat then Some (ai, true) else Some (ei, false)
            | None, Some ei => Some (ei, false)
            | None, None => None
            end in
          match delim with
          | None =>
              Some {| data := EmptyString;
                      visibleOut := visibleOut1;
                      emittedAny := emittedAny v;
                      state := setParserBuffer st (BEGIN +:+ data1);
                      reported := reported v |}
          | Some (delimIdx, isArg) =>
              let header := trim (take delimIdx data1) in
              let '(name, index) := matchHeader header in
              let active := {| TextToolActive.name := name;
                               TextToolActive.index := index;
                               TextToolActive.argBuffer := EmptyString;
                               TextToolActive.emitted := false |} in
              if isArg then
                textLoop fuel'
                  {| data := drop (delimIdx + String.length ARG_BEGIN) data1;
                     visibleOut := visibleOut1;
                     emittedAny := emittedAny v;
                     state := setActive st (Some active);
                     reported := reported v |}
              else
                let '(did, st', out) := emitTextToolCallIfValid st active "{}" in
                textLoop fuel'
                  {| data := drop (delimIdx + String.length END) data1;
                     visibleOut := visibleOut1;
                     emittedAny := emittedAny v || did;
                     state := setActive st' None;
                     reported := reported v ++ out |}
          end
      end
    | Some act =>
      match indexOf (data v) END with
      | None =>
          let act1 := withArgBuffer act (TextToolActive.argBuffer act +:+ data v) in
          if negb (TextToolActive.emitted act1) then
            let '(did, st', out) :=
              emitTextToolCallIfValid st act1 (TextToolActive.argBuffer act1) in
            Some {| data := EmptyString;
                    visibleOut := visibleOut v;
                    emittedAny := emittedAny v || did;
                    state := setActive st' (Some (if did then withEmitted act1 true else act1));
                    reported := reported v ++ out |}
          else
            Some {| data := EmptyString;
                    visibleOut := visibleOut v;
                    emittedAny := emittedAny v;
                    state := setActive st (Some act1);
                    reported := reported v |}
      | Some e2 =>
          let act1 := withArgBuffer act (TextToolActive.argBuffer act +:+ take e2 (data v)) in
          let data1 := drop (e2 + String.length END) (data v) in
          if negb (TextToolActive.emitted act1) then
            let '(did, st', out) :=
              emitTextToolCallIfValid st act1 (TextToolActive.argBuffer act1) in
            textLoop fuel'
              {| data := data1;
                 visibleOut := visibleOut v;
                 emittedAny := emittedAny v || did;
                 state := setActive st' None;
                 reported := reported v ++ out |}
          else
            textLoop fuel'
              {| data := data1;
                 visibleOut := visibleOut v;
                 emittedAny := emittedAny v;
                 state := setActive st None;
                 reported := reported v |}
      end
    end
  end.

(** [processTextContent]: [(emittedText, emittedAny)], the state and the
    parts reported. The visible text of a chunk is reported after the
    tool calls found in it. *)
Definition processTextContent (st : State) (input : string)
  : (bool * bool) * State * list LanguageModelResponsePart :=
  let data0 := _textToolParserBuffer st +:+ input in
  let v0 := {| data := data0; visibleOut := EmptyString; emittedAny := false;
               state := st; reported := [] |} in
  let v := match textLoop (S (String.length data0)) v0 with
           | Some v => v
           | None => v0
           end in
  let textToEmit := visibleOut v in
  if negb (String.eqb textToEmit EmptyString) then
    ((true, true), setParserBuffer (state v) (data v),
     reported v ++ [LanguageModelTextPart textToEmit])
  else
    ((false, emittedAny v), setParserBuffer (state v) (data v), reported v).

(** *** The streaming loop *)

(** How a step of the loop ends: normally, or with the error thrown. *)
Inductive Outcome : Type :=
| Normal
| Thrown (message : string).

Definition outcomeOf (err : option string) : Outcome :=
  match err with Some m => Thrown m | None => Normal end.

(** The flushes made on [done] and after a stateful marker. *)
Definition flushSilently (st : State) : State * list LanguageModelResponsePart :=
  let '(st1, out1, _) := flushToolCallBuffers st false in
  let '(st2, out2) := flushActiveTextToolCall st1 in
  (st2, out1 ++ out2).

(** The body of the [for (const line of lines)] loop of
    [processStreamingResponse], from the event on. *)
Definition processEvent (modelId : string) (st : State) (event : StreamEvent)
  : State * list LanguageModelResponsePart * Outcome :=
  match event with
  | skip => (st, [], Normal)
  | done =>
      let '(st', out) := flushSilently st in (st', out, Normal)
  | stateful_marker marker =>
      let payload := modelId +:+ Request.backslash +:+ marker in
      let '(st', out) := flushSilently st in
      (st', LanguageModelDataPart_text payload "stateful_marker" :: out, Normal)
  | text content =>
      let '((emittedText, _), st', out) := processTextContent st content in
      (if emittedText then setHasEmittedAssistantText st' true else st', out, Normal)
  | thinking t i m =>
      (st, if hostHasThinkingPart then [LanguageModelThinkingPart t i m] else [], Normal)
  | tool_call index id name args =>
      let hint := negb (_emittedBeginToolCallsHint st) && _hasEmittedAssistantText st in
      let st0 := if hint then setEmittedBeginToolCallsHint st true else st in
      let out0 := if hint then [LanguageModelTextPart " "] else [] in
      if bool_decide (index ∈ _completedToolCallIndices st0) then (st0, out0, Normal)
      else
        let buf := match NumMap.get index (_toolCallBuffers st0) with
                   | Some b => b
                   | None => {| ToolCallBuffer.id := None; ToolCallBuffer.name := None;
                                ToolCallBuffer.args := EmptyString |}
                   end in
        let truthyString (o : option string) :=
          match o with Some s => negb (String.eqb s EmptyString) | None => false end in
        let buf' :=
          {| ToolCallBuffer.id := if truthyString id then id else ToolCallBuffer.id buf;
             ToolCallBuffer.name := if truthyString name then name else ToolCallBuffer.name buf;
             ToolCallBuffer.args :=
               match args with
               | Some a => ToolCallBuffer.args buf +:+ a
               | None => ToolCallBuffer.args buf
               end |} in
        let st1 := setBuffers st0 (NumMap.set index buf' (_toolCallBuffers st0)) in
        let '(st2, out) := tryEmitBufferedToolCall st1 index in
        (st2, out0 ++ out, Normal)
  | finish reason =>
      match reason with
      | JStr r =>
          if String.eqb r "tool_calls" || String.eqb r "stop" then
            let '(st', out, err) := flushToolCallBuffers st true in
            (st', out, outcomeOf err)
          else (st, [], Normal)
      | _ => (st, [], Normal)
      end
  end.

(** The [for] loop over the lines of one chunk; it stops at the first
    error. *)
Fixpoint processLines (modelId : string) (ad : Adapters.LLMAdapter) (st : State)
    (lines : list string)
  : Adapters.LLMAdapter * State * list LanguageModelResponsePart * Outcome :=
  match lines with
  | [] => (ad, st, [], Normal)
  | line :: rest =>
      let '(ad1, event) := Adapters.parseStreamEvent ad line in
      match processEvent modelId st event with
      | (st1, out1, Normal) =>
          let '(ad2, st2, out2, o) := processLines modelId ad1 st1 rest in
          (ad2, st2, out1 ++ out2, o)
      | (st1, out1, Thrown m) => (ad1, st1, out1, Thrown m)
      end
  end.

(** Why [reader.read()] stopped delivering chunks: the stream ended, the
    cancellation token was set, or the read was rejected. *)
Inductive StreamEnd : Type :=
| EndOfStream
| Cancelled
| ReadRejected (message : string).

(** The [while] loop of [processStreamingResponse] over the decoded
    chunks that were read. *)
Fixpoint readLoop (modelId : string) (ad : Adapters.LLMAdapter) (st : State)
    (buffer : string) (chunks : list string) (ending : StreamEnd)
  : State * list LanguageModelResponsePart * Outcome :=
  match chunks with
  | [] => (st, [], match ending with ReadRejected m => Thrown m | _ => Normal end)
  | chunk :: rest =>
      let lines := splitLines (buffer +:+ chunk) in
      let buffer' := List.last lines EmptyString in
      match processLines modelId ad st (List.removelast lines) with
      | (ad1, st1, out1, Normal) =>
          let '(st2, out2, o) := readLoop modelId ad1 st1 buffer' rest ending in
          (st2, out1 ++ out2, o)
      | (_, st1, out1, Thrown m) => (st1, out1, Thrown m)
      end
  end.

(** [processStreamingResponse]: the loop, then the [finally] block. *)
Definition processStreamingResponse (modelId : string) (ad : Adapters.LLMAdapter)
    (st : State) (chunks : list string) (ending : StreamEnd)
  : State * list LanguageModelResponsePart * Outcome :=
  let '(st1, out, o) := readLoop modelId ad st EmptyString chunks ending in
  (cleanUpAfterStream st1, out, o).

(** What happens to a turn between the reset and the streaming loop: an
    error is thrown before any response is streamed, or a response body is
    streamed through an adapter. *)
Inductive Exchange : Type :=
| FailedBeforeStreaming (message : string)
| Streamed (ad : Adapters.LLMAdapter) (chunks : list string) (ending : StreamEnd).

(** [provideLanguageModelChatResponse], as far as the per-turn state and
    the reported parts go. *)
Definition provideLanguageModelChatResponse (modelId : string) (st : State) (x : Exchange)
  : State * list LanguageModelResponsePart * Outcome :=
  let st0 := resetAtTurnStart st in
  match x with
  | FailedBeforeStreaming m => (st0, [], Thrown m)
  | Streamed ad chunks ending => processStreamingResponse modelId ad st0 chunks ending
  end.

End WithRuntime.
End Provider.

(* ===================================================================== *)
(** ** A reference run time, used to run the definitions on examples *)
(* ===================================================================== *)

(** A reader and a printer of JSON text standing for [JSON.parse] and
    [JSON.stringify]. Numbers are integer literals, [\u] escapes are not
    read, and the members of an object are kept in the order of the text (a
    repeated key keeps its first place and its last value). *)
Module JsonText.
Import JsString.

Definition isJsonSpace (c : ascii) : bool :=
  let n := nat_of_ascii c in ((n =? 32) || (n =? 9) || (n =? 10) || (n =? 13))%nat.

Fixpoint skipSpace (s : string) : string :=
  match s with
  | String c s' => if isJsonSpace c then skipSpace s' else s
  | EmptyString => EmptyString
  end.

Definition unescape (c : ascii) : option ascii :=
  if Ascii.eqb c "034"%char then Some "034"%char
  else if Ascii.eqb c "\"%char then Some "\"%char
  else if Ascii.eqb c "/"%char then Some "/"%char
  else if Ascii.eqb c "n"%char then Some "010"%char
  else if Ascii.eqb c "t"%char then Some "009"%char
  else if Ascii.eqb c "r"%char then Some "013"%char
  else if Ascii.eqb c "b"%char then Some "008"%char
  else if Ascii.eqb c "f"%char then Some "012"%char
  else None.

(** The characters of a string literal after its opening quote, and the
    text after its closing quote. *)
Fixpoint readChars (s : string) : option (string * string) :=
  match s with
  | EmptyString => None
  | String c s' =>
      if Ascii.eqb c "034"%char then Some (EmptyString, s')
      else if Ascii.eqb c "\"%char then
        match s' with
        | String e s'' =>
            match unescape e, readChars s'' with
            | Some ch, Some (t, r) => Some (String ch t, r)
            | _, _ => None
            end
        | EmptyString => None
        end
      else if (nat_of_ascii c <? 32)%nat then None
      else match readChars s' with
           | Some (t, r) => Some (String c t, r)
           | None => None
           end
  end.

(** An integer literal: [-]? then [0] or a digit run without a leading
    zero, not followed by a fraction or an exponent. *)
Definition readNumber (s : string) : option (Z * string) :=
  let '(neg, body) := match s with
                      | String "-" r => (true, r)
                      | _ => (false, s)
                      end in
  let digits := Provider.takeWhile Provider.isDigit body in
  let rest := drop (String.length digits) body in
  let n := Provider.numberOfDigits digits in
  let wellFormed :=
    negb (String.eqb digits EmptyString)
    && (String.eqb digits "0" || negb (startsWith digits "0"))
    && negb (startsWith rest "." || startsWith rest "e" || startsWith rest "E") in
  if wellFormed then Some (if neg then (- n)%Z else n, rest) else None.

Fixpoint setMember (k : string) (v : json) (l : list (string * json)) : list (string * json) :=
  match l with
  | [] => [(k, v)]
  | (k', v') :: l' => if String.eqb k k' then (k, v) :: l' else (k', v') :: setMember k v l'
  end.

Fixpoint readValue (fuel : nat) (s : string) : option (json * string) :=
  match fuel with
  | O => None
  | S fuel' =>
      match skipSpace s with
      | String "{" r =>
          match skipSpace r with
          | String "}" r' => Some (JObj [], r')
          | _ => match readMembers fuel' r [] with
                 | Some (ms, r') => Some (JObj ms, r')
                 | None => None
                 end
          end
      | String "[" r =>
          match skipSpace r with
          | String "]" r' => Some (JArr [], r')
          | _ => match readElements fuel' r with
                 | Some (vs, r') => Some (JArr vs, r')
                 | None => None
                 end
          end
      | String "034" r =>
          match readChars r with
          | Some (t, r') => Some (JStr t, r')
          | None => None
          end
      | t =>
          if startsWith t "true" then Some (JBool true, drop 4 t)
          else if startsWith t "false" then Some (JBool false, drop 5 t)
          else if startsWith t "null" then Some (JNull, drop 4 t)
          else match readNumber t with
               | Some (n, r) => Some (JNum n, r)
               | None => None
               end
      end
  end
with readElements (fuel : nat) (s : string) : option (list json * string) :=
  match fuel with
  | O => None
  | S fuel' =>
      match readValue fuel' s with
      | Some (v, r) =>
          match skipSpace r with
          | String "," r' =>
              match readElements fuel' r' with
              | Some (vs, r'') => Some (v :: vs, r'')
              | None => None
              end
          | String "]" r' => Some ([v], r')
          | _ => None
          end
      | None => None
      end
  end
with readMembers (fuel : nat) (s : string) (acc : list (string * json))
  : option (list (string * json) * string) :=
  match fuel with
  | O => None
  | S fuel' =>
      match skipSpace s with
      | String "034" r =>
          match readChars r with
          | Some (k, r1) =>
              match skipSpace r1 with
              | String ":" r2 =>
                  match readValue fuel' r2 with
                  | Some (v, r3) =>
                      match skipSpace r3 with
                      | String "," r4 => readMembers fuel' r4 (setMember k v acc)
                      | String "}" r4 => Some (setMember k v acc, r4)
                      | _ => None
                      end
                  | None => None
                  end
              | _ => None
              end
          | None => None
          end
      | _ => None
      end
  end.

(** [JSON.parse] *)
Definition parse (s : string) : option json :=
  match readValue (2 * String.length s + 2) s with
  | Some (v, r) => if String.eqb (skipSpace r) EmptyString then Some v else None
  | None => None
  end.

Definition hexDigit (n : nat) : ascii :=
  ascii_of_nat (if (n <? 10)%nat then 48 + n else 87 + n).

Fixpoint escape (s : string) : string :=
  match s with
  | EmptyString => EmptyString
  | String c s' =>
      let n := nat_of_ascii c in
      (if Ascii.eqb c "034"%char then String "\" (String "034" EmptyString)
       else if Ascii.eqb c "\"%char then String "\" (String "\" EmptyString)
       else if (n =? 10)%nat then "\n"
       else if (n =? 13)%nat then "\r"
       else if (n =? 9)%nat then "\t"
       else if (n =? 8)%nat then "\b"
       else if (n =? 12)%nat then "\f"
       else if (n <? 32)%nat then
         "\u00" +:+ String (hexDigit (n / 16)) (String (hexDigit (n mod 16)) EmptyString)
       else String c EmptyString) +:+ escape s'
  end.

Definition quote (s : string) : string :=
  String "034" (escape s) +:+ String "034" EmptyString.

(** [JSON.stringify] *)
Fixpoint stringify (v : json) : string :=
  match v with
  | JNull => "null"
  | JBool true => "true"
  | JBool false => "false"
  | JNum n => ofZ n
  | JStr s => quote s
  | JArr l => "[" +:+ Js.join "," (List.map stringify l) +:+ "]"
  | JObj l =>
      "{" +:+ Js.join "," (List.map (fun kv => quote (fst kv) +:+ ":" +:+ stringify (snd kv)) l)
      +:+ "}"
  end.

End JsonText.

Module Reference.

(** Modelled from the spec: [tryParseJSONObject] belongs to [utils.ts],
    which is not among the sources; the specification has a buffer flush
    exactly when its accumulated arguments parse as a JSON object. *)
Definition parseJSONObject (s : string) : option json :=
  match JsonText.parse s with
  | Some (JObj l) => Some (JObj l)
  | _ => None
  end.

(** The comparisons and casts of values of an undeclared type are fixed
    arbitrarily, bytes are decoded as the code units they are and the
    base64 encoder is the identity; no example below depends on them. *)
#[export] Instance runtime : Runtime := {|
  JSON_parse := JsonText.parse;
  JSON_stringify := JsonText.stringify;
  tryParseJSONObject := parseJSONObject;
  looselyPositive := fun v => match v with JBool b => b | _ => false end;
  castIndex := fun _ => 0%Z;
  castString := Js.toString;
  TextDecoder_decode := fun bytes => bytes;
  base64 := fun bytes => bytes;
  hostHasThinkingPart := true
|}.

End Reference.

(* ===================================================================== *)
(** ** Runs of events, and the properties stated in the specification's words *)
(* ===================================================================== *)

Module Run.
Import Provider.

Section WithRuntime.
Context `{RT : Runtime}.

(** The events handled one after the other, up to the first error. *)
Fixpoint runEvents (modelId : string) (st : State) (events : list StreamEvent)
  : State * list LanguageModelResponsePart * Outcome :=
  match events with
  | [] => (st, [], Normal)
  | ev :: rest =>
      match processEvent modelId st ev with
      | (st1, out1, Normal) =>
          let '(st2, out2, o) := runEvents modelId st1 rest in (st2, out1 ++ out2, o)
      | (st1, out1, Thrown m) => (st1, out1, Thrown m)
      end
  end.

(** What each event of a run made the provider report. *)
Fixpoint stepOutputs (modelId : string) (st : State) (events : list StreamEvent)
  : list (list LanguageModelResponsePart) :=
  match events with
  | [] => []
  | ev :: rest =>
      match processEvent modelId st ev with
      | (st1, out1, Normal) => out1 :: stepOutputs modelId st1 rest
      | (_, out1, Thrown _) => [out1]
      end
  end.

End WithRuntime.

Definition isToolCallPart (p : LanguageModelResponsePart) : bool :=
  match p with LanguageModelToolCallPart _ _ _ => true | _ => false end.

(** The tool calls among reported parts. *)
Definition toolCallsOf (out : list LanguageModelResponsePart)
  : list LanguageModelResponsePart :=
  List.filter isToolCallPart out.

(** Every tool call among [out] has its key in the emitted-key set of
    [st]. *)
Definition keysCover `{RT : Runtime} (st : State) (out : list LanguageModelResponsePart)
  : Prop :=
  forall id name value,
    In (LanguageModelToolCallPart id name value) out ->
    callKey name value ∈ _emittedTextToolCallKeys st.

Definition isTextPart (p : LanguageModelResponsePart) : bool :=
  match p with LanguageModelTextPart _ => true | _ => false end.

(** The visible text among reported parts, concatenated. *)
Fixpoint visibleText (out : list LanguageModelResponsePart) : string :=
  match out with
  | [] => EmptyString
  | LanguageModelTextPart t :: rest => t +:+ visibleText rest
  | _ :: rest => visibleText rest
  end.

End Run.

(** The Tool-Call Reconstructor as the specification words it: deltas
    addressed to one index accumulate, and the call is emitted at the first
    delta after which the buffer has a non-empty name and arguments that
    parse as a JSON object. *)
Module ReconstructorSpec.

(** The payload of a [toolCallDelta] event. *)
Record Delta : Type := {
  d_id : option string;
  d_name : option string;
  d_args : option string
}.

Definition deltaEvent (index : Z) (d : Delta) : StreamEvent :=
  tool_call index (d_id d) (d_name d) (d_args d).

Definition present (o : option string) : bool :=
  match o with Some s => negb (String.eqb s EmptyString) | None => false end.

(** The most recent non-empty name, or identifier, among deltas. *)
Definition latest (field : Delta -> option string) (ds : list Delta) : option string :=
  fold_left (fun acc d => if present (field d) then field d else acc) ds None.

(** The argument fragments of the deltas, concatenated. *)
Definition fragments (ds : list Delta) : string :=
  fold_left (fun acc d => match d_args d with Some a => acc +:+ a | None => acc end)
            ds EmptyString.

Section WithRuntime.
Context `{RT : Runtime}.

(** The buffer has a non-empty name and its arguments parse. *)
Definition readyAfter (ds : list Delta) : bool :=
  present (latest d_name ds)
  && match tryParseJSONObject (fragments ds) with Some _ => true | None => false end.

(** The call emitted for the deltas received so far. *)
Definition expectedCall (ds : list Delta) : list LanguageModelResponsePart :=
  match latest d_name ds, tryParseJSONObject (fragments ds) with
  | Some name, Some value =>
      [LanguageModelToolCallPart
         (match latest d_id ds with Some i => GivenId i | None => FreshId "call_" end)
         name value]
  | _, _ => []
  end.

(** The buffer the deltas received so far accumulate to. *)
Definition accumulated (ds : list Delta) : ToolCallBuffer.t :=
  {| ToolCallBuffer.id := latest d_id ds;
     ToolCallBuffer.name := latest d_name ds;
     ToolCallBuffer.args := fragments ds |}.

(** The state of a provider that received the deltas [ds] for [index] and
    has not emitted the call yet. *)
Definition pendingAt (index : Z) (ds : list Delta) (st : Provider.State) : Prop :=
  (index ∉ Provider._completedToolCallIndices st)
  /\ match NumMap.get index (Provider._toolCallBuffers st) with
     | Some b => b = accumulated ds
     | None => accumulated ds = accumulated []
     end.

(** The call a flush reports for a buffer whose arguments parse; a buffer
    whose arguments do not parse is reported as nothing. *)
Definition flushedCall (entry : Z * ToolCallBuffer.t) : list LanguageModelResponsePart :=
  match tryParseJSONObject (ToolCallBuffer.args (snd entry)) with
  | Some value =>
      [LanguageModelToolCallPart
         (match ToolCallBuffer.id (snd entry) with Some i => GivenId i | None => FreshId "call_" end)
         (match ToolCallBuffer.name (snd entry) with Some n => n | None => "unknown_tool" end)
         value]
  | None => []
  end.

(** The tool calls to be emitted at each of the deltas [ds] that follow
    the deltas [seen], none of which made the buffer ready: the call at the
    first delta that does, nothing before and nothing after. *)
Fixpoint eagerEmission (seen ds : list Delta) : list (list LanguageModelResponsePart) :=
  match ds with
  | [] => []
  | d :: rest =>
      if readyAfter (seen ++ [d])
      then expectedCall (seen ++ [d]) :: List.map (fun _ => []) rest
      else [] :: eagerEmission (seen ++ [d]) rest
  end.

End WithRuntime.
End ReconstructorSpec.

(** JSON text is written below with apostrophes in the place of the double
    quotes. *)
Fixpoint js (s : string) : string :=
  match s with
  | EmptyString => EmptyString
  | String c s' => String (if Ascii.eqb c "'"%char then "034"%char else c) (js s')
  end.

(* ===================================================================== *)
(** ** adapters.ts: classification of error responses *)
(* ===================================================================== *)

Module Classify.
Import JsString.

(** [c.toLowerCase()] for one code unit below 256: the letters A to Z and
    the Latin-1 capitals (the multiplication sign is not one). *)
Definition lowerChar (c : ascii) : ascii :=
  let n := nat_of_ascii c in
  if ((65 <=? n) && (n <=? 90) || (192 <=? n) && (n <=? 222) && negb (n =? 215))%nat
  then ascii_of_nat (n + 32) else c.

(** [s.toLowerCase()] *)
Fixpoint toLowerCase (s : string) : string :=
  match s with
  | EmptyString => EmptyString
  | String c s' => String (lowerChar c) (toLowerCase s')
  end.

(** The phrases [ResponsesAdapter.isUnsupportedError] looks for. *)
Definition unsupportedPhrases : list string :=
  ["not found"; "not supported"; "not implemented"; "unknown endpoint"].

(** [ChatCompletionsAdapter.isUnsupportedError] *)
Definition chatIsUnsupportedError (_status : Z) (_errorText : string) : bool := false.

(** [ResponsesAdapter.isUnsupportedError] *)
Definition responsesIsUnsupportedError (status : Z) (errorText : string) : bool :=
  if ((status =? 404) || (status =? 405) || (status =? 501))%Z then true
  else
    let lowerError := toLowerCase errorText in
    includes lowerError "not found"
    || includes lowerError "not supported"
    || includes lowerError "not implemented"
    || includes lowerError "unknown endpoint".

(** [adapter.isUnsupportedError(status, errorText)] *)
Definition isUnsupportedError (ad : Adapters.LLMAdapter) (status : Z) (errorText : string)
  : bool :=
  match ad with
  | Adapters.ChatCompletions => chatIsUnsupportedError status errorText
  | Adapters.Responses _ => responsesIsUnsupportedError status errorText
  end.

End Classify.

(* ===================================================================== *)
(** ** provider.ts: token estimates *)
(* ===================================================================== *)

Module Tokens.

(** [Math.ceil(n / 4)] for a length [n] *)
Definition ceilQuarter (n : nat) : nat := ((n + 3) / 4)%nat.

(** What one part adds to the estimate: text parts only. *)
Definition partTokens (part : Request.ChatPart) : nat :=
  match part with
  | Request.LanguageModelTextPart value => ceilQuarter (String.length value)
  | _ => 0%nat
  end.

(** [estimateMessagesTokens] *)
Definition estimateMessagesTokens (msgs : list Request.LanguageModelChatRequestMessage) : nat :=
  fold_left
    (fun total m => fold_left (fun t part => (t + partTokens part)%nat) (Request.content m) total)
    msgs 0%nat.

(** [estimateToolTokens], on the converted tool definitions *)
Definition estimateToolTokens `{RT : Runtime} (tools : option (list json)) : nat :=
  match tools with
  | None | Some [] => 0%nat
  | Some l => ceilQuarter (String.length (JSON_stringify (JArr l)))
  end.

(** [provideTokenCount], for a string or for a message *)
Definition provideTokenCount (text : string + Request.LanguageModelChatRequestMessage) : nat :=
  match text with
  | inl s => ceilQuarter (String.length s)
  | inr m => fold_left (fun t part => (t + partTokens part)%nat) (Request.content m) 0%nat
  end.

End Tokens.

(* ===================================================================== *)
(** ** storage.ts *)
(* ===================================================================== *)

(** The memento holds one value, under [MODEL_CONFIG_FILE_PATH_KEY]; [None]
    is [undefined]. The default path, [path.join(os.homedir(),
    DEFAULT_MODEL_CONFIG_FILE_PATH)], comes from [constants.ts] and from the
    machine, and is an argument. *)
Module Storage.
Import JsString.

Definition Memento : Type := option string.

(** [setConfig] *)
Definition setConfig (_ : Memento) (configPath : string) : Memento := Some configPath.

(** [getConfig] *)
Definition getConfig (defaultConfigPath : string) (storage : Memento) : string :=
  match storage with
  | Some configPath => if negb (String.eqb configPath EmptyString) then configPath
                       else defaultConfigPath
  | None => defaultConfigPath
  end.

(** [clearConfig] *)
Definition clearConfig (_ : Memento) : Memento := None.

(** [showAndSetConfig]: [input] is what the input box returned, [None] when
    the user cancelled; the result is the memento and the message shown. *)
Definition showAndSetConfig (storage : Memento) (input : option string)
  : Memento * option string :=
  match input with
  | None => (storage, None)
  | Some configPath =>
      if String.eqb (trim configPath) EmptyString
      then (clearConfig storage, Some "OpenAI Custom config cleared.")
      else (setConfig storage (trim configPath), Some "OpenAI Custom config saved.")
  end.

End Storage.

(* ===================================================================== *)
(** ** provider.ts: the model table and the request/retry policy *)
(* ===================================================================== *)

Module Orchestrator.
Import JsString.

Inductive ApiMode : Type := chat_completions | responses.

(** [OpenAICustomModelConfig]: the fields the request builder reads, and
    the ones read by the provider. *)
Record ModelConfig : Type := {
  core : Request.OpenAICustomModelConfig;
  apiMode : option ApiMode;
  fallbackToChatCompletions : option bool;
  displayName : string;
  tooltip : option string;
  family : string;
  maxInputTokens : Z;
  maxOutputTokens : Z;
  isDefault : option bool;
  supports_tools : option bool;
  supports_image : option bool
}.

(** [OpenAICustomLanguageModelChatInformation] *)
Record ModelInfo : Type := {
  info_id : string;
  info_name : string;
  info_tooltip : option string;
  info_family : string;
  info_detail : string;
  info_version : string;
  info_maxInputTokens : Z;
  info_maxOutputTokens : Z;
  info_isDefault : bool;
  info_modelCategory : option (string * Z);
  info_toolCalling : option bool;
  info_imageInput : option bool
}.

(** [Number.MIN_SAFE_INTEGER] *)
Definition MIN_SAFE_INTEGER : Z := (- (2 ^ 53 - 1))%Z.

(** The entry of the list built for one model of the configuration. *)
Definition modelInfoOf (c : ModelConfig) : ModelInfo :=
  let default := match isDefault c with Some true => true | _ => false end in
  {| info_id := Request.id (core c);
     info_name := displayName c;
     info_tooltip := tooltip c;
     info_family := family c;
     info_detail := "Cuntom";
     info_version := "1.0.0";
     info_maxInputTokens := maxInputTokens c;
     info_maxOutputTokens := maxOutputTokens c;
     info_isDefault := default;
     info_modelCategory := if default then Some (EmptyString, MIN_SAFE_INTEGER) else None;
     info_toolCalling := supports_tools c;
     info_imageInput := supports_image c |}.

(** [prepareLanguageModelChatInformation], from the parsed [models] of the
    configuration on: the new value of [_modelConfig] and the list
    returned. *)
Definition prepareLanguageModelChatInformation (modelConfig : gmap string ModelConfig)
    (models : list ModelConfig) : gmap string ModelConfig * list ModelInfo :=
  let modelConfigTable :=
    fold_left (fun t c => <[Request.id (core c) := c]> t) models ∅ in
  let modelChatInformationList := List.map modelInfoOf models in
  match modelChatInformationList with
  | [] => (modelConfig, [])
  | _ => (modelConfigTable, modelChatInformationList)
  end.

(** [createAdapter] *)
Definition createAdapter (config : ModelConfig) : Adapters.LLMAdapter :=
  match apiMode config with
  | Some responses => Adapters.Responses Adapters.newResponsesAdapter
  | _ => Adapters.ChatCompletions
  end.

(** What [makeRequest] posts: the endpoint, and for the items protocol the
    part of the body that depends on the conversation. *)
Inductive WireRequest : Type :=
| ChatRequest (endpoint : string)
| ResponsesRequest (endpoint : string) (body : Request.ResponsesBody).

Definition endpointOf (r : WireRequest) : string :=
  match r with ChatRequest e => e | ResponsesRequest e _ => e end.

(** What [fetch] answers: [text] is what [response.text()] gives, [body]
    the chunks of the response stream and the way it ends, [None] when the
    response has no body. *)
Record HttpResponse : Type := {
  ok : bool;
  status : Z;
  statusText : string;
  text : string;
  body : option (list string * Provider.StreamEnd)
}.

(** The outcome of [fetch]: the promise is rejected with an error, or an
    answer arrives. *)
Inductive Fetched : Type :=
| Rejected (message : string)
| Answered (r : HttpResponse).

(** The inputs of a turn: the model the host passes, the conversation,
    the number of tools in [options.tools], what [convertTools] does (the
    error it throws, or the tools it returns) and the error
    [validateRequest] throws, if any ([convertTools] and [validateRequest]
    belong to [utils.ts]). *)
Record TurnInput : Type := {
  modelId : string;
  modelMaxInputTokens : Z;
  messages : list Request.LanguageModelChatRequestMessage;
  declaredTools : option nat;
  convertedTools : string + option (list json);
  validationError : option string
}.

(** What a turn leaves behind: the requests posted in order, the warnings
    shown, the entry of [_modelConfig] as the turn left it, the per-turn
    state, the parts reported and the outcome. *)
Record Turn : Type := {
  requests : list WireRequest;
  warnings : list string;
  configAfter : option ModelConfig;
  state : Provider.State;
  parts : list LanguageModelResponsePart;
  outcome : Provider.Outcome
}.

(** The entry after [modelConfigInfo.supportsStatefulResponses = false]. *)
Definition withoutStatefulResponses (c : ModelConfig) : ModelConfig :=
  {| core := {| Request.id := Request.id (core c);
                Request.modelName := Request.modelName (core c);
                Request.baseUrl := Request.baseUrl (core c);
                Request.instructions := Request.instructions (core c);
                Request.supportsSystemRole := Request.supportsSystemRole (core c);
                Request.supportsStatefulResponses := Some false |};
     apiMode := apiMode c;
     fallbackToChatCompletions := fallbackToChatCompletions c;
     displayName := displayName c; tooltip := tooltip c; family := family c;
     maxInputTokens := maxInputTokens c; maxOutputTokens := maxOutputTokens c;
     isDefault := isDefault c; supports_tools := supports_tools c;
     supports_image := supports_image c |}.

(** [{ ...modelConfigInfo, apiMode: "chat_completions" }] *)
Definition asChatCompletions (c : ModelConfig) : ModelConfig :=
  {| core := core c;
     apiMode := Some chat_completions;
     fallbackToChatCompletions := fallbackToChatCompletions c;
     displayName := displayName c; tooltip := tooltip c; family := family c;
     maxInputTokens := maxInputTokens c; maxOutputTokens := maxOutputTokens c;
     isDefault := isDefault c; supports_tools := supports_tools c;
     supports_image := supports_image c |}.

(** The message of the error thrown for a response that is not ok. *)
Definition apiError (r : HttpResponse) : string :=
  "OpenAI Custom API error: " +:+ ofZ (status r) +:+ " " +:+ statusText r
  +:+ (if negb (String.eqb (text r) EmptyString)
       then String "010" EmptyString +:+ text r else EmptyString).

Definition fallbackWarning : string :=
  "Responses API not supported by this service. Falling back to chat_completions.".

Section WithRuntime.
Context `{RT : Runtime}.

(** [adapter.buildRequest(messages, options, config)], as far as
    [WireRequest] goes. *)
Definition buildRequest (ad : Adapters.LLMAdapter)
    (msgs : list Request.LanguageModelChatRequestMessage) (config : ModelConfig)
  : WireRequest :=
  match ad with
  | Adapters.ChatCompletions =>
      ChatRequest (Endpoint.chatEndpoint (Request.baseUrl (core config)))
  | Adapters.Responses _ =>
      let '(endpoint, b) := Request.buildRequest msgs (core config) in
      ResponsesRequest endpoint b
  end.

(** The streaming of the body of a response that is ok, or the error
    thrown when it has none. *)
Definition streamBody (input : TurnInput) (st0 : Provider.State) (ad : Adapters.LLMAdapter)
    (r : HttpResponse) (noBody : string) (reqs : list WireRequest) (warns : list string)
    (config : ModelConfig) : Turn :=
  match body r with
  | None =>
      {| requests := reqs; warnings := warns; configAfter := Some config;
         state := st0; parts := []; outcome := Provider.Thrown noBody |}
  | Some (chunks, ending) =>
      let '(st1, out, o) :=
        Provider.processStreamingResponse (modelId input) ad st0 chunks ending in
      {| requests := reqs; warnings := warns; configAfter := Some config;
         state := st1; parts := out; outcome := o |}
  end.

(** What follows the second request, the same for both kinds of retry. *)
Definition afterRetry (input : TurnInput) (st0 : Provider.State) (ad : Adapters.LLMAdapter)
    (second : Fetched) (noBody : string) (reqs : list WireRequest) (warns : list string)
    (config : ModelConfig) : Turn :=
  let failed message :=
    {| requests := reqs; warnings := warns; configAfter := Some config;
       state := st0; parts := []; outcome := Provider.Thrown message |} in
  match second with
  | Rejected message => failed message
  | Answered r =>
      if negb (ok r) then failed (apiError r)
      else streamBody input st0 ad r noBody reqs warns config
  end.

(** [provideLanguageModelChatResponse], with the policy of retries:
    [lookup] is [this._modelConfig.get(model.id)], [first] the outcome of
    the first request and [second] the outcome of the second one, read only
    when a second request is made. *)
Definition provideLanguageModelChatResponse (st : Provider.State) (input : TurnInput)
    (lookup : option ModelConfig) (first second : Fetched) : Turn :=
  let st0 := Provider.resetAtTurnStart st in
  let failed message reqs warns config :=
    {| requests := reqs; warnings := warns; configAfter := config;
       state := st0; parts := []; outcome := Provider.Thrown message |} in
  match lookup with
  | None => failed "OpenAI Custom model config not found" [] [] None
  | Some config =>
    match validationError input with
    | Some message => failed message [] [] (Some config)
    | None =>
      if match declaredTools input with Some n => (128 <? n)%nat | None => false end
      then failed "Cannot have more than 128 tools per request." [] [] (Some config)
      else
        let inputTokenCount := Tokens.estimateMessagesTokens (messages input) in
        match convertedTools input with
        | inl message => failed message [] [] (Some config)
        | inr tools =>
        let toolTokenCount := Tokens.estimateToolTokens tools in
        let tokenLimit := Z.max 1 (modelMaxInputTokens input) in
        if (tokenLimit <? Z.of_nat (inputTokenCount + toolTokenCount))%Z
        then failed "Message exceeds token limit." [] [] (Some config)
        else
          let adapter := createAdapter config in
          let request := buildRequest adapter (messages input) config in
          match first with
          | Rejected message => failed message [request] [] (Some config)
          | Answered response =>
            if ok response then
              streamBody input st0 adapter response "No response body from OpenAI Custom API"
                         [request] [] config
            else
              let errorText := text response in
              let lowerErrorText := Classify.toLowerCase errorText in
              let isResponses :=
                match apiMode config with Some responses => true | _ => false end in
              if isResponses
                 && match Request.supportsStatefulResponses (core config) with
                    | Some b => b
                    | None => true
                    end
                 && (status response =? 400)%Z
                 && includes lowerErrorText "unsupported parameter"
                 && includes lowerErrorText "previous_response_id"
              then
                let config' := withoutStatefulResponses config in
                let statelessAdapter := createAdapter config' in
                let statelessRequest :=
                  buildRequest statelessAdapter (messages input) config' in
                afterRetry input st0 statelessAdapter second
                  "No response body from OpenAI Custom API (stateless retry)"
                  [request; statelessRequest] [] config'
              else if isResponses
                      && match fallbackToChatCompletions config with
                         | Some b => b
                         | None => false
                         end
                      && Classify.isUnsupportedError adapter (status response) errorText
              then
                let fallbackConfig := asChatCompletions config in
                let fallbackAdapter := createAdapter fallbackConfig in
                let fallbackRequest :=
                  buildRequest fallbackAdapter (messages input) fallbackConfig in
                afterRetry input st0 fallbackAdapter second
                  "No response body from OpenAI Custom API"
                  [request; fallbackRequest] [fallbackWarning] config
              else failed (apiError response) [request] [] (Some config)
          end
        end
    end
  end.

End WithRuntime.
End Orchestrator.


(* ===================================================================== *)
(** ** provider.ts: the response body as text *)
(* ===================================================================== *)

Module Framing.

(** The separator of [buffer.split] in [processStreamingResponse]. *)
Definition lineFeed : string := String "010"%char EmptyString.

(** The text of a body read in chunks: [buffer += decoder.decode(value)]
    over all of them. *)
Fixpoint joinChunks (chunks : list string) : string :=
  match chunks with
  | [] => EmptyString
  | c :: rest => c +:+ joinChunks rest
  end.

End Framing.

(* ===================================================================== *)
(** ** provider.ts: the table of tool-call buffers *)
(* ===================================================================== *)

Module Buffers.

(** The keys of [_toolCallBuffers], in insertion order. *)
Definition indices (st : Provider.State) : list Z :=
  List.map fst (Provider._toolCallBuffers st).

(** What the two tables of the reconstructor are to each other: a [Map]
    holds one buffer for an index, and an index in
    [_completedToolCallIndices] has no buffer. *)
Definition consistent (st : Provider.State) : Prop :=
  NoDup (indices st)
  /\ forall i : Z, i ∈ indices st -> i ∉ Provider._completedToolCallIndices st.

Section WithRuntime.
Context `{RT : Runtime}.

(** The arguments gathered in a buffer parse as a JSON object. *)
Definition parses (entry : Z * ToolCallBuffer.t) : bool :=
  match tryParseJSONObject (ToolCallBuffer.args (snd entry)) with
  | Some _ => true
  | None => false
  end.

(** The buffers before the first one whose arguments do not parse. *)
Fixpoint parsedPrefix (entries : list (Z * ToolCallBuffer.t)) : list (Z * ToolCallBuffer.t) :=
  match entries with
  | [] => []
  | e :: rest => if parses e then e :: parsedPrefix rest else []
  end.

(** The buffers from the first one whose arguments do not parse. *)
Fixpoint fromFirstFailure (entries : list (Z * ToolCallBuffer.t))
  : list (Z * ToolCallBuffer.t) :=
  match entries with
  | [] => []
  | e :: rest => if parses e then fromFirstFailure rest else entries
  end.

End WithRuntime.
End Buffers.

(* ===================================================================== *)
(** ** adapters.ts: the index table of a [ResponsesAdapter] *)
(* ===================================================================== *)

Module IndexTable.
Import Adapters.

(** What [getToolCallIndex] keeps of its two fields: the indices handed
    out are the numbers below [_nextToolCallIndex], and no index was
    handed out twice. *)
Definition wellFormed (a : ResponsesAdapter) : Prop :=
  (0 <= _nextToolCallIndex a)%Z
  /\ (forall (cid : string) (i : Z),
     _toolCallIndexById a !! cid = Some i -> (0 <= i < _nextToolCallIndex a)%Z)
  /\ (forall (c1 c2 : string) (i : Z),
        _toolCallIndexById a !! c1 = Some i -> _toolCallIndexById a !! c2 = Some i -> c1 = c2).

(** The adapter after the lines of a stream were parsed one after the
    other. *)
Definition afterLines `{RT : Runtime} (a : ResponsesAdapter) (lines : list string)
  : ResponsesAdapter :=
  fold_left (fun a line => fst (responsesParseStreamEvent a line)) lines a.

End IndexTable.

(* ===================================================================== *)
(** ** adapters.ts: the items of a request, by kind *)
(* ===================================================================== *)

Module Items.
Import Request.

Definition isFunctionCall (it : ResponsesItem) : bool :=
  match it with function_call _ _ _ => true | _ => false end.

Definition isFunctionCallOutput (it : ResponsesItem) : bool :=
  match it with function_call_output _ _ => true | _ => false end.

Section WithRuntime.
Context `{RT : Runtime}.

(** The [function_call] item pushed for a part, if the part is a tool
    call. *)
Definition callOfPart (part : ChatPart) : list ResponsesItem :=
  match part with
  | LanguageModelToolCallPart callId name inp =>
      [function_call
         (if negb (String.eqb callId EmptyString) then GivenId callId else FreshId "call_")
         name
         (match inp with
          | None | Some JNull => JSON_stringify (JObj [])
          | Some v => JSON_stringify v
          end)]
  | _ => []
  end.

(** The [function_call_output] item pushed for a part, if the part is a
    tool result. *)
Definition outputOfPart (part : ChatPart) : list ResponsesItem :=
  match part with
  | ToolResultPart callId cs =>
      [function_call_output callId (fst (collectToolResultTextAndImages cs))]
  | _ => []
  end.

End WithRuntime.

(** The content of a message item has the types its role allows:
    [output_text] without an image for the assistant, anything but
    [output_text] for the others. *)
Definition contentFitsRole (it : ResponsesItem) : Prop :=
  match it with
  | message assistant c =>
      forall ci, In ci c -> ci_type ci = output_text /\ ci_image_url ci = None
  | message _ c => forall ci, In ci c -> ci_type ci <> output_text
  | _ => True
  end.

Definition isSystemMessage (it : ResponsesItem) : bool :=
  match it with message system _ => true | _ => false end.

End Items.

(* ===================================================================== *)
(** * Properties *)
(* ===================================================================== *)

(** ** Strings *)

Module JsStringFacts.
Import JsString.

Lemma append_cons (c : ascii) (a b : string) : String c a +:+ b = String c (a +:+ b).
Proof. reflexivity. Qed.

Lemma append_nil (b : string) : EmptyString +:+ b = b.
Proof. reflexivity. Qed.

Lemma length_append (a b : string) :
  String.length (a +:+ b) = (String.length a + String.length b)%nat.
Proof.
  induction a as [|c a IH]; [reflexivity |].
  rewrite append_cons; simpl; now rewrite IH.
Qed.

Lemma append_assoc (a b c : string) : (a +:+ b) +:+ c = a +:+ (b +:+ c).
Proof.
  induction a as [|x a IH]; [reflexivity |].
  rewrite !append_cons; now rewrite IH.
Qed.

Lemma append_empty_r (a : string) : a +:+ EmptyString = a.
Proof.
  induction a as [|x a IH]; [reflexivity |].
  rewrite append_cons; now rewrite IH.
Qed.

Lemma drop_append (a b : string) : drop (String.length a) (a +:+ b) = b.
Proof.
  induction a as [|c a IH]; [now destruct b |].
  rewrite append_cons; simpl; exact IH.
Qed.

Lemma length_drop (n : nat) (s : string) :
  String.length (drop n s) = (String.length s - n)%nat.
Proof.
  revert s; induction n as [|n IH]; intros [|c s]; simpl; try reflexivity.
  apply IH.
Qed.

Lemma drop_drop (n m : nat) (s : string) : drop n (drop m s) = drop (m + n) s.
Proof.
  revert s; induction m as [|m IH]; intros s; simpl; [reflexivity |].
  destruct s as [|c s]; [now destruct n | apply IH].
Qed.

(** [endsWith] holds of every text put in front of the suffix. *)
Lemma endsWith_append (a p : string) : endsWith (a +:+ p) p = true.
Proof.
  unfold endsWith. rewrite length_append.
  replace (String.length a + String.length p - String.length p)%nat
    with (String.length a) by lia.
  rewrite drop_append, String.eqb_refl, Bool.andb_true_r.
  apply Nat.leb_le; lia.
Qed.

Lemma endsWith_append_longer (a b p : string) : endsWith (a +:+ (b +:+ p)) p = true.
Proof. rewrite <- append_assoc. apply endsWith_append. Qed.

End JsStringFacts.

(** ** Endpoint normalisation *)

(** C8. Whatever the configured base URL is (already ending in [/v1],
    already ending in the resource path, or neither), the endpoint of the
    chat-protocol builder ends with [/chat/completions] and the endpoint of
    the items-protocol builder ends with [/responses]. *)
Theorem endpoint_ends_with_resource_path (baseUrl : string) :
  JsString.endsWith (Endpoint.chatEndpoint baseUrl) "/chat/completions" = true
  /\ JsString.endsWith (Endpoint.responsesEndpoint baseUrl) "/responses" = true.
Proof.
  split.
  - unfold Endpoint.chatEndpoint.
    destruct (JsString.endsWith baseUrl "/chat/completions") eqn:Hends; simpl; [exact Hends |].
    destruct (JsString.endsWith (JsString.replaceTrailingSlash baseUrl) "/v1");
      [apply JsStringFacts.endsWith_append |].
    destruct (JsString.includes (JsString.replaceTrailingSlash baseUrl) "/v1"); simpl.
    + apply JsStringFacts.endsWith_append.
    + apply (JsStringFacts.endsWith_append_longer _ "/v1" "/chat/completions").
  - unfold Endpoint.responsesEndpoint.
    destruct (JsString.endsWith baseUrl "/responses") eqn:Hends; simpl; [exact Hends |].
    destruct (JsString.endsWith (JsString.replaceTrailingSlash baseUrl) "/v1");
      [apply JsStringFacts.endsWith_append |].
    destruct (JsString.includes (JsString.replaceTrailingSlash baseUrl) "/v1"); simpl.
    + apply JsStringFacts.endsWith_append.
    + apply (JsStringFacts.endsWith_append_longer _ "/v1" "/responses").
Qed.

(** The three shapes of base URL named by the specification. *)
Example endpoint_examples :
  Endpoint.chatEndpoint "https://api.example.com/v1" = "https://api.example.com/v1/chat/completions"
  /\ Endpoint.chatEndpoint "https://api.example.com/v1/chat/completions"
     = "https://api.example.com/v1/chat/completions"
  /\ Endpoint.chatEndpoint "https://api.example.com/" = "https://api.example.com/v1/chat/completions"
  /\ Endpoint.responsesEndpoint "https://api.example.com/v1/" = "https://api.example.com/v1/responses"
  /\ Endpoint.responsesEndpoint "https://api.example.com" = "https://api.example.com/v1/responses".
Proof. repeat split; reflexivity. Qed.

(** ** The stream parsers *)

Module ParserFacts.
Import JsString Js Adapters.

Lemma startsWith_cons (b a : ascii) (s p : string) :
  startsWith (String b s) (String a p) = Ascii.eqb a b && startsWith s p.
Proof. reflexivity. Qed.

Lemma data_line_is_no_event_line (line : string) :
  startsWith line "data:" = true -> startsWith line "event:" = false.
Proof.
  destruct line as [|c line]; [intros H; discriminate H |].
  rewrite !startsWith_cons.
  destruct (Ascii.eqb_spec "d"%char c) as [E | E]; [subst c; reflexivity |].
  intros H; discriminate H.
Qed.

Section WithRuntime.
Context `{RT : Runtime}.

(** An exception raised while the chat parser inspects the parsed payload
    is caught and turned into [skip]. *)
Lemma chat_parser_catches (line : string) (parsed : json) :
  startsWith line "data:" = true ->
  trim (drop 5 line) <> "[DONE]" ->
  JSON_parse (trim (drop 5 line)) = Some parsed ->
  chatParsed parsed = None ->
  chatParseStreamEvent line = skip.
Proof.
  intros Hdata Hdone Hparse Hraise. unfold chatParseStreamEvent.
  rewrite Hdata; cbn [negb].
  destruct (String.eqb_spec (trim (drop 5 line)) "[DONE]") as [E | _]; [contradiction |].
  now rewrite Hparse, Hraise.
Qed.

(** The same for the items parser, which also leaves its state as it was. *)
Lemma responses_parser_catches (a : ResponsesAdapter) (line : string) (parsed : json) :
  startsWith line "data:" = true ->
  trim (drop 5 line) <> "[DONE]" ->
  JSON_parse (trim (drop 5 line)) = Some parsed ->
  responsesParsed a parsed = None ->
  responsesParseStreamEvent a line = (a, skip).
Proof.
  intros Hdata Hdone Hparse Hraise. unfold responsesParseStreamEvent.
  rewrite (data_line_is_no_event_line _ Hdata), Hdata; cbn [negb].
  destruct (String.eqb_spec (trim (drop 5 line)) "[DONE]") as [E | _]; [contradiction |].
  now rewrite Hparse, Hraise.
Qed.

End WithRuntime.
End ParserFacts.

(** C6. Each parser is a total function from a line to one event. A line
    that does not start with [data:] gives [skip] (for the items parser an
    [event:] line is recorded as the event type and gives [skip]); a data
    line whose trimmed payload is [[DONE]] gives [done]; any other data line
    whose payload [JSON.parse] rejects gives [skip]. *)
Theorem stream_parsers_skip_done_and_never_raise `{RT : Runtime}
    (a : Adapters.ResponsesAdapter) (line : string) :
  let payload := JsString.trim (JsString.drop 5 line) in
  (exists ev, Adapters.chatParseStreamEvent line = ev)
  /\ (exists a' ev, Adapters.responsesParseStreamEvent a line = (a', ev))
  /\ (JsString.startsWith line "data:" = false ->
      Adapters.chatParseStreamEvent line = skip)
  /\ (JsString.startsWith line "event:" = true ->
      Adapters.responsesParseStreamEvent a line
      = (Adapters.setLastSseEventType a
           (if String.eqb (JsString.trim (JsString.drop 6 line)) EmptyString
            then "message" else JsString.trim (JsString.drop 6 line)), skip))
  /\ (JsString.startsWith line "event:" = false ->
      JsString.startsWith line "data:" = false ->
      Adapters.responsesParseStreamEvent a line = (a, skip))
  /\ (JsString.startsWith line "data:" = true -> payload = "[DONE]" ->
      Adapters.chatParseStreamEvent line = done
      /\ Adapters.responsesParseStreamEvent a line = (a, done))
  /\ (JsString.startsWith line "data:" = true -> payload <> "[DONE]" ->
      JSON_parse payload = None ->
      Adapters.chatParseStreamEvent line = skip
      /\ Adapters.responsesParseStreamEvent a line = (a, skip)).
Proof.
  intros payload. unfold payload.
  split; [eexists; reflexivity |].
  split; [destruct (Adapters.responsesParseStreamEvent a line) as [a' ev]; eauto |].
  unfold Adapters.chatParseStreamEvent, Adapters.responsesParseStreamEvent.
  split; [intros ->; reflexivity |].
  split; [intros ->; reflexivity |].
  split; [intros -> ->; reflexivity |].
  split.
  - intros Hdata Hdone.
    rewrite (ParserFacts.data_line_is_no_event_line _ Hdata), Hdata, Hdone.
    split; reflexivity.
  - intros Hdata Hdone Hparse.
    rewrite (ParserFacts.data_line_is_no_event_line _ Hdata), Hdata; cbn [negb].
    destruct (String.eqb_spec (JsString.trim (JsString.drop 5 line)) "[DONE]");
      [contradiction |].
    rewrite Hparse. split; reflexivity.
Qed.

(** The four kinds of line of C6, run on the reference run time: a comment
    line, an [event:] line, the sentinel and a truncated payload. *)
Lemma stream_parsers_witness :
  @Adapters.chatParseStreamEvent Reference.runtime ": keep-alive" = skip
  /\ snd (@Adapters.responsesParseStreamEvent Reference.runtime
            Adapters.newResponsesAdapter "event: response.output_text.delta") = skip
  /\ @Adapters.chatParseStreamEvent Reference.runtime "data: [DONE]" = done
  /\ @Adapters.responsesParseStreamEvent Reference.runtime
       Adapters.newResponsesAdapter "data: [DONE]" = (Adapters.newResponsesAdapter, done)
  /\ @Adapters.chatParseStreamEvent Reference.runtime (js "data: {'choices':[{'delta'") = skip
  /\ @Adapters.responsesParseStreamEvent Reference.runtime
       Adapters.newResponsesAdapter (js "data: {'type':'response.output_text.delta','delta':")
     = (Adapters.newResponsesAdapter, skip).
Proof.
  pose (T := @stream_parsers_skip_done_and_never_raise Reference.runtime
               Adapters.newResponsesAdapter).
  split.
  { apply (proj1 (proj2 (proj2 (T ": keep-alive")))). reflexivity. }
  split.
  { rewrite (proj1 (proj2 (proj2 (proj2 (T "event: response.output_text.delta")))) eq_refl).
    reflexivity. }
  split.
  { apply (proj1 (proj2 (proj2 (proj2 (proj2 (proj2 (T "data: [DONE]"))))))); reflexivity. }
  split.
  { apply (proj1 (proj2 (proj2 (proj2 (proj2 (proj2 (T "data: [DONE]"))))))); reflexivity. }
  split.
  { apply (proj2 (proj2 (proj2 (proj2 (proj2 (proj2 (T (js "data: {'choices':[{'delta'")))))))).
    - reflexivity.
    - vm_compute. discriminate.
    - vm_compute. reflexivity. }
  { apply (proj2 (proj2 (proj2 (proj2 (proj2 (proj2
             (T (js "data: {'type':'response.output_text.delta','delta':")))))))).
    - reflexivity.
    - vm_compute. discriminate.
    - vm_compute. reflexivity. }
Defined.

(** The chat parser reads the first element of [tool_calls] only: the
    elements after it do not change the event. *)
Lemma chat_parser_reads_first_tool_call_only `{RT : Runtime} (tc : json) (later : list json) :
  let payload calls :=
    JObj [("choices", JArr [JObj [("delta", JObj [("tool_calls", JArr calls)])]])] in
  Adapters.chatParsed (payload (tc :: later)) = Adapters.chatParsed (payload [tc]).
Proof. reflexivity. Qed.

(** C7, on a line whose [tool_calls] array holds two calls, with the
    indices 0 and 1: the single event returned is the delta of the first
    call, and nothing is returned for the call with index 1. *)
Theorem chat_parser_returns_first_tool_call_only :
  @Adapters.chatParseStreamEvent Reference.runtime
    (js ("data: {'choices':[{'delta':{'tool_calls':["
         +:+ "{'index':0,'id':'call_a','function':{'name':'read','arguments':'{}'}},"
         +:+ "{'index':1,'id':'call_b','function':{'name':'list','arguments':'{}'}}]}}]}"))
  = tool_call 0 (Some "call_a") (Some "read") (Some "{}").
Proof. vm_compute. reflexivity. Qed.

(** The index sent by the server is passed on as it is. *)
Example chat_parser_keeps_index :
  @Adapters.chatParseStreamEvent Reference.runtime
    (js "data: {'choices':[{'delta':{'tool_calls':[{'index':7,'function':{'arguments':'x'}}]}}]}")
  = tool_call 7 None None (Some "x").
Proof. vm_compute. reflexivity. Qed.

(** ** Stateful continuation in the items-protocol builder *)

Module RequestFacts.
Import JsString Request.

Section WithRuntime.
Context `{RT : Runtime}.

(** A decoded marker never carries an empty response id. *)
Lemma decodeMarker_response_id (part : ChatPart) (mid rid : string) :
  decodeMarker part = Some (mid, rid) -> rid <> EmptyString.
Proof.
  unfold decodeMarker. destruct part as [| mime bytes | | |]; try discriminate.
  destruct (String.eqb mime "stateful_marker"); [| discriminate].
  destruct (indexOf (TextDecoder_decode bytes) backslash) as [[|sep]|]; try discriminate.
  destruct (String.eqb (take (S sep) (TextDecoder_decode bytes)) EmptyString); [discriminate |].
  destruct (String.eqb_spec (drop (S sep + 1) (TextDecoder_decode bytes)) EmptyString) as [E | E];
    simpl; [discriminate |].
  intros [= _ <-]. exact E.
Qed.

Lemma scanParts_app (modelId : string) (i : nat) (a b : list ChatPart)
    (last : option (string * nat)) :
  scanParts modelId i (a ++ b) last = scanParts modelId i b (scanParts modelId i a last).
Proof. revert last; induction a as [|p a IH]; intros last; simpl; [reflexivity | apply IH]. Qed.

(** Parts that are no marker of the model leave the scan as it is. *)
Lemma scanParts_no_marker (modelId : string) (i : nat) (parts : list ChatPart)
    (last : option (string * nat)) :
  (forall q, In q parts -> forall rid, decodeMarker q <> Some (modelId, rid)) ->
  scanParts modelId i parts last = last.
Proof.
  revert last; induction parts as [|p parts IH]; intros last Hno; simpl; [reflexivity |].
  rewrite IH by (intros q Hq; apply Hno; now right).
  destruct (decodeMarker p) as [[mid marker]|] eqn:E; [| reflexivity].
  destruct (String.eqb_spec mid modelId) as [-> | _]; [| reflexivity].
  exfalso. apply (Hno p (or_introl eq_refl) marker). exact E.
Qed.

Lemma scanMessages_no_marker (modelId : string) (i : nat)
    (messages : list LanguageModelChatRequestMessage) (last : option (string * nat)) :
  (forall m q, In m messages -> In q (content m) ->
               forall rid, decodeMarker q <> Some (modelId, rid)) ->
  scanMessages modelId i messages last = last.
Proof.
  revert i last; induction messages as [|m messages IH]; intros i last Hno; simpl;
    [reflexivity |].
  rewrite scanParts_no_marker by (intros q Hq; apply (Hno m q); [now left | exact Hq]).
  apply IH. intros m' q Hm'. apply Hno. now right.
Qed.

Lemma scanMessages_app (modelId : string) (i : nat)
    (a b : list LanguageModelChatRequestMessage) (last : option (string * nat)) :
  scanMessages modelId i (a ++ b) last
  = scanMessages modelId (i + List.length a) b (scanMessages modelId i a last).
Proof.
  revert i last; induction a as [|m a IH]; intros i last; simpl.
  - now rewrite Nat.add_0_r.
  - rewrite IH. now replace (S i + List.length a)%nat with (i + S (List.length a))%nat by lia.
Qed.

(** The scan returns the last marker of the model and the position after
    the message that holds it. *)
Lemma extractPreviousResponseId_last_marker (modelId : string)
    (pre post : list LanguageModelChatRequestMessage) (msg : LanguageModelChatRequestMessage)
    (before after : list ChatPart) (part : ChatPart) (rid : string) :
  content msg = before ++ part :: after ->
  decodeMarker part = Some (modelId, rid) ->
  (forall q, In q after -> forall rid', decodeMarker q <> Some (modelId, rid')) ->
  (forall m q, In m post -> In q (content m) ->
               forall rid', decodeMarker q <> Some (modelId, rid')) ->
  extractPreviousResponseId (pre ++ msg :: post) modelId = Some (rid, S (List.length pre)).
Proof.
  intros Hcontent Hpart Hafter Hpost. unfold extractPreviousResponseId.
  rewrite scanMessages_app. simpl.
  rewrite scanMessages_no_marker by exact Hpost.
  rewrite Hcontent, scanParts_app. simpl.
  rewrite scanParts_no_marker by exact Hafter.
  now rewrite Hpart, String.eqb_refl.
Qed.

Lemma skipn_past (A : Type) (pre post : list A) (x : A) :
  List.skipn (S (List.length pre)) (pre ++ x :: post) = post.
Proof. induction pre as [|y pre IH]; simpl; [reflexivity | exact IH]. Qed.

End WithRuntime.
End RequestFacts.

(** C5. With stateful continuation enabled, the builder takes the last
    marker part whose embedded model id is the id of the current model,
    sends the response id embedded in it as [previous_response_id] and
    converts only the messages after the message that holds it; parts that
    embed another model id count as no marker, and without a marker of the
    model the whole conversation is sent and no [previous_response_id]. *)
Theorem stateful_continuation_truncates_history `{RT : Runtime}
    (config : Request.OpenAICustomModelConfig)
    (messages : list Request.LanguageModelChatRequestMessage) :
  Request.supportsStatefulResponses config <> Some false ->
  (forall pre msg post before part after rid,
      messages = pre ++ msg :: post ->
      Request.content msg = before ++ part :: after ->
      Request.decodeMarker part = Some (Request.id config, rid) ->
      (forall q, In q after ->
                 forall rid', Request.decodeMarker q <> Some (Request.id config, rid')) ->
      (forall m q, In m post -> In q (Request.content m) ->
                   forall rid', Request.decodeMarker q <> Some (Request.id config, rid')) ->
      Request.previous_response_id (snd (Request.buildRequest messages config)) = Some rid
      /\ Request.input (snd (Request.buildRequest messages config))
         = Request.convertMessagesToItems post config)
  /\ ((forall m q, In m messages -> In q (Request.content m) ->
                   forall rid', Request.decodeMarker q <> Some (Request.id config, rid')) ->
      Request.previous_response_id (snd (Request.buildRequest messages config)) = None
      /\ Request.input (snd (Request.buildRequest messages config))
         = Request.convertMessagesToItems messages config).
Proof.
  intros Hstateful.
  assert (Hflag : match Request.supportsStatefulResponses config with
                  | Some false => false
                  | _ => true
                  end = true).
  { destruct (Request.supportsStatefulResponses config) as [[|]|]; congruence. }
  split.
  - intros pre msg post before part after rid -> Hcontent Hpart Hafter Hpost.
    unfold Request.buildRequest. rewrite Hflag.
    rewrite (RequestFacts.extractPreviousResponseId_last_marker
               _ pre post msg before after part rid Hcontent Hpart Hafter Hpost).
    simpl. rewrite RequestFacts.skipn_past. split; [| reflexivity].
    destruct (String.eqb_spec rid EmptyString) as [E | _]; [| reflexivity].
    exfalso. exact (RequestFacts.decodeMarker_response_id _ _ _ Hpart E).
  - intros Hnone. unfold Request.buildRequest. rewrite Hflag.
    unfold Request.extractPreviousResponseId.
    rewrite RequestFacts.scanMessages_no_marker by exact Hnone.
    split; reflexivity.
Qed.

(** The conversation of the history-truncation scenario: three messages,
    the second one holding a marker written for the model [gpt-x]. *)
Lemma stateful_continuation_witness :
  let config := {| Request.id := "gpt-x"; Request.modelName := "gpt-x";
                   Request.baseUrl := "https://api.example.com/v1";
                   Request.instructions := None; Request.supportsSystemRole := None;
                   Request.supportsStatefulResponses := None |} in
  let m1 := {| Request.role := Request.User;
               Request.content := [Request.LanguageModelTextPart "first question"] |} in
  let marker := Request.LanguageModelDataPart "stateful_marker" "gpt-x\resp_42" in
  let m2 := {| Request.role := Request.Assistant;
               Request.content := [Request.LanguageModelTextPart "first answer"; marker] |} in
  let m3 := {| Request.role := Request.User;
               Request.content := [Request.LanguageModelTextPart "second question"] |} in
  Request.previous_response_id
    (snd (@Request.buildRequest Reference.runtime [m1; m2; m3] config)) = Some "resp_42"
  /\ Request.input (snd (@Request.buildRequest Reference.runtime [m1; m2; m3] config))
     = @Request.convertMessagesToItems Reference.runtime [m3] config.
Proof.
  intros config m1 marker m2 m3.
  assert (Hstateful : Request.supportsStatefulResponses config <> Some false)
    by (simpl; discriminate).
  apply (proj1 (@stateful_continuation_truncates_history Reference.runtime
                  config [m1; m2; m3] Hstateful)
           [m1] m2 [m3] [Request.LanguageModelTextPart "first answer"] marker [] "resp_42").
  - reflexivity.
  - reflexivity.
  - vm_compute. reflexivity.
  - intros q [].
  - intros m q [<- | []] [<- | []] rid'. vm_compute. discriminate.
Defined.

(** The same conversation sent to the items endpoint: one message item,
    the third message, and the response id of the marker. *)
Example history_truncation_scenario :
  let config := {| Request.id := "gpt-x"; Request.modelName := "gpt-x";
                   Request.baseUrl := "https://api.example.com/v1";
                   Request.instructions := None; Request.supportsSystemRole := None;
                   Request.supportsStatefulResponses := None |} in
  let text r t := {| Request.role := r; Request.content := [Request.LanguageModelTextPart t] |} in
  let m2 marker := {| Request.role := Request.Assistant;
                      Request.content := [Request.LanguageModelTextPart "first answer";
                                          Request.LanguageModelDataPart "stateful_marker" marker] |} in
  let conversation marker :=
    [text Request.User "first question"; m2 marker; text Request.User "second question"] in
  let sent marker := snd (@Request.buildRequest Reference.runtime (conversation marker) config) in
  Request.input (sent "gpt-x\resp_42")
  = [Request.message Request.user [Request.textItem Request.input_text "second question"]]
  /\ Request.previous_response_id (sent "gpt-x\resp_42") = Some "resp_42"
  /\ List.length (Request.input (sent "other-model\resp_42")) = 3%nat
  /\ Request.previous_response_id (sent "other-model\resp_42") = None.
Proof. vm_compute. repeat split; reflexivity. Qed.

(** ** The Tool-Call Reconstructor *)

Module NumMapFacts.
Section Ops.
Context {V : Type}.

Lemma get_set_same (k : Z) (v : V) (m : list (Z * V)) :
  NumMap.get k (NumMap.set k v m) = Some v.
Proof.
  induction m as [|[k' v'] m IH]; simpl.
  - now rewrite Z.eqb_refl.
  - destruct (k =? k')%Z eqn:E; simpl; [now rewrite Z.eqb_refl | now rewrite E].
Qed.

End Ops.
End NumMapFacts.

Module ReconstructorFacts.
Import Provider Run ReconstructorSpec.

Lemma latest_snoc (field : Delta -> option string) (ds : list Delta) (d : Delta) :
  latest field (ds ++ [d]) = if present (field d) then field d else latest field ds.
Proof. unfold latest. now rewrite fold_left_app. Qed.

Lemma fragments_snoc (ds : list Delta) (d : Delta) :
  fragments (ds ++ [d])
  = match d_args d with Some a => fragments ds +:+ a | None => fragments ds end.
Proof. unfold fragments. now rewrite fold_left_app. Qed.

Lemma toolCallsOf_app (a b : list LanguageModelResponsePart) :
  toolCallsOf (a ++ b) = toolCallsOf a ++ toolCallsOf b.
Proof. apply List.filter_app. Qed.

Section WithRuntime.
Context `{RT : Runtime}.

(** A delta for an index whose call was emitted is ignored. *)
Lemma completed_index_ignores_delta (modelId : string) (st : State) (i : Z) (d : Delta) :
  i ∈ _completedToolCallIndices st ->
  exists st' out,
    processEvent modelId st (deltaEvent i d) = (st', out, Normal)
    /\ toolCallsOf out = []
    /\ _toolCallBuffers st' = _toolCallBuffers st
    /\ _completedToolCallIndices st' = _completedToolCallIndices st.
Proof.
  intros Hdone. unfold processEvent, deltaEvent.
  destruct (negb (_emittedBeginToolCallsHint st) && _hasEmittedAssistantText st); simpl;
    rewrite (bool_decide_eq_true_2 _ Hdone); do 2 eexists; repeat split; reflexivity.
Qed.

Lemma delta_step (modelId : string) (st : State) (i : Z) (seen : list Delta) (d : Delta) :
  pendingAt i seen st ->
  exists st' out,
    processEvent modelId st (deltaEvent i d) = (st', out, Normal)
    /\ toolCallsOf out
       = (if readyAfter (seen ++ [d]) then expectedCall (seen ++ [d]) else [])
    /\ (if readyAfter (seen ++ [d]) then i ∈ _completedToolCallIndices st'
        else pendingAt i (seen ++ [d]) st').
Proof.
  intros [Hfresh Hbuf]. unfold processEvent, deltaEvent.
  set (hint := negb (_emittedBeginToolCallsHint st) && _hasEmittedAssistantText st).
  set (st0 := if hint then setEmittedBeginToolCallsHint st true else st).
  set (out0 := if hint then [LanguageModelTextPart " "] else []).
  assert (Hc0 : _completedToolCallIndices st0 = _completedToolCallIndices st)
    by (unfold st0; destruct hint; reflexivity).
  assert (Hb0 : _toolCallBuffers st0 = _toolCallBuffers st)
    by (unfold st0; destruct hint; reflexivity).
  assert (Ho0 : toolCallsOf out0 = []) by (unfold out0; destruct hint; reflexivity).
  rewrite bool_decide_eq_false_2 by (rewrite Hc0; exact Hfresh).
  rewrite Hb0.
  set (buf := match NumMap.get i (_toolCallBuffers st) with Some b => b | None => _ end).
  assert (Hacc : buf = accumulated seen).
  { unfold buf. destruct (NumMap.get i (_toolCallBuffers st)); [exact Hbuf | now rewrite Hbuf]. }
  match goal with |- context [NumMap.set i ?b _] => set (buf' := b) end.
  assert (Hacc' : buf' = accumulated (seen ++ [d])).
  { unfold buf', accumulated. rewrite !latest_snoc, fragments_snoc, Hacc. simpl.
    unfold present. destruct (d_args d); reflexivity. }
  unfold tryEmitBufferedToolCall. simpl.
  rewrite NumMapFacts.get_set_same.
  unfold readyAfter, expectedCall. rewrite Hacc'. simpl.
  assert (Hpending : pendingAt i (seen ++ [d])
            (setBuffers st0 (NumMap.set i (accumulated (seen ++ [d])) (_toolCallBuffers st)))).
  { split; simpl; [rewrite Hc0; exact Hfresh | now rewrite NumMapFacts.get_set_same]. }
  destruct (latest d_name (seen ++ [d])) as [n|]; simpl.
  - destruct (String.eqb n EmptyString); simpl.
    + do 2 eexists. split; [reflexivity |]. rewrite toolCallsOf_app, Ho0. split; [reflexivity | exact Hpending].
    + destruct (tryParseJSONObject (fragments (seen ++ [d]))); simpl.
      * do 2 eexists. split; [reflexivity |]. rewrite toolCallsOf_app, Ho0. split; [reflexivity |].
        simpl. apply elem_of_union; left. now apply elem_of_singleton.
      * do 2 eexists. split; [reflexivity |]. rewrite toolCallsOf_app, Ho0.
        split; [reflexivity | exact Hpending].
  - do 2 eexists. split; [reflexivity |]. rewrite toolCallsOf_app, Ho0.
    split; [reflexivity | exact Hpending].
Qed.

(** Once the call of an index is out, the deltas that follow yield nothing. *)
Lemma completed_index_stays_silent (modelId : string) (i : Z) (ds : list Delta) (st : State) :
  i ∈ _completedToolCallIndices st ->
  List.map toolCallsOf (stepOutputs modelId st (List.map (deltaEvent i) ds))
  = List.map (fun _ => []) ds.
Proof.
  revert st; induction ds as [|d ds IH]; intros st Hdone; [reflexivity |].
  cbn [List.map stepOutputs].
  destruct (completed_index_ignores_delta modelId st i d Hdone)
    as (st' & out & -> & Hout & _ & Hc).
  cbn [List.map]. rewrite Hout, IH by (rewrite Hc; exact Hdone). reflexivity.
Qed.

Lemma eager_emission_from (modelId : string) (i : Z) (ds seen : list Delta) (st : State) :
  pendingAt i seen st ->
  List.map toolCallsOf (stepOutputs modelId st (List.map (deltaEvent i) ds))
  = eagerEmission seen ds.
Proof.
  revert seen st; induction ds as [|d ds IH]; intros seen st Hp; [reflexivity |].
  cbn [List.map stepOutputs eagerEmission].
  destruct (delta_step modelId st i seen d Hp) as (st' & out & -> & Hout & Hnext).
  cbn [List.map]. rewrite Hout.
  destruct (readyAfter (seen ++ [d])).
  - now rewrite completed_index_stays_silent.
  - now rewrite (IH _ _ Hnext).
Qed.

Lemma runEvents_outputs (modelId : string) (events : list StreamEvent) (st : State) :
  snd (fst (runEvents modelId st events)) = List.concat (stepOutputs modelId st events).
Proof.
  revert st; induction events as [|ev events IH]; intros st; [reflexivity |].
  cbn [runEvents stepOutputs].
  destruct (processEvent modelId st ev) as [[st1 out1] [|m]]; simpl.
  - specialize (IH st1). destruct (runEvents modelId st1 events) as [[st2 out2] o]; simpl in *.
    now rewrite IH.
  - now rewrite app_nil_r.
Qed.

Lemma toolCallsOf_concat (l : list (list LanguageModelResponsePart)) :
  toolCallsOf (List.concat l) = List.concat (List.map toolCallsOf l).
Proof.
  induction l as [|x l IH]; simpl; [reflexivity |]. now rewrite toolCallsOf_app, IH.
Qed.

Lemma concat_silent (A B : Type) (l : list A) :
  List.concat (List.map (fun _ => @nil B) l) = [].
Proof. induction l; simpl; auto. Qed.

Lemma expectedCall_ready (ds : list Delta) :
  readyAfter ds = true -> exists c, expectedCall ds = [c].
Proof.
  unfold readyAfter, expectedCall.
  destruct (latest d_name ds); simpl; [| discriminate].
  destruct (tryParseJSONObject (fragments ds)); [eauto | rewrite andb_false_r; discriminate].
Qed.

(** At most one call comes out of the deltas of an index. *)
Lemma eagerEmission_at_most_one (ds seen : list Delta) :
  (List.length (List.concat (eagerEmission seen ds)) <= 1)%nat.
Proof.
  revert seen; induction ds as [|d ds IH]; intros seen; simpl; [lia |].
  destruct (readyAfter (seen ++ [d])) eqn:E; simpl; [| apply IH].
  destruct (expectedCall_ready _ E) as [c ->]. rewrite concat_silent. simpl. lia.
Qed.

(** Deltas after the one that made the call ready add nothing. *)
Lemma eagerEmission_app (ds more seen : list Delta) (c : LanguageModelResponsePart) :
  List.concat (eagerEmission seen ds) = [c] ->
  List.concat (eagerEmission seen (ds ++ more)) = [c].
Proof.
  revert seen; induction ds as [|d ds IH]; intros seen; simpl; [discriminate |].
  destruct (readyAfter (seen ++ [d])); simpl; [| apply IH].
  now rewrite !concat_silent.
Qed.

(** The state reached by the deltas of an index: the call is still pending
    and nothing came out, or one call came out and the index is completed. *)
Lemma run_deltas_state (modelId : string) (i : Z) (ds seen : list Delta) (st : State) :
  pendingAt i seen st ->
  exists st' out,
    runEvents modelId st (List.map (deltaEvent i) ds) = (st', out, Normal)
    /\ ((toolCallsOf out = [] /\ pendingAt i (seen ++ ds) st')
        \/ (exists c, toolCallsOf out = [c]) /\ i ∈ _completedToolCallIndices st').
Proof.
  revert seen st; induction ds as [|d ds IH]; intros seen st Hp.
  - exists st, []. split; [reflexivity |]. left. now rewrite app_nil_r.
  - cbn [List.map runEvents].
    destruct (delta_step modelId st i seen d Hp) as (st1 & out1 & -> & Hout & Hnext).
    destruct (readyAfter (seen ++ [d])) eqn:E.
    + assert (Hsilent := completed_index_stays_silent modelId i ds st1 Hnext).
      assert (Hrun := runEvents_outputs modelId (List.map (deltaEvent i) ds) st1).
      assert (Hkeep : forall es st2, i ∈ _completedToolCallIndices st2 ->
                 exists st3 out3, runEvents modelId st2 (List.map (deltaEvent i) es)
                                  = (st3, out3, Normal)
                                  /\ i ∈ _completedToolCallIndices st3).
      { induction es as [|e es IHes]; intros st2 H2; [exists st2, []; auto |].
        cbn [List.map runEvents].
        destruct (completed_index_ignores_delta modelId st2 i e H2)
          as (st3 & out3 & -> & _ & _ & Hc).
        destruct (IHes st3) as (st4 & out4 & -> & H4); [rewrite Hc; exact H2 |].
        eauto. }
      destruct (Hkeep ds st1 Hnext) as (st2 & out2 & Hrun2 & H2).
      rewrite Hrun2 in *. simpl in Hrun. exists st2, (out1 ++ out2).
      split; [reflexivity |]. right. split; [| exact H2].
      destruct (expectedCall_ready _ E) as [c Hc]. exists c.
      rewrite toolCallsOf_app, Hout, Hc, Hrun, toolCallsOf_concat, Hsilent, concat_silent.
      reflexivity.
    + destruct (IH _ _ Hnext) as (st2 & out2 & -> & Hcases).
      exists st2, (out1 ++ out2). split; [reflexivity |].
      rewrite toolCallsOf_app, Hout. simpl.
      rewrite <- app_assoc in Hcases. exact Hcases.
Qed.

(** The emission at the first ready delta, spelled out: nothing for the
    deltas before it, the call at it, nothing for the deltas after it. *)
Lemma eagerEmission_first_ready (p q seen : list Delta) (d : Delta) :
  (forall k, (k < List.length p)%nat -> readyAfter (seen ++ List.firstn (S k) p) = false) ->
  readyAfter (seen ++ p ++ [d]) = true ->
  eagerEmission seen (p ++ d :: q)
  = List.map (fun _ => []) p ++ expectedCall (seen ++ p ++ [d]) :: List.map (fun _ => []) q.
Proof.
  revert seen; induction p as [|x p IH]; intros seen Hbefore Hready.
  - simpl in *. now rewrite Hready.
  - assert (Hx : readyAfter (seen ++ [x]) = false) by (apply (Hbefore 0%nat); simpl; lia).
    assert (Hshift : seen ++ (x :: p) ++ [d] = (seen ++ [x]) ++ p ++ [d])
      by (now rewrite <- app_assoc).
    rewrite Hshift in *.
    cbn [app eagerEmission List.map]. rewrite Hx. f_equal.
    apply IH; [| exact Hready].
    intros k Hk. rewrite <- app_assoc. apply (Hbefore (S k)). simpl; lia.
Qed.

(** While no delta makes the buffer ready, nothing is emitted. *)
Lemma eagerEmission_never_ready (ds seen : list Delta) :
  (forall k, (k < List.length ds)%nat -> readyAfter (seen ++ List.firstn (S k) ds) = false) ->
  eagerEmission seen ds = List.map (fun _ => []) ds.
Proof.
  revert seen; induction ds as [|d ds IH]; intros seen Hnever; [reflexivity |].
  assert (Hd : readyAfter (seen ++ [d]) = false) by (apply (Hnever 0%nat); simpl; lia).
  cbn [eagerEmission List.map]. rewrite Hd. f_equal.
  apply IH. intros k Hk. rewrite <- app_assoc. apply (Hnever (S k)). simpl; lia.
Qed.

End WithRuntime.
End ReconstructorFacts.

(** C1. For deltas addressed to one index that has no buffer and no
    emitted call yet, the tool calls reported delta by delta are those of
    [eagerEmission]: nothing until the first delta after which the buffer
    has a non-empty name and arguments that parse as a JSON object, the call
    at that delta, once, and nothing afterwards; nothing at all when no
    delta makes the buffer ready. The call is reported while the deltas are
    handled, not at the end of the stream. *)
Theorem tool_call_emitted_at_earliest_ready_delta `{RT : Runtime}
    (modelId : string) (st : Provider.State) (index : Z)
    (ds : list ReconstructorSpec.Delta) :
  index ∉ Provider._completedToolCallIndices st ->
  NumMap.get index (Provider._toolCallBuffers st) = None ->
  let outputs :=
    List.map Run.toolCallsOf
      (Run.stepOutputs modelId st (List.map (ReconstructorSpec.deltaEvent index) ds)) in
  outputs = ReconstructorSpec.eagerEmission [] ds
  /\ (forall before d after,
        ds = before ++ d :: after ->
        (forall k, (k < List.length before)%nat ->
                   ReconstructorSpec.readyAfter (List.firstn (S k) before) = false) ->
        ReconstructorSpec.readyAfter (before ++ [d]) = true ->
        outputs = List.map (fun _ => []) before
                  ++ ReconstructorSpec.expectedCall (before ++ [d])
                  :: List.map (fun _ => []) after)
  /\ ((forall k, (k < List.length ds)%nat ->
                 ReconstructorSpec.readyAfter (List.firstn (S k) ds) = false) ->
      outputs = List.map (fun _ => []) ds).
Proof.
  intros Hfresh Hnone outputs.
  assert (Hout : outputs = ReconstructorSpec.eagerEmission [] ds).
  { apply ReconstructorFacts.eager_emission_from.
    split; [exact Hfresh | now rewrite Hnone]. }
  split; [exact Hout |]. split.
  - intros before d after -> Hbefore Hready. rewrite Hout.
    apply (ReconstructorFacts.eagerEmission_first_ready before after [] d);
      [exact Hbefore | exact Hready].
  - intros Hnever. rewrite Hout.
    apply (ReconstructorFacts.eagerEmission_never_ready ds []). exact Hnever.
Qed.

(** The arguments [{"a":1}] in three fragments: the call comes out once,
    right after the third fragment. *)
Lemma eager_emission_witness :
  let d1 := {| ReconstructorSpec.d_id := Some "call_1"; ReconstructorSpec.d_name := Some "lookup";
               ReconstructorSpec.d_args := Some (js "{'a") |} in
  let d2 := {| ReconstructorSpec.d_id := None; ReconstructorSpec.d_name := None;
               ReconstructorSpec.d_args := Some (js "':1") |} in
  let d3 := {| ReconstructorSpec.d_id := None; ReconstructorSpec.d_name := None;
               ReconstructorSpec.d_args := Some "}" |} in
  List.map Run.toolCallsOf
    (@Run.stepOutputs Reference.runtime "gpt-x" Provider.initialState
       (List.map (ReconstructorSpec.deltaEvent 0) [d1; d2; d3]))
  = [[]; []; [LanguageModelToolCallPart (GivenId "call_1") "lookup" (JObj [("a", JNum 1)])]].
Proof.
  intros d1 d2 d3.
  assert (Hfresh : 0%Z ∉ Provider._completedToolCallIndices Provider.initialState)
    by (simpl; apply not_elem_of_empty).
  rewrite (proj1 (proj2 (@tool_call_emitted_at_earliest_ready_delta Reference.runtime
                           "gpt-x" Provider.initialState 0 [d1; d2; d3] Hfresh eq_refl))
             [d1; d2] d3 []).
  - vm_compute. reflexivity.
  - reflexivity.
  - intros [|[|k]] Hk; [vm_compute; reflexivity | vm_compute; reflexivity | simpl in Hk; lia].
  - vm_compute. reflexivity.
Defined.

(** C3. The deltas of one index give at most one call, also when the
    whole sequence is fed a second time: if the sequence fed once gives the
    call [c], fed twice it gives [c] and nothing else. After the call the
    index is completed, and a delta for a completed index reports no call
    and changes neither the buffers nor the completed indices. *)
Theorem repeated_delta_sequence_emits_once `{RT : Runtime}
    (modelId : string) (st : Provider.State) (index : Z)
    (ds : list ReconstructorSpec.Delta) :
  index ∉ Provider._completedToolCallIndices st ->
  NumMap.get index (Provider._toolCallBuffers st) = None ->
  let reported events :=
    Run.toolCallsOf
      (snd (fst (Run.runEvents modelId st
                   (List.map (ReconstructorSpec.deltaEvent index) events)))) in
  (List.length (reported (ds ++ ds)) <= 1)%nat
  /\ (forall c, reported ds = [c] ->
        reported (ds ++ ds) = [c]
        /\ index ∈ Provider._completedToolCallIndices
                     (fst (fst (Run.runEvents modelId st
                                  (List.map (ReconstructorSpec.deltaEvent index) ds)))))
  /\ (forall st' d, index ∈ Provider._completedToolCallIndices st' ->
        exists st'' out,
          Provider.processEvent modelId st' (ReconstructorSpec.deltaEvent index d)
          = (st'', out, Provider.Normal)
          /\ Run.toolCallsOf out = []
          /\ Provider._toolCallBuffers st'' = Provider._toolCallBuffers st'
          /\ Provider._completedToolCallIndices st'' = Provider._completedToolCallIndices st').
Proof.
  intros Hfresh Hnone reported.
  assert (Hp : ReconstructorSpec.pendingAt index [] st)
    by (split; [exact Hfresh | now rewrite Hnone]).
  assert (Hrep : forall events,
             reported events = List.concat (ReconstructorSpec.eagerEmission [] events)).
  { intros events. unfold reported.
    rewrite ReconstructorFacts.runEvents_outputs, ReconstructorFacts.toolCallsOf_concat.
    now rewrite (ReconstructorFacts.eager_emission_from modelId index events [] st Hp). }
  split; [rewrite Hrep; apply ReconstructorFacts.eagerEmission_at_most_one |].
  split.
  - intros c Hc. split.
    + rewrite Hrep in *. now apply ReconstructorFacts.eagerEmission_app.
    + destruct (ReconstructorFacts.run_deltas_state modelId index ds [] st Hp)
        as (st' & out & Hrun & [[Hnil _] | [_ Hdone]]).
      * unfold reported in Hc. rewrite Hrun in Hc. simpl in Hc. congruence.
      * now rewrite Hrun.
  - intros st' d. apply ReconstructorFacts.completed_index_ignores_delta.
Qed.

(** The three fragments of [{"a":1}], with the same index, id and name,
    fed twice: one call. *)
Lemma repeated_delta_sequence_witness :
  let d1 := {| ReconstructorSpec.d_id := Some "call_1"; ReconstructorSpec.d_name := Some "lookup";
               ReconstructorSpec.d_args := Some (js "{'a") |} in
  let d2 := {| ReconstructorSpec.d_id := Some "call_1"; ReconstructorSpec.d_name := Some "lookup";
               ReconstructorSpec.d_args := Some (js "':1") |} in
  let d3 := {| ReconstructorSpec.d_id := Some "call_1"; ReconstructorSpec.d_name := Some "lookup";
               ReconstructorSpec.d_args := Some "}" |} in
  let ds := [d1; d2; d3] in
  Run.toolCallsOf
    (snd (fst (@Run.runEvents Reference.runtime "gpt-x" Provider.initialState
                 (List.map (ReconstructorSpec.deltaEvent 3) (ds ++ ds)))))
  = [LanguageModelToolCallPart (GivenId "call_1") "lookup" (JObj [("a", JNum 1)])].
Proof.
  intros d1 d2 d3 ds.
  assert (Hfresh : 3%Z ∉ Provider._completedToolCallIndices Provider.initialState)
    by (simpl; apply not_elem_of_empty).
  apply (proj1 (proj2 (@repeated_delta_sequence_emits_once Reference.runtime
                         "gpt-x" Provider.initialState 3 ds Hfresh eq_refl))).
  vm_compute. reflexivity.
Defined.

(** ** Flushing the tool-call buffers *)

Module FlushFacts.
Import Provider ReconstructorSpec.

Section WithRuntime.
Context `{RT : Runtime}.

(** A silent flush reports the calls of the buffers whose arguments parse,
    in the order of the buffers, and raises nothing. *)
Lemma flushEntries_silent (entries : list (Z * ToolCallBuffer.t)) (st : State) :
  exists st', flushEntries entries false st = (st', flat_map flushedCall entries, None).
Proof.
  revert st; induction entries as [|[idx buf] entries IH]; intros st.
  - exists st. reflexivity.
  - cbn [flushEntries flat_map]. unfold flushedCall at 1. cbn [snd].
    destruct (tryParseJSONObject (ToolCallBuffer.args buf)) as [value|].
    + match goal with |- context [flushEntries entries false ?s] =>
        destruct (IH s) as [st' ->] end.
      exists st'. reflexivity.
    + apply IH.
Qed.

(** A flush that throws on invalid arguments does throw as soon as one
    buffer holds arguments that do not parse. *)
Lemma flushEntries_fatal (entries : list (Z * ToolCallBuffer.t)) (st : State) :
  (exists e, In e entries /\ tryParseJSONObject (ToolCallBuffer.args (snd e)) = None) ->
  exists st' out, flushEntries entries true st = (st', out, Some "Invalid JSON for tool call").
Proof.
  revert st; induction entries as [|[idx buf] entries IH]; intros st (e & Hin & Hbad).
  - destruct Hin.
  - cbn [flushEntries].
    destruct (tryParseJSONObject (ToolCallBuffer.args buf)) as [value|] eqn:E.
    + destruct Hin as [<- | Hin]; [simpl in Hbad; congruence |].
      match goal with |- context [flushEntries entries true ?s] =>
        destruct (IH s) as (st' & out & ->); [eauto |] end.
      eauto.
    + eauto.
Qed.

Lemma flushToolCallBuffers_entries (st : State) (throwOnInvalid : bool) :
  flushToolCallBuffers st throwOnInvalid
  = flushEntries (_toolCallBuffers st) throwOnInvalid st.
Proof. unfold flushToolCallBuffers. now destruct (_toolCallBuffers st). Qed.

End WithRuntime.
End FlushFacts.

(** C2. When a buffer holds arguments that do not parse as a JSON object,
    a [finish] event with the reason [stop] or [tool_calls] ends with the
    error thrown, while [done] on the same state ends normally: the flush
    reports the calls of the buffers that do parse and nothing for the one
    that does not. *)
Theorem unparseable_buffer_fatal_at_finish_silent_at_done `{RT : Runtime}
    (modelId : string) (st : Provider.State) (index : Z) (buf : ToolCallBuffer.t) :
  In (index, buf) (Provider._toolCallBuffers st) ->
  tryParseJSONObject (ToolCallBuffer.args buf) = None ->
  (forall reason, reason = "stop" \/ reason = "tool_calls" ->
     exists st' out,
       Provider.processEvent modelId st (finish (JStr reason))
       = (st', out, Provider.Thrown "Invalid JSON for tool call"))
  /\ (exists st1 st2 out2,
        Provider.flushToolCallBuffers st false
        = (st1, flat_map ReconstructorSpec.flushedCall (Provider._toolCallBuffers st), None)
        /\ Provider.flushActiveTextToolCall st1 = (st2, out2)
        /\ Provider.processEvent modelId st done
           = (st2, flat_map ReconstructorSpec.flushedCall (Provider._toolCallBuffers st) ++ out2,
              Provider.Normal))
  /\ ReconstructorSpec.flushedCall (index, buf) = [].
Proof.
  intros Hin Hbad. split; [| split].
  - intros reason Hreason.
    destruct (FlushFacts.flushEntries_fatal (Provider._toolCallBuffers st) st)
      as (st' & out & Hflush); [exists (index, buf); split; [exact Hin | exact Hbad] |].
    exists st', out. unfold Provider.processEvent.
    rewrite FlushFacts.flushToolCallBuffers_entries, Hflush.
    destruct Hreason as [-> | ->]; reflexivity.
  - destruct (FlushFacts.flushEntries_silent (Provider._toolCallBuffers st) st) as [st1 Hflush].
    destruct (Provider.flushActiveTextToolCall st1) as [st2 out2] eqn:Hactive.
    exists st1, st2, out2. unfold Provider.processEvent, Provider.flushSilently.
    rewrite FlushFacts.flushToolCallBuffers_entries, Hflush, Hactive.
    split; [reflexivity | split; reflexivity].
  - unfold ReconstructorSpec.flushedCall. simpl. now rewrite Hbad.
Qed.

(** A buffer whose arguments stop after the opening brace. *)
Lemma unparseable_buffer_witness :
  let buf := {| ToolCallBuffer.id := Some "call_1"; ToolCallBuffer.name := Some "lookup";
                ToolCallBuffer.args := "{" |} in
  let st := Provider.setBuffers Provider.initialState [(0%Z, buf)] in
  (exists st' out,
     @Provider.processEvent Reference.runtime "gpt-x" st (finish (JStr "stop"))
     = (st', out, Provider.Thrown "Invalid JSON for tool call"))
  /\ @Provider.processEvent Reference.runtime "gpt-x" st done = (st, [], Provider.Normal).
Proof.
  intros buf st.
  destruct (@unparseable_buffer_fatal_at_finish_silent_at_done Reference.runtime
              "gpt-x" st 0%Z buf (or_introl eq_refl) eq_refl)
    as (Hfinish & (st1 & st2 & out2 & Hflush & Hactive & Hdone) & _).
  split; [apply Hfinish; now left |].
  rewrite Hdone.
  vm_compute in Hflush. injection Hflush as <-.
  vm_compute in Hactive. injection Hactive as <- <-.
  vm_compute. reflexivity.
Defined.

(** ** The inline tokenizer and the emitted-key set *)

Module KeyFacts.
Import Provider Run.

Section WithRuntime.
Context `{RT : Runtime}.

Lemma keysCover_nil (st : State) : keysCover st [].
Proof. intros i n v []. Qed.

Lemma keysCover_mono (st st' : State) (out : list LanguageModelResponsePart) :
  _emittedTextToolCallKeys st ⊆ _emittedTextToolCallKeys st' ->
  keysCover st out -> keysCover st' out.
Proof. intros Hsub Hc i n v Hin. apply Hsub. exact (Hc i n v Hin). Qed.

Lemma keysCover_app (st : State) (a b : list LanguageModelResponsePart) :
  keysCover st a -> keysCover st b -> keysCover st (a ++ b).
Proof.
  intros Ha Hb i n v Hin. apply in_app_or in Hin as [Hin | Hin]; [exact (Ha i n v Hin) | exact (Hb i n v Hin)].
Qed.

Lemma keysCover_call (st : State) (i : CallId) (n : string) (v : json) :
  keysCover (addKey st (callKey n v)) [LanguageModelToolCallPart i n v].
Proof.
  intros i' n' v' [[= <- <- <-] | []]. simpl. apply elem_of_union; left. now apply elem_of_singleton.
Qed.

Lemma addKey_grows (st : State) (k : string) :
  _emittedTextToolCallKeys st ⊆ _emittedTextToolCallKeys (addKey st k).
Proof. simpl. apply union_subseteq_r. Qed.

(** The inline channel records the key of every call it reports. *)
Lemma emitTextToolCallIfValid_keys (st st' : State) (call : TextToolActive.t) (argText : string)
    (did : bool) (out : list LanguageModelResponsePart) :
  emitTextToolCallIfValid st call argText = (did, st', out) ->
  _emittedTextToolCallKeys st ⊆ _emittedTextToolCallKeys st' /\ keysCover st' out.
Proof.
  unfold emitTextToolCallIfValid.
  destruct (tryParseJSONObject argText) as [value|];
    [| intros [= <- <- <-]; split; [reflexivity | apply keysCover_nil]].
  destruct (TextToolActive.index call) as [i|].
  - case_bool_decide; intros [= <- <- <-].
    + split; [reflexivity | apply keysCover_nil].
    + split; [apply union_subseteq_r | apply (keysCover_call (addId st _))].
  - case_bool_decide; intros [= <- <- <-].
    + split; [reflexivity | apply keysCover_nil].
    + split; [apply union_subseteq_r | apply keysCover_call].
Qed.


Ltac loop_step H :=
  lazymatch type of H with
  | Some _ = Some _ => injection H as <-
  | None = Some _ => discriminate H
  | textLoop _ _ = Some _ => fail
  | match ?x with _ => _ end = _ => destruct x eqn:?
  end.

Lemma textLoop_keys (fuel : nat) (v v' : LoopVars) :
  textLoop fuel v = Some v' ->
  _emittedTextToolCallKeys (state v) ⊆ _emittedTextToolCallKeys (state v')
  /\ (keysCover (state v) (reported v) -> keysCover (state v') (reported v')).
Proof.
  revert v v'; induction fuel as [|fuel IH]; intros v v' H; [discriminate H |].
  cbn [textLoop] in H.
  repeat loop_step H.
  all: try (apply IH in H; cbn [state reported] in H).
  all: cbn [state reported].
  all: repeat match goal with
       | E : emitTextToolCallIfValid _ _ _ = _ |- _ =>
           apply emitTextToolCallIfValid_keys in E; destruct E
       end.
  all: try (destruct H as [Hsub Hcov]).
  all: cbn [_emittedTextToolCallKeys setActive setParserBuffer] in *.
  all: split; [try reflexivity; try assumption; try (etransitivity; eassumption) | intros Hc].
  all: try (apply Hcov).
  all: try assumption.
  all: try (apply keysCover_app; [eapply keysCover_mono; [| exact Hc]; assumption | assumption]).
Qed.


(** The loop always ends with [data] empty, so the assignment that follows
    it empties the parser buffer. *)
Lemma textLoop_data_empty (fuel : nat) (v v' : LoopVars) :
  textLoop fuel v = Some v' -> data v' = EmptyString.
Proof.
  revert v v'; induction fuel as [|fuel IH]; intros v v' H; [discriminate H |].
  cbn [textLoop] in H.
  repeat loop_step H.
  all: try (apply IH in H; exact H).
  all: cbn [data]; try reflexivity.
  now apply String.eqb_eq.
Qed.

Lemma drop_shorter (n : nat) (s : string) :
  (0 < n)%nat -> s <> EmptyString ->
  (String.length (JsString.drop n s) < String.length s)%nat.
Proof.
  intros Hn Hs. rewrite JsStringFacts.length_drop.
  destruct s; [contradiction | simpl; lia].
Qed.

Lemma drop_not_longer (n : nat) (s : string) :
  (String.length (JsString.drop n s) <= String.length s)%nat.
Proof. rewrite JsStringFacts.length_drop. lia. Qed.

(** The fuel given to the loop is enough. *)
Lemma textLoop_terminates (fuel : nat) (v : LoopVars) :
  (String.length (data v) < fuel)%nat -> exists v', textLoop fuel v = Some v'.
Proof.
  revert v; induction fuel as [|fuel IH]; intros v Hfuel; [lia |].
  cbn [textLoop].
  destruct (String.eqb_spec (data v) EmptyString) as [E | E]; [eauto |].
  assert (Hlen : (0 < String.length (data v))%nat)
    by (destruct (data v); [contradiction | simpl; lia]).
  repeat match goal with
         | |- exists v', Some _ = Some v' => eauto
         | |- exists v', textLoop fuel _ = Some v' => fail 1
         | |- exists v', match ?x with _ => _ end = Some v' => destruct x eqn:?
         end.
  all: apply IH; cbn [data]; rewrite ?JsStringFacts.length_drop.
  all: change (String.length ARG_BEGIN) with 28%nat.
  all: change (String.length END) with 17%nat.
  all: change (String.length BEGIN) with 19%nat.
  all: lia.
Qed.


(** Whatever the chunk, [processTextContent] leaves the parser buffer
    empty: the text it set aside for the next chunk is overwritten by the
    assignment after the loop. *)
Lemma processTextContent_empties_buffer (st : State) (input : string) :
  _textToolParserBuffer (snd (fst (processTextContent st input))) = EmptyString.
Proof.
  unfold processTextContent.
  match goal with |- context [textLoop ?f ?w] =>
    destruct (textLoop_terminates f w) as [v Hv]; [cbn [data]; lia | rewrite Hv] end.
  destruct (negb (String.eqb (visibleOut v) EmptyString)); cbn [fst snd];
    simpl; exact (textLoop_data_empty _ _ _ Hv).
Qed.

Lemma processTextContent_keys (st st' : State) (input : string) (flags : bool * bool)
    (out : list LanguageModelResponsePart) :
  processTextContent st input = (flags, st', out) ->
  _emittedTextToolCallKeys st ⊆ _emittedTextToolCallKeys st' /\ keysCover st' out.
Proof.
  unfold processTextContent.
  match goal with |- context [textLoop ?f ?w] =>
    destruct (textLoop_terminates f w) as [v Hv]; [cbn [data]; lia | rewrite Hv] end.
  apply textLoop_keys in Hv as [Hsub Hcov]. cbn [state reported] in *.
  specialize (Hcov (keysCover_nil st)).
  destruct (negb (String.eqb (visibleOut v) EmptyString)); intros [= <- <- <-];
    (split; [exact Hsub |]).
  - apply keysCover_app; [exact Hcov |]. intros i n x [[=] | []].
  - exact Hcov.
Qed.

Lemma flushActiveTextToolCall_keys (st st' : State) (out : list LanguageModelResponsePart) :
  flushActiveTextToolCall st = (st', out) ->
  _emittedTextToolCallKeys st ⊆ _emittedTextToolCallKeys st' /\ keysCover st' out.
Proof.
  unfold flushActiveTextToolCall.
  destruct (_textToolActive st) as [act|];
    [| intros [= <- <-]; split; [reflexivity | apply keysCover_nil]].
  destruct (tryParseJSONObject (TextToolActive.argBuffer act));
    [| intros [= <- <-]; split; [reflexivity | apply keysCover_nil]].
  destruct (emitTextToolCallIfValid st act (TextToolActive.argBuffer act))
    as [[did st1] out1] eqn:E.
  intros [= <- <-]. exact (emitTextToolCallIfValid_keys _ _ _ _ _ _ E).
Qed.

(** The delta channel records the key of every call it reports. *)
Lemma tryEmitBufferedToolCall_keys (st st' : State) (index : Z)
    (out : list LanguageModelResponsePart) :
  tryEmitBufferedToolCall st index = (st', out) ->
  _emittedTextToolCallKeys st ⊆ _emittedTextToolCallKeys st' /\ keysCover st' out.
Proof.
  unfold tryEmitBufferedToolCall.
  repeat match goal with
         | |- match ?x with _ => _ end = _ -> _ => destruct x
         end.
  all: intros [= <- <-].
  all: split; [try reflexivity | try apply keysCover_nil].
  - apply union_subseteq_r.
  - apply (keysCover_call st).
Qed.

Lemma flushEntries_keys (entries : list (Z * ToolCallBuffer.t)) (throwOnInvalid : bool)
    (st st' : State) (out : list LanguageModelResponsePart) (err : option string) :
  flushEntries entries throwOnInvalid st = (st', out, err) ->
  _emittedTextToolCallKeys st ⊆ _emittedTextToolCallKeys st' /\ keysCover st' out.
Proof.
  revert st st' out err; induction entries as [|[idx buf] entries IH]; intros st st' out err.
  - intros [= <- <- <-]. split; [reflexivity | apply keysCover_nil].
  - cbn [flushEntries].
    destruct (tryParseJSONObject (ToolCallBuffer.args buf)) as [value|].
    + match goal with |- context [flushEntries entries throwOnInvalid ?s] =>
        destruct (flushEntries entries throwOnInvalid s) as [[st3 out3] err3] eqn:E end.
      intros [= <- <- <-]. apply IH in E as [Hsub Hcov]. simpl in Hsub.
      split; [etransitivity; [apply union_subseteq_r | exact Hsub] |].
      apply (keysCover_app _ [_]); [| exact Hcov].
      eapply keysCover_mono; [| apply (keysCover_call st)]. exact Hsub.
    + destruct throwOnInvalid; [| apply IH].
      intros [= <- <- <-]. split; [reflexivity | apply keysCover_nil].
Qed.

Lemma flushSilently_keys (st st' : State) (out : list LanguageModelResponsePart) :
  flushSilently st = (st', out) ->
  _emittedTextToolCallKeys st ⊆ _emittedTextToolCallKeys st' /\ keysCover st' out.
Proof.
  unfold flushSilently. rewrite FlushFacts.flushToolCallBuffers_entries.
  destruct (flushEntries (_toolCallBuffers st) false st) as [[st1 out1] err] eqn:E1.
  destruct (flushActiveTextToolCall st1) as [st2 out2] eqn:E2.
  intros [= <- <-].
  apply flushEntries_keys in E1 as [S1 C1]. apply flushActiveTextToolCall_keys in E2 as [S2 C2].
  split; [etransitivity; eassumption |].
  apply keysCover_app; [eapply keysCover_mono; eassumption | exact C2].
Qed.

(** Handling an event only adds keys, and adds the key of every tool call
    it reports, whichever channel the call comes from. *)
Lemma processEvent_keys (modelId : string) (st st' : State) (event : StreamEvent)
    (out : list LanguageModelResponsePart) (o : Outcome) :
  processEvent modelId st event = (st', out, o) ->
  _emittedTextToolCallKeys st ⊆ _emittedTextToolCallKeys st' /\ keysCover st' out.
Proof.
  destruct event as [content | index id name args | t i m | marker | reason | |];
    cbn [processEvent].
  - destruct (processTextContent st content) as [[[emittedText any] st1] out1] eqn:E.
    apply processTextContent_keys in E.
    destruct emittedText; intros [= <- <- <-]; exact E.
  - set (hint := negb (_emittedBeginToolCallsHint st) && _hasEmittedAssistantText st).
    set (st0 := if hint then setEmittedBeginToolCallsHint st true else st).
    assert (Hk : _emittedTextToolCallKeys st0 = _emittedTextToolCallKeys st)
      by (unfold st0; destruct hint; reflexivity).
    assert (Hhint : forall s, keysCover s (if hint then [LanguageModelTextPart " "] else [])).
    { intros s i' n' v' Hin. destruct hint; [destruct Hin as [[=] | []] | destruct Hin]. }
    case_bool_decide.
    + intros [= <- <- <-]. rewrite Hk. split; [reflexivity | apply Hhint].
    + match goal with |- context [tryEmitBufferedToolCall ?s index] =>
        destruct (tryEmitBufferedToolCall s index) as [st2 out2] eqn:E end.
      intros [= <- <- <-]. apply tryEmitBufferedToolCall_keys in E as [Hsub Hcov].
      simpl in Hsub. rewrite Hk in Hsub.
      split; [exact Hsub | apply keysCover_app; [apply Hhint | exact Hcov]].
  - intros [= <- <- <-]. split; [reflexivity |].
    intros i' n' v' Hin. destruct hostHasThinkingPart; [destruct Hin as [[=] | []] | destruct Hin].
  - destruct (flushSilently st) as [st1 out1] eqn:E. intros [= <- <- <-].
    apply flushSilently_keys in E as [Hsub Hcov]. split; [exact Hsub |].
    apply (keysCover_app _ [_]); [intros i' n' v' [[=] | []] | exact Hcov].
  - destruct reason as [| | | r | |];
      try (intros [= <- <- <-]; split; [reflexivity | apply keysCover_nil]).
    destruct (String.eqb r "tool_calls" || String.eqb r "stop");
      [| intros [= <- <- <-]; split; [reflexivity | apply keysCover_nil]].
    rewrite FlushFacts.flushToolCallBuffers_entries.
    destruct (flushEntries (_toolCallBuffers st) true st) as [[st1 out1] err] eqn:E.
    intros [= <- <- <-]. exact (flushEntries_keys _ _ _ _ _ _ E).
  - destruct (flushSilently st) as [st1 out1] eqn:E. intros [= <- <- <-].
    exact (flushSilently_keys _ _ _ E).
  - intros [= <- <- <-]. split; [reflexivity | apply keysCover_nil].
Qed.

Lemma runEvents_keys (modelId : string) (events : list StreamEvent) (st st' : State)
    (out : list LanguageModelResponsePart) (o : Outcome) :
  runEvents modelId st events = (st', out, o) ->
  _emittedTextToolCallKeys st ⊆ _emittedTextToolCallKeys st' /\ keysCover st' out.
Proof.
  revert st st' out o; induction events as [|ev events IH]; intros st st' out o.
  - intros [= <- <- <-]. split; [reflexivity | apply keysCover_nil].
  - cbn [runEvents].
    destruct (processEvent modelId st ev) as [[st1 out1] [|m]] eqn:E1;
      apply processEvent_keys in E1 as [S1 C1].
    + destruct (runEvents modelId st1 events) as [[st2 out2] o2] eqn:E2.
      intros [= <- <- <-]. apply IH in E2 as [S2 C2].
      split; [etransitivity; eassumption |].
      apply keysCover_app; [eapply keysCover_mono; eassumption | exact C2].
    + intros [= <- <- <-]. split; assumption.
Qed.

(** A call without an index whose key is in the emitted-key set is not
    reported by the inline channel. *)
Lemma emitTextToolCallIfValid_suppressed (st : State) (call : TextToolActive.t)
    (argText name : string) (value : json) :
  TextToolActive.index call = None ->
  match TextToolActive.name call with Some n => n | None => "unknown_tool" end = name ->
  tryParseJSONObject argText = Some value ->
  callKey name value ∈ _emittedTextToolCallKeys st ->
  emitTextToolCallIfValid st call argText = (false, st, []).
Proof.
  intros Hindex Hname Hparse Hkey. unfold emitTextToolCallIfValid.
  rewrite Hparse, Hindex, Hname. now rewrite bool_decide_eq_true_2.
Qed.

End WithRuntime.
End KeyFacts.

(** C10. Within a turn, every tool call reported so far has its key
    [name:canonical-arguments] in the emitted-key set of the inline
    tokenizer; the delta channel adds it in [tryEmitBufferedToolCall] and in
    [flushToolCallBuffers]. An inline call without an index whose name and
    canonical arguments are those of such a call is therefore not reported,
    in the state reached and in every later state of the turn. *)
Theorem delta_channel_calls_suppress_inline_duplicates `{RT : Runtime}
    (modelId : string) (st0 st : Provider.State) (events : list StreamEvent)
    (out : list LanguageModelResponsePart) (o : Provider.Outcome)
    (id : CallId) (name : string) (value : json) :
  Run.runEvents modelId st0 events = (st, out, o) ->
  In (LanguageModelToolCallPart id name value) out ->
  (forall s i s' out', Provider.tryEmitBufferedToolCall s i = (s', out') -> Run.keysCover s' out')
  /\ (forall s t s' out' err,
        Provider.flushToolCallBuffers s t = (s', out', err) -> Run.keysCover s' out')
  /\ Provider.callKey name value ∈ Provider._emittedTextToolCallKeys st
  /\ (forall st' call argText value',
        Provider._emittedTextToolCallKeys st ⊆ Provider._emittedTextToolCallKeys st' ->
        TextToolActive.index call = None ->
        match TextToolActive.name call with Some n => n | None => "unknown_tool" end = name ->
        tryParseJSONObject argText = Some value' ->
        JSON_stringify value' = JSON_stringify value ->
        Provider.emitTextToolCallIfValid st' call argText = (false, st', [])).
Proof.
  intros Hrun Hin.
  destruct (KeyFacts.runEvents_keys _ _ _ _ _ _ Hrun) as [_ Hcover].
  split; [intros s i s' out' E; exact (proj2 (KeyFacts.tryEmitBufferedToolCall_keys _ _ _ _ E)) |].
  split.
  { intros s t s' out' err E. rewrite FlushFacts.flushToolCallBuffers_entries in E.
    exact (proj2 (KeyFacts.flushEntries_keys _ _ _ _ _ _ E)). }
  split; [exact (Hcover _ _ _ Hin) |].
  intros st' call argText value' Hsub Hindex Hname Hparse Hcanon.
  apply (KeyFacts.emitTextToolCallIfValid_suppressed st' call argText name value');
    try assumption.
  apply Hsub. unfold Provider.callKey. rewrite Hcanon. exact (Hcover _ _ _ Hin).
Qed.

(** A call [lookup({"a":1})] reported by the delta channel, then the same
    call written inline with other white space and no index. *)
Lemma inline_duplicate_witness :
  let delta := tool_call 0 (Some "call_1") (Some "lookup") (Some (js "{'a':1}")) in
  let st := fst (fst (@Run.runEvents Reference.runtime "gpt-x" Provider.initialState [delta])) in
  let call := {| TextToolActive.name := Some "lookup"; TextToolActive.index := None;
                 TextToolActive.argBuffer := js "{ 'a' : 1 }";
                 TextToolActive.emitted := false |} in
  @Provider.emitTextToolCallIfValid Reference.runtime st call (js "{ 'a' : 1 }")
  = (false, st, []).
Proof.
  intros delta st call.
  pose (R := @Run.runEvents Reference.runtime "gpt-x" Provider.initialState [delta]).
  assert (HR : R = (st, snd (fst R), snd R)).
  { subst st R.
    destruct (@Run.runEvents Reference.runtime "gpt-x" Provider.initialState [delta])
      as [[a b] c].
    reflexivity. }
  apply (proj2 (proj2 (proj2
           (@delta_channel_calls_suppress_inline_duplicates Reference.runtime
              "gpt-x" Provider.initialState st [delta] (snd (fst R)) (snd R)
              (GivenId "call_1") "lookup" (JObj [("a", JNum 1)]) HR
              ltac:(vm_compute; left; reflexivity))))
         st call (js "{ 'a' : 1 }") (JObj [("a", JNum 1)])).
  - reflexivity.
  - reflexivity.
  - reflexivity.
  - vm_compute. reflexivity.
  - reflexivity.
Defined.

(** The two channels in one turn: the inline copy of a call that came by
    deltas is stripped from the text and not reported again. *)
Example inline_copy_of_delta_call_is_dropped :
  snd (fst (@Run.runEvents Reference.runtime "gpt-x" Provider.initialState
              [tool_call 0 (Some "call_1") (Some "lookup") (Some (js "{'a':1}"));
               text (js ("<|tool_call_begin|>lookup<|tool_call_argument_begin|>"
                         +:+ "{ 'a' : 1 }<|tool_call_end|>ok"))]))
  = [LanguageModelToolCallPart (GivenId "call_1") "lookup" (JObj [("a", JNum 1)]);
     LanguageModelTextPart "ok"].
Proof. vm_compute. reflexivity. Qed.

(** C4, on two streams cut into two chunks. In the first the chunk [a<]
    ends with a prefix of the begin token: [a] is reported, the [<] set
    aside is overwritten when [processTextContent] returns, and the next
    chunk [b] is reported alone, so the [<] of the text [a<b] never reaches
    the host. In the second the begin token itself is cut in two: the call
    is not recognised and the rest of the token is reported as text, whereas
    the same text in one chunk gives the call. *)
Theorem text_held_back_at_chunk_end_is_lost :
  let run := @Run.runEvents Reference.runtime "gpt-x" Provider.initialState in
  let afterFirst := fst (fst (run [text "a<"])) in
  snd (fst (run [text "a<"])) = [LanguageModelTextPart "a"]
  /\ Provider._textToolParserBuffer afterFirst = EmptyString
  /\ snd (fst (run [text "a<"; text "b"])) = [LanguageModelTextPart "a"; LanguageModelTextPart "b"]
  /\ Run.visibleText (snd (fst (run [text "a<b"]))) = "a<b"
  /\ snd (fst (run [text "x<|tool_call_be";
                    text "gin|>read<|tool_call_argument_begin|>{}<|tool_call_end|>"]))
     = [LanguageModelTextPart "x"; LanguageModelTextPart "gin|>read{}"]
  /\ snd (fst (run [text "x<|tool_call_begin|>read<|tool_call_argument_begin|>{}<|tool_call_end|>"]))
     = [LanguageModelToolCallPart (FreshId "tct_") "read" (JObj []); LanguageModelTextPart "x"].
Proof. vm_compute. repeat split; reflexivity. Qed.

(** ** The per-turn state between turns *)

Module TurnFacts.
Import Provider.

(** The head of [provideLanguageModelChatResponse] resets all eight
    fields. *)
Lemma resetAtTurnStart_resets_everything (st : State) : resetAtTurnStart st = initialState.
Proof. reflexivity. Qed.

(** The [finally] block resets every field except [_emittedTextToolCallIds],
    which it leaves as it is. *)
Lemma cleanUpAfterStream_resets_all_but_ids (st : State) :
  cleanUpAfterStream st
  = {| _toolCallBuffers := []; _completedToolCallIndices := ∅;
       _hasEmittedAssistantText := false; _emittedBeginToolCallsHint := false;
       _textToolParserBuffer := EmptyString; _textToolActive := None;
       _emittedTextToolCallKeys := ∅;
       _emittedTextToolCallIds := _emittedTextToolCallIds st |}.
Proof. reflexivity. Qed.

Section WithRuntime.
Context `{RT : Runtime}.

(** After a turn, however it ended, every field but
    [_emittedTextToolCallIds] is back to its initial value. *)
Lemma state_after_turn (modelId : string) (st : State) (x : Exchange) :
  let st' := fst (fst (provideLanguageModelChatResponse modelId st x)) in
  cleanUpAfterStream st' = st'.
Proof.
  unfold provideLanguageModelChatResponse, processStreamingResponse.
  destruct x as [m | ad chunks ending]; [reflexivity |].
  destruct (readLoop modelId ad (resetAtTurnStart st) EmptyString chunks ending) as [[st1 out] o].
  reflexivity.
Qed.

(** The next turn starts from the initial state whatever the last one
    left. *)
Lemma next_turn_starts_clean (modelId : string) (st : State) (x : Exchange) :
  resetAtTurnStart (fst (fst (provideLanguageModelChatResponse modelId st x))) = initialState.
Proof. reflexivity. Qed.

End WithRuntime.
End TurnFacts.

(** C9, on a turn whose stream carries one inline tool call with an
    index, [read:0], and then ends: after the [finally] block of
    [processStreamingResponse] the set [_emittedTextToolCallIds] still holds
    the identity of that call, while the seven other fields are reset. The
    reset at the start of a turn clears all eight. *)
Theorem emitted_ids_survive_stream_cleanup :
  let line := js ("data: {'choices':[{'delta':{'content':"
                  +:+ "'<|tool_call_begin|>read:0<|tool_call_argument_begin|>{}<|tool_call_end|>'}}]}")
              +:+ String "010" EmptyString in
  let turn ending :=
    @Provider.provideLanguageModelChatResponse Reference.runtime "gpt-x" Provider.initialState
      (Provider.Streamed Adapters.ChatCompletions [line] ending) in
  snd (fst (turn Provider.EndOfStream))
  = [LanguageModelToolCallPart (FreshId "tct_") "read" (JObj [])]
  /\ (forall ending,
        Provider._emittedTextToolCallIds (fst (fst (turn ending))) = {[ "read:0" ]})
  /\ Provider._emittedTextToolCallIds (fst (fst (turn Provider.EndOfStream))) <> ∅
  /\ Provider._emittedTextToolCallKeys (fst (fst (turn Provider.EndOfStream))) = ∅.
Proof.
  intros line turn.
  assert (Hids : forall ending,
            Provider._emittedTextToolCallIds (fst (fst (turn ending))) = {[ "read:0" ]}).
  { intros [| | m]; vm_compute; reflexivity. }
  split; [vm_compute; reflexivity |].
  split; [exact Hids |].
  split; [| vm_compute; reflexivity].
  rewrite Hids. intros Hempty.
  assert (Hin : "read:0" ∈ ({[ "read:0" ]} : gset string)) by now apply elem_of_singleton.
  rewrite Hempty in Hin. exact (not_elem_of_empty _ Hin).
Qed.

(** ** Scenarios of the specification, run end to end *)

(** The finish-boundary scenario on a chat stream: a tool call whose
    arguments stop after [{"q":], followed by [finish_reason: "stop"], makes
    the turn throw; followed by the [[DONE]] sentinel instead, the turn ends
    normally with nothing reported. *)
Example finish_boundary_scenario :
  let lf := String "010" EmptyString in
  let delta := js ("data: {'choices':[{'delta':{'tool_calls':[{'index':0,'id':'call_1',"
                   +:+ "'function':{'name':'search','arguments':'{\'q\':'}}]}}]}") +:+ lf in
  let stop := js "data: {'choices':[{'delta':{},'finish_reason':'stop'}]}" +:+ lf in
  let sentinel := "data: [DONE]" +:+ lf in
  let turn chunks :=
    @Provider.provideLanguageModelChatResponse Reference.runtime "gpt-x" Provider.initialState
      (Provider.Streamed Adapters.ChatCompletions chunks Provider.EndOfStream) in
  (snd (turn [delta; stop]) = Provider.Thrown "Invalid JSON for tool call"
   /\ snd (fst (turn [delta; stop])) = [])
  /\ (snd (turn [delta; sentinel]) = Provider.Normal
      /\ snd (fst (turn [delta; sentinel])) = []).
Proof. vm_compute. repeat split; reflexivity. Qed.

(** The round trip of the inline tokenizer: the control tokens are
    stripped from the visible text and the call is reported once. *)
Example inline_tokenizer_round_trip :
  snd (fst (@Run.runEvents Reference.runtime "gpt-x" Provider.initialState
              [text (js ("before <|tool_call_begin|>foo<|tool_call_argument_begin|>"
                         +:+ "{'x':1}<|tool_call_end|> after"))]))
  = [LanguageModelToolCallPart (FreshId "tct_") "foo" (JObj [("x", JNum 1)]);
     LanguageModelTextPart "before  after"].
Proof. vm_compute. reflexivity. Qed.

(** The eager-emission scenario on a chat stream cut into three chunks:
    the call is reported when the third chunk is read. *)
Example eager_emission_scenario :
  let lf := String "010" EmptyString in
  let chunk args :=
    js ("data: {'choices':[{'delta':{'tool_calls':[{'index':0,'id':'call_1',"
        +:+ "'function':{'name':'lookup','arguments':'" +:+ args +:+ "'}}]}}]}") +:+ lf in
  let turn chunks :=
    @Provider.provideLanguageModelChatResponse Reference.runtime "gpt-x" Provider.initialState
      (Provider.Streamed Adapters.ChatCompletions chunks Provider.Cancelled) in
  let call := LanguageModelToolCallPart (GivenId "call_1") "lookup" (JObj [("a", JNum 1)]) in
  snd (fst (turn [chunk "{\'a"; chunk "\':1"])) = []
  /\ snd (fst (turn [chunk "{\'a"; chunk "\':1"; chunk "}"])) = [call]
  /\ snd (fst (turn [chunk "{\'a"; chunk "\':1"; chunk "}"; chunk "}"])) = [call].
Proof. vm_compute. repeat split; reflexivity. Qed.

(* ===================================================================== *)
(** * Further properties of the code *)
(* ===================================================================== *)

(** ** Lines and chunks of the response stream *)

Module FramingFacts.
Import JsString Provider Framing.

Lemma splitLines_not_nil (s : string) : splitLines s <> [].
Proof.
  induction s as [|c s IH]; simpl; [discriminate |].
  destruct (Ascii.eqb c "010"); [discriminate |].
  destruct (splitLines s); [contradiction | discriminate].
Qed.

Lemma splitLines_cons (c : ascii) (s : string) :
  splitLines (String c s)
  = if Ascii.eqb c "010" then EmptyString :: splitLines s
    else match splitLines s with
         | l :: ls => String c l :: ls
         | [] => [String c EmptyString]
         end.
Proof. reflexivity. Qed.

(** The lines of a text followed by more text: the complete lines of the
    text, then the lines of its unfinished last line followed by the rest. *)
Lemma splitLines_app (a b : string) :
  splitLines (a +:+ b)
  = List.removelast (splitLines a) ++ splitLines (List.last (splitLines a) EmptyString +:+ b).
Proof.
  induction a as [|c a IH]; [reflexivity |].
  rewrite JsStringFacts.append_cons, !splitLines_cons.
  destruct (Ascii.eqb c "010") eqn:Ec.
  - rewrite IH. pose proof (splitLines_not_nil a) as Hne.
    destruct (splitLines a) as [|l ls]; [contradiction |]. reflexivity.
  - rewrite IH. pose proof (splitLines_not_nil a) as Hne.
    destruct (splitLines a) as [|l [|l' ls]]; [contradiction | |].
    + cbn [List.removelast List.last app].
      rewrite JsStringFacts.append_cons, splitLines_cons, Ec. reflexivity.
    + cbn [List.removelast List.last app]. reflexivity.
Qed.

Lemma indexOf_line_feed_cons (c : ascii) (s : string) :
  indexOf (String c s) lineFeed
  = if Ascii.eqb "010" c then Some 0%nat else option_map S (indexOf s lineFeed).
Proof.
  unfold lineFeed. cbn [indexOf startsWith].
  destruct (Ascii.eqb "010" c); [destruct s |]; reflexivity.
Qed.

(** A text without a line feed is one unfinished line. *)
Lemma splitLines_no_line_feed (s : string) :
  indexOf s lineFeed = None -> splitLines s = [s].
Proof.
  induction s as [|c s IH]; [reflexivity |].
  rewrite indexOf_line_feed_cons, splitLines_cons, (Ascii.eqb_sym c).
  destruct (Ascii.eqb "010" c); [intros H; discriminate H |].
  destruct (indexOf s lineFeed); [intros H; discriminate H |].
  intros _. now rewrite IH.
Qed.

Lemma no_line_feed_append (a b : string) :
  indexOf a lineFeed = None -> indexOf b lineFeed = None ->
  indexOf (a +:+ b) lineFeed = None.
Proof.
  intros Ha Hb. induction a as [|c a IH]; [exact Hb |].
  rewrite JsStringFacts.append_cons, indexOf_line_feed_cons in *.
  destruct (Ascii.eqb "010" c); [discriminate Ha |].
  destruct (indexOf a lineFeed); [discriminate Ha |].
  now rewrite IH.
Qed.

Lemma last_app_not_nil {A : Type} (l1 l2 : list A) (d : A) :
  l2 <> [] -> List.last (l1 ++ l2) d = List.last l2 d.
Proof.
  intros Hne. induction l1 as [|x l1 IH]; [reflexivity |].
  cbn [app List.last]. rewrite IH.
  destruct (l1 ++ l2) eqn:E; [| reflexivity].
  apply app_eq_nil in E as [_ E]. contradiction.
Qed.

Section WithRuntime.
Context `{RT : Runtime}.

(** Lines handled one list after the other. *)
Lemma processLines_app (modelId : string) (l1 l2 : list string)
    (ad : Adapters.LLMAdapter) (st : State) :
  processLines modelId ad st (l1 ++ l2)
  = match processLines modelId ad st l1 with
    | (ad1, st1, out1, Normal) =>
        let '(ad2, st2, out2, o) := processLines modelId ad1 st1 l2 in
        (ad2, st2, out1 ++ out2, o)
    | (ad1, st1, out1, Thrown m) => (ad1, st1, out1, Thrown m)
    end.
Proof.
  revert ad st; induction l1 as [|line l1 IH]; intros ad st.
  - cbn [app processLines].
    destruct (processLines modelId ad st l2) as [[[ad2 st2] out2] o]. reflexivity.
  - cbn [app processLines].
    destruct (Adapters.parseStreamEvent ad line) as [ad1 event].
    destruct (processEvent modelId st event) as [[st1 out1] [|m]]; [| reflexivity].
    rewrite IH.
    destruct (processLines modelId ad1 st1 l1) as [[[ad2 st2] out2] [|m2]]; [| reflexivity].
    destruct (processLines modelId ad2 st2 l2) as [[[ad3 st3] out3] o].
    now rewrite app_assoc.
Qed.

(** The loop does not see where the stream was cut: two chunks read one
    after the other give what their concatenation read at once gives. *)
Lemma readLoop_merge (modelId : string) (ad : Adapters.LLMAdapter) (st : State)
    (buffer c1 c2 : string) (rest : list string) (ending : StreamEnd) :
  readLoop modelId ad st buffer (c1 :: c2 :: rest) ending
  = readLoop modelId ad st buffer ((c1 +:+ c2) :: rest) ending.
Proof.
  cbn [readLoop].
  rewrite <- (JsStringFacts.append_assoc buffer c1 c2), (splitLines_app (buffer +:+ c1) c2).
  set (lines1 := splitLines (buffer +:+ c1)).
  set (lines2 := splitLines (List.last lines1 EmptyString +:+ c2)).
  assert (Hne : lines2 <> []) by apply splitLines_not_nil.
  rewrite (List.removelast_app _ Hne), (last_app_not_nil _ _ _ Hne), processLines_app.
  destruct (processLines modelId ad st (List.removelast lines1)) as [[[ad1 st1] out1] [|m]];
    [| reflexivity].
  destruct (processLines modelId ad1 st1 (List.removelast lines2)) as [[[ad2 st2] out2] [|m]];
    [| reflexivity].
  destruct (readLoop modelId ad2 st2 (List.last lines2 EmptyString) rest ending)
    as [[st3 out3] o].
  now rewrite app_assoc.
Qed.

(** Reading chunks one after the other is reading their concatenation. *)
Lemma readLoop_concat (modelId : string) (rest : list string) :
  forall (ad : Adapters.LLMAdapter) (st : State) (buffer c : string) (ending : StreamEnd),
  readLoop modelId ad st buffer (c :: rest) ending
  = readLoop modelId ad st buffer [c +:+ joinChunks rest] ending.
Proof.
  induction rest as [|c2 rest IH]; intros ad st buffer c ending.
  - cbn [joinChunks]. now rewrite JsStringFacts.append_empty_r.
  - rewrite readLoop_merge, IH. cbn [joinChunks].
    now rewrite JsStringFacts.append_assoc.
Qed.

Lemma joinChunks_app (l1 l2 : list string) :
  joinChunks (l1 ++ l2) = joinChunks l1 +:+ joinChunks l2.
Proof.
  induction l1 as [|c l1 IH]; [reflexivity |].
  cbn [app joinChunks]. now rewrite IH, JsStringFacts.append_assoc.
Qed.


Lemma readLoop_joined (modelId : string) (ad : Adapters.LLMAdapter) (st : State)
    (chunks : list string) (ending : StreamEnd) :
  readLoop modelId ad st EmptyString chunks ending
  = readLoop modelId ad st EmptyString [joinChunks chunks] ending.
Proof.
  destruct chunks as [|c rest]; [reflexivity | apply readLoop_concat].
Qed.

End WithRuntime.

(** The lines of a text, a line feed and more text. *)
Lemma splitLines_line_feed (a b : string) :
  splitLines (a +:+ lineFeed +:+ b) = splitLines a ++ splitLines b.
Proof.
  induction a as [|c a IH]; [reflexivity |].
  rewrite JsStringFacts.append_cons, !splitLines_cons, IH.
  pose proof (splitLines_not_nil a) as Hne.
  destruct (Ascii.eqb c "010"); [reflexivity |].
  destruct (splitLines a); [contradiction | reflexivity].
Qed.

Lemma complete_lines (a tail : string) :
  indexOf tail lineFeed = None ->
  List.removelast (splitLines (a +:+ lineFeed +:+ tail)) = splitLines a.
Proof.
  intros Htail.
  rewrite splitLines_line_feed, (splitLines_no_line_feed _ Htail).
  apply List.removelast_last.
Qed.

Lemma readLoop_last_line `{RT : Runtime} (modelId : string) (ad : Adapters.LLMAdapter)
    (st : State) (a tail : string) (ending : StreamEnd) :
  indexOf tail lineFeed = None ->
  readLoop modelId ad st EmptyString [a +:+ lineFeed +:+ tail] ending
  = readLoop modelId ad st EmptyString [a +:+ lineFeed] ending.
Proof.
  intros Htail. cbn [readLoop]. rewrite !JsStringFacts.append_nil.
  rewrite (complete_lines a tail Htail).
  replace (a +:+ lineFeed) with (a +:+ lineFeed +:+ EmptyString)
    by now rewrite JsStringFacts.append_empty_r.
  now rewrite (complete_lines a EmptyString).
Qed.

End FramingFacts.

(** The chunks in which the response body arrives do not matter: a body
    read in any number of chunks is handled as the same body read in one
    chunk ([processStreamingResponse], provider.ts). *)
Theorem stream_chunking_is_invisible `{RT : Runtime} (modelId : string)
    (ad : Adapters.LLMAdapter) (st : Provider.State) (chunks : list string)
    (ending : Provider.StreamEnd) :
  Provider.processStreamingResponse modelId ad st chunks ending
  = Provider.processStreamingResponse modelId ad st [Framing.joinChunks chunks] ending.
Proof.
  unfold Provider.processStreamingResponse.
  now rewrite FramingFacts.readLoop_joined.
Qed.

(** What follows the last line feed of the body is never parsed: a last
    line that is not terminated, whatever it holds, changes nothing
    ([processStreamingResponse], provider.ts). *)
Theorem unterminated_last_line_is_ignored `{RT : Runtime} (modelId : string)
    (ad : Adapters.LLMAdapter) (st : Provider.State) (chunks : list string)
    (tail : string) (ending : Provider.StreamEnd) :
  JsString.indexOf tail Framing.lineFeed = None ->
  Provider.processStreamingResponse modelId ad st
    (chunks ++ [Framing.lineFeed +:+ tail]) ending
  = Provider.processStreamingResponse modelId ad st (chunks ++ [Framing.lineFeed]) ending.
Proof.
  intros Htail. unfold Provider.processStreamingResponse.
  rewrite (FramingFacts.readLoop_joined modelId ad st (chunks ++ [Framing.lineFeed +:+ tail])).
  rewrite (FramingFacts.readLoop_joined modelId ad st (chunks ++ [Framing.lineFeed])).
  rewrite !FramingFacts.joinChunks_app. cbn [Framing.joinChunks].
  rewrite !JsStringFacts.append_empty_r.
  now rewrite (FramingFacts.readLoop_last_line modelId ad st _ tail ending Htail).
Qed.

(** A line feed followed by a complete [done] line that is not terminated:
    the line is not parsed, so the buffers are not flushed. *)
Lemma unterminated_last_line_witness :
  JsString.indexOf "data: [DONE]" Framing.lineFeed = None
  /\ @Provider.processStreamingResponse Reference.runtime "m" Adapters.ChatCompletions
       Provider.initialState ([] ++ [Framing.lineFeed +:+ "data: [DONE]"]) Provider.EndOfStream
     = @Provider.processStreamingResponse Reference.runtime "m" Adapters.ChatCompletions
         Provider.initialState ([] ++ [Framing.lineFeed]) Provider.EndOfStream.
Proof.
  split; [reflexivity |].
  apply (@unterminated_last_line_is_ignored Reference.runtime). reflexivity.
Defined.


(** ** The table of tool-call buffers *)

Module BufferFacts.
Import Provider Buffers.

Section Keys.
Context {V : Type}.

Lemma keys_set (k i : Z) (v : V) (m : list (Z * V)) :
  i ∈ List.map fst (NumMap.set k v m) <-> i = k \/ i ∈ List.map fst m.
Proof.
  induction m as [|[k' v'] m IH]; cbn [NumMap.set List.map fst].
  - rewrite elem_of_cons, elem_of_nil. tauto.
  - destruct (Z.eqb_spec k k') as [-> | Hne]; cbn [List.map fst];
      rewrite !elem_of_cons, ?IH; tauto.
Qed.

Lemma keys_set_NoDup (k : Z) (v : V) (m : list (Z * V)) :
  NoDup (List.map fst m) -> NoDup (List.map fst (NumMap.set k v m)).
Proof.
  induction m as [|[k' v'] m IH]; cbn [NumMap.set List.map fst]; intros Hnd.
  - apply NoDup_cons. split; [apply not_elem_of_nil | constructor].
  - destruct (Z.eqb_spec k k') as [-> | Hne]; cbn [List.map fst]; [exact Hnd |].
    apply NoDup_cons in Hnd as [Hnotin Hnd].
    apply NoDup_cons. split; [| now apply IH].
    rewrite keys_set. intros [-> | Hin]; [now apply Hne | contradiction].
Qed.

Lemma keys_delete (k i : Z) (m : list (Z * V)) :
  i ∈ List.map fst (NumMap.delete k m) -> i ∈ List.map fst m.
Proof.
  induction m as [|[k' v'] m IH]; cbn [NumMap.delete List.map fst]; [tauto |].
  destruct (Z.eqb_spec k k') as [-> | Hne]; cbn [List.map fst];
    rewrite !elem_of_cons; tauto.
Qed.

Lemma keys_delete_NoDup (k : Z) (m : list (Z * V)) :
  NoDup (List.map fst m) ->
  NoDup (List.map fst (NumMap.delete k m)) /\ k ∉ List.map fst (NumMap.delete k m).
Proof.
  induction m as [|[k' v'] m IH]; cbn [NumMap.delete List.map fst]; intros Hnd.
  - split; [constructor | apply not_elem_of_nil].
  - apply NoDup_cons in Hnd as [Hnotin Hnd].
    destruct (Z.eqb_spec k k') as [-> | Hne]; cbn [List.map fst].
    + split; assumption.
    + destruct (IH Hnd) as [Hnd' Hk]. split.
      * apply NoDup_cons. split; [| exact Hnd'].
        intros Hin. apply Hnotin. eapply keys_delete, Hin.
      * rewrite elem_of_cons. tauto.
Qed.

(** Deleting the key of an entry that no earlier entry has removes that
    entry. *)
Lemma delete_entry (k : Z) (v : V) (kept rest : list (Z * V)) :
  k ∉ List.map fst kept ->
  NumMap.delete k (kept ++ (k, v) :: rest) = kept ++ rest.
Proof.
  induction kept as [|[k' v'] kept IH]; cbn [app NumMap.delete List.map fst]; intros Hnotin.
  - now rewrite Z.eqb_refl.
  - rewrite elem_of_cons in Hnotin.
    destruct (Z.eqb_spec k k') as [-> | Hne]; [tauto |].
    rewrite IH; [reflexivity | tauto].
Qed.

Lemma keys_app (a b : list (Z * V)) :
  List.map fst (a ++ b) = List.map fst a ++ List.map fst b.
Proof. apply List.map_app. Qed.

End Keys.

(** One case split of the loop of the inline tokenizer. *)
Ltac loop_case H :=
  lazymatch type of H with
  | Some _ = Some _ => injection H as <-
  | None = Some _ => discriminate H
  | textLoop _ _ = Some _ => fail
  | match ?x with _ => _ end = _ => destruct x eqn:?
  end.

Section WithRuntime.
Context `{RT : Runtime}.

(** Completing an index: its buffer is deleted and the index recorded. *)
Lemma complete_consistent (st : State) (index : Z) (key : string) :
  consistent st ->
  consistent (addCompleted
                (setBuffers (addKey st key)
                   (NumMap.delete index (_toolCallBuffers (addKey st key)))) index).
Proof.
  intros [Hnd Hdis]. unfold consistent, indices in *.
  cbn [_toolCallBuffers _completedToolCallIndices addCompleted setBuffers addKey].
  destruct (keys_delete_NoDup index _ Hnd) as [Hnd' Hk].
  split; [exact Hnd' |].
  intros i Hin Hcompleted. apply elem_of_union in Hcompleted as [Hi | Hi].
  - apply elem_of_singleton in Hi as ->. contradiction.
  - exact (Hdis i (keys_delete _ _ _ Hin) Hi).
Qed.

Lemma tryEmitBufferedToolCall_consistent (st : State) (index : Z) :
  consistent st -> consistent (fst (tryEmitBufferedToolCall st index)).
Proof.
  intros Hc. unfold tryEmitBufferedToolCall.
  destruct (NumMap.get index (_toolCallBuffers st)) as [buf|]; [| exact Hc].
  destruct (ToolCallBuffer.name buf) as [name|]; [| exact Hc].
  destruct (String.eqb name EmptyString); [exact Hc |].
  destruct (tryParseJSONObject (ToolCallBuffer.args buf)) as [parameters|]; [| exact Hc].
  cbn [fst]. now apply complete_consistent.
Qed.

Lemma flushEntries_consistent (entries : list (Z * ToolCallBuffer.t)) (throwOnInvalid : bool) :
  forall st : State,
  consistent st -> consistent (fst (fst (flushEntries entries throwOnInvalid st))).
Proof.
  induction entries as [|[idx buf] entries IH]; intros st Hc; [exact Hc |].
  cbn [flushEntries].
  destruct (tryParseJSONObject (ToolCallBuffer.args buf)) as [value|].
  - match goal with |- context [flushEntries entries throwOnInvalid ?s] =>
      specialize (IH s); destruct (flushEntries entries throwOnInvalid s) as [[st3 out3] err3]
    end.
    cbn [fst] in *. apply IH. now apply complete_consistent.
  - destruct throwOnInvalid; [exact Hc | now apply IH].
Qed.

(** The inline tokenizer does not touch the two tables. *)
Lemma emitTextToolCallIfValid_tables (st : State) (call : TextToolActive.t) (argText : string) :
  let st' := snd (fst (emitTextToolCallIfValid st call argText)) in
  _toolCallBuffers st' = _toolCallBuffers st
  /\ _completedToolCallIndices st' = _completedToolCallIndices st.
Proof.
  unfold emitTextToolCallIfValid.
  destruct (tryParseJSONObject argText) as [value|]; [| split; reflexivity].
  destruct (TextToolActive.index call) as [i|]; case_bool_decide; split; reflexivity.
Qed.

Lemma textLoop_tables (fuel : nat) (v v' : LoopVars) :
  textLoop fuel v = Some v' ->
  _toolCallBuffers (state v') = _toolCallBuffers (state v)
  /\ _completedToolCallIndices (state v') = _completedToolCallIndices (state v).
Proof.
  revert v v'; induction fuel as [|fuel IH]; intros v v' H; [discriminate H |].
  cbn [textLoop] in H.
  repeat loop_case H.
  all: try (apply IH in H; cbn [state] in H).
  all: cbn [state].
  all: repeat match goal with
       | E : emitTextToolCallIfValid ?s ?c ?a = _ |- _ =>
           let T := fresh "T" in
           pose proof (emitTextToolCallIfValid_tables s c a) as T;
           rewrite E in T; cbn [fst snd] in T; destruct T; clear E
       end.
  all: cbn [_toolCallBuffers _completedToolCallIndices setActive setParserBuffer] in *.
  all: repeat match goal with Hc : _ /\ _ |- _ => destruct Hc end.
  all: split; congruence.
Qed.

Lemma processTextContent_tables (st : State) (input : string) :
  let st' := snd (fst (processTextContent st input)) in
  _toolCallBuffers st' = _toolCallBuffers st
  /\ _completedToolCallIndices st' = _completedToolCallIndices st.
Proof.
  unfold processTextContent.
  match goal with |- context [textLoop ?f ?w] =>
    destruct (KeyFacts.textLoop_terminates f w) as [v Hv]; [cbn [data]; lia | rewrite Hv] end.
  apply textLoop_tables in Hv. cbn [state] in Hv.
  destruct (negb (String.eqb (visibleOut v) EmptyString)); cbn [fst snd]; exact Hv.
Qed.

Lemma flushActiveTextToolCall_tables (st : State) :
  let st' := fst (flushActiveTextToolCall st) in
  _toolCallBuffers st' = _toolCallBuffers st
  /\ _completedToolCallIndices st' = _completedToolCallIndices st.
Proof.
  unfold flushActiveTextToolCall.
  destruct (_textToolActive st) as [act|]; [| split; reflexivity].
  destruct (tryParseJSONObject (TextToolActive.argBuffer act)); [| split; reflexivity].
  pose proof (emitTextToolCallIfValid_tables st act (TextToolActive.argBuffer act)) as T.
  destruct (emitTextToolCallIfValid st act (TextToolActive.argBuffer act)) as [[did st1] out1].
  exact T.
Qed.

Lemma tables_consistent (st st' : State) :
  _toolCallBuffers st' = _toolCallBuffers st
  /\ _completedToolCallIndices st' = _completedToolCallIndices st ->
  consistent st -> consistent st'.
Proof. unfold consistent, indices. intros [-> ->] H. exact H. Qed.

Lemma flushSilently_consistent (st : State) :
  consistent st -> consistent (fst (flushSilently st)).
Proof.
  intros Hc. unfold flushSilently. rewrite FlushFacts.flushToolCallBuffers_entries.
  pose proof (flushEntries_consistent (_toolCallBuffers st) false st Hc) as H1.
  destruct (flushEntries (_toolCallBuffers st) false st) as [[st1 out1] err].
  pose proof (flushActiveTextToolCall_tables st1) as H2.
  destruct (flushActiveTextToolCall st1) as [st2 out2]. cbn [fst] in *.
  exact (tables_consistent _ _ H2 H1).
Qed.

(** Every event keeps the tables consistent. *)
Lemma processEvent_consistent (modelId : string) (st : State) (event : StreamEvent) :
  consistent st -> consistent (fst (fst (processEvent modelId st event))).
Proof.
  intros Hc.
  destruct event as [content | index id name args | t i m | marker | reason | |];
    cbn [processEvent].
  - pose proof (processTextContent_tables st content) as T.
    destruct (processTextContent st content) as [[[emittedText any] st1] out1].
    cbn [fst snd] in *.
    destruct emittedText; cbn [fst]; apply (tables_consistent st); try exact Hc;
      cbn [_toolCallBuffers _completedToolCallIndices setHasEmittedAssistantText]; exact T.
  - set (hint := negb (_emittedBeginToolCallsHint st) && _hasEmittedAssistantText st).
    set (st0 := if hint then setEmittedBeginToolCallsHint st true else st).
    assert (Hc0 : consistent st0).
    { apply (tables_consistent st); [| exact Hc]. unfold st0. destruct hint; split; reflexivity. }
    case_bool_decide as Hdone; [exact Hc0 |].
    match goal with |- context [tryEmitBufferedToolCall ?s index] =>
      pose proof (tryEmitBufferedToolCall_consistent s index) as T;
      destruct (tryEmitBufferedToolCall s index) as [st2 out2] end.
    cbn [fst] in *. apply T. destruct Hc0 as [Hnd Hdis].
    unfold consistent, indices in *.
    cbn [_toolCallBuffers _completedToolCallIndices setBuffers].
    split; [now apply keys_set_NoDup |].
    intros i Hin. apply keys_set in Hin as [-> | Hin]; [exact Hdone | now apply Hdis].
  - exact Hc.
  - pose proof (flushSilently_consistent st Hc) as T.
    destruct (flushSilently st) as [st1 out1]. exact T.
  - destruct reason as [| | | r | |]; try exact Hc.
    destruct (String.eqb r "tool_calls" || String.eqb r "stop"); [| exact Hc].
    rewrite FlushFacts.flushToolCallBuffers_entries.
    pose proof (flushEntries_consistent (_toolCallBuffers st) true st Hc) as T.
    destruct (flushEntries (_toolCallBuffers st) true st) as [[st1 out1] err]. exact T.
  - pose proof (flushSilently_consistent st Hc) as T.
    destruct (flushSilently st) as [st1 out1]. exact T.
  - exact Hc.
Qed.

Lemma runEvents_consistent (modelId : string) (events : list StreamEvent) :
  forall st : State,
  consistent st -> consistent (fst (fst (Run.runEvents modelId st events))).
Proof.
  induction events as [|ev events IH]; intros st Hc; [exact Hc |].
  cbn [Run.runEvents].
  pose proof (processEvent_consistent modelId st ev Hc) as H1.
  destruct (processEvent modelId st ev) as [[st1 out1] [|m]]; cbn [fst] in *; [| exact H1].
  specialize (IH st1 H1).
  destruct (Run.runEvents modelId st1 events) as [[st2 out2] o]. exact IH.
Qed.

(** A silent flush leaves the buffers it could not parse, in their order,
    behind the buffers that were not part of the snapshot. *)
Lemma flushEntries_silent_remaining (entries : list (Z * ToolCallBuffer.t)) :
  forall (kept : list (Z * ToolCallBuffer.t)) (st : State),
  _toolCallBuffers st = kept ++ entries ->
  NoDup (List.map fst (kept ++ entries)) ->
  _toolCallBuffers (fst (fst (flushEntries entries false st)))
  = kept ++ List.filter (fun e => negb (parses e)) entries.
Proof.
  induction entries as [|[idx buf] entries IH]; intros kept st Hb Hnd.
  - exact Hb.
  - cbn [flushEntries List.filter]. unfold parses at 1. cbn [snd].
    destruct (tryParseJSONObject (ToolCallBuffer.args buf)) as [value|]; cbn [negb].
    + match goal with |- context [flushEntries entries false ?s] =>
        specialize (IH kept s); destruct (flushEntries entries false s) as [[st3 out3] err3]
      end.
      cbn [fst] in *. apply IH.
      * cbn [_toolCallBuffers addCompleted setBuffers addKey]. rewrite Hb.
        apply delete_entry. rewrite keys_app in Hnd. cbn [List.map fst] in Hnd.
        apply NoDup_app in Hnd as (_ & Hdis & _). intros Hin.
        apply (Hdis idx Hin), elem_of_cons. now left.
      * rewrite keys_app in *. cbn [List.map fst] in Hnd.
        apply NoDup_app in Hnd as (Hk & Hdis & Hrest).
        apply NoDup_cons in Hrest as [_ Hrest].
        apply NoDup_app. split; [exact Hk | split; [| exact Hrest]].
        intros x Hx Hin. apply (Hdis x Hx), elem_of_cons. now right.
    + rewrite (IH (kept ++ [(idx, buf)]) st); rewrite <- ?app_assoc; try reflexivity; assumption.
Qed.

(** A flush that throws works through the buffers in order: the calls of
    the buffers before the first failure are reported and their buffers
    deleted, the others stay. *)
Lemma flushEntries_throwing (entries : list (Z * ToolCallBuffer.t)) :
  forall st : State,
  _toolCallBuffers st = entries ->
  exists st' : State,
    flushEntries entries true st
    = (st', flat_map ReconstructorSpec.flushedCall (parsedPrefix entries),
       match fromFirstFailure entries with
       | [] => None
       | _ :: _ => Some "Invalid JSON for tool call"
       end)
    /\ _toolCallBuffers st' = fromFirstFailure entries.
Proof.
  induction entries as [|[idx buf] entries IH]; intros st Hb.
  - exists st. split; [reflexivity | exact Hb].
  - cbn [flushEntries parsedPrefix fromFirstFailure]. unfold parses.
    unfold ReconstructorSpec.flushedCall at 1. cbn [snd].
    destruct (tryParseJSONObject (ToolCallBuffer.args buf)) as [value|] eqn:E.
    + match goal with |- context [flushEntries entries true ?s] =>
        destruct (IH s) as (st' & -> & Hst') end.
      { cbn [_toolCallBuffers addCompleted setBuffers addKey]. rewrite Hb.
        cbn [NumMap.delete]. now rewrite Z.eqb_refl. }
      exists st'. split; [| exact Hst'].
      cbn [flat_map]. unfold ReconstructorSpec.flushedCall at 1. cbn [snd]. now rewrite E.
    + exists st. split; [reflexivity | exact Hb].
Qed.

End WithRuntime.
End BufferFacts.

(** An index never has a buffer once its call was reported: whatever the
    events of a turn, the table of buffers holds one buffer for an index
    and none for an index recorded as completed ([processStreamingResponse],
    [tryEmitBufferedToolCall], [flushToolCallBuffers], provider.ts). *)
Theorem completed_indices_have_no_buffer `{RT : Runtime} (modelId : string)
    (st : Provider.State) (events : list StreamEvent) :
  Buffers.consistent
    (fst (fst (Run.runEvents modelId (Provider.resetAtTurnStart st) events))).
Proof.
  apply BufferFacts.runEvents_consistent.
  split; [constructor | intros i Hin; now apply elem_of_nil in Hin].
Qed.

(** A flush at a [finish] works through the buffers in order and stops at
    the first one whose arguments do not parse: the calls before it are
    reported and their buffers deleted, that buffer and the ones after it
    stay, and the error is thrown exactly when there is such a buffer
    ([flushToolCallBuffers], provider.ts). *)
Theorem throwing_flush_stops_at_first_failure `{RT : Runtime} (st : Provider.State) :
  exists st' : Provider.State,
    Provider.flushToolCallBuffers st true
    = (st',
       flat_map ReconstructorSpec.flushedCall
         (Buffers.parsedPrefix (Provider._toolCallBuffers st)),
       match Buffers.fromFirstFailure (Provider._toolCallBuffers st) with
       | [] => None
       | _ :: _ => Some "Invalid JSON for tool call"
       end)
    /\ Provider._toolCallBuffers st'
       = Buffers.fromFirstFailure (Provider._toolCallBuffers st).
Proof.
  rewrite FlushFacts.flushToolCallBuffers_entries.
  now apply BufferFacts.flushEntries_throwing.
Qed.

(** After [done], the buffers left are the ones whose arguments do not
    parse, in their order; the calls of all the others were reported, in
    their order, before anything the inline tokenizer still held, and
    their buffers deleted ([processStreamingResponse],
    [flushToolCallBuffers], provider.ts). *)
Theorem done_leaves_only_unparseable_buffers `{RT : Runtime} (modelId : string)
    (st : Provider.State) :
  Buffers.consistent st ->
  exists (st' : Provider.State) (inline : list LanguageModelResponsePart),
    Provider.processEvent modelId st done
    = (st', flat_map ReconstructorSpec.flushedCall (Provider._toolCallBuffers st) ++ inline,
       Provider.Normal)
    /\ Provider._toolCallBuffers st'
       = List.filter (fun e => negb (Buffers.parses e)) (Provider._toolCallBuffers st).
Proof.
  intros [Hnd _]. cbn [Provider.processEvent]. unfold Provider.flushSilently.
  rewrite FlushFacts.flushToolCallBuffers_entries.
  pose proof (BufferFacts.flushEntries_silent_remaining (Provider._toolCallBuffers st)
                [] st eq_refl Hnd) as Hrest.
  destruct (FlushFacts.flushEntries_silent (Provider._toolCallBuffers st) st) as [st1 E].
  rewrite E in *. cbn [fst] in Hrest.
  pose proof (BufferFacts.flushActiveTextToolCall_tables st1) as [Hb _].
  destruct (Provider.flushActiveTextToolCall st1) as [st2 out2]. cbn [fst] in Hb.
  exists st2, out2. split; [reflexivity | now rewrite Hb].
Qed.

(** Two buffers, the first with arguments cut short: [done] reports the
    second and leaves the first. *)
Lemma done_leaves_only_unparseable_witness :
  let broken := {| ToolCallBuffer.id := Some "a"; ToolCallBuffer.name := Some "f";
                   ToolCallBuffer.args := js "{'x':" |} in
  let whole := {| ToolCallBuffer.id := Some "b"; ToolCallBuffer.name := Some "g";
                  ToolCallBuffer.args := js "{'y':2}" |} in
  let st := Provider.setBuffers Provider.initialState [(0%Z, broken); (1%Z, whole)] in
  exists (st' : Provider.State) (inline : list LanguageModelResponsePart),
    @Provider.processEvent Reference.runtime "m" st done
    = (st', [LanguageModelToolCallPart (GivenId "b") "g" (JObj [("y", JNum 2)])] ++ inline,
       Provider.Normal)
    /\ Provider._toolCallBuffers st' = [(0%Z, broken)].
Proof.
  intros broken whole st.
  apply (@done_leaves_only_unparseable_buffers Reference.runtime "m" st).
  split.
  - apply NoDup_cons. split; [| apply NoDup_cons; split; [apply not_elem_of_nil | constructor]].
    intros Hin. apply elem_of_cons in Hin as [E | Hin]; [discriminate E |].
    now apply elem_of_nil in Hin.
  - intros i Hin. apply not_elem_of_empty.
Defined.

(** ** The inline tokenizer on text without markers *)

Module TokenizerFacts.
Import JsString Provider.

(** [includes s "<"], one character at a time. *)
Lemma includes_lt_cons (c : ascii) (s : string) :
  includes (String c s) "<" = Ascii.eqb "<" c || includes s "<".
Proof.
  unfold includes. cbn [indexOf startsWith].
  destruct (Ascii.eqb "<" c); [now destruct s |].
  cbn [orb]. replace (false && startsWith s EmptyString) with false by reflexivity.
  now destruct (indexOf s "<").
Qed.

Lemma includes_lt_append (a b : string) :
  includes (a +:+ b) "<" = includes a "<" || includes b "<".
Proof.
  induction a as [|c a IH]; [reflexivity |].
  rewrite JsStringFacts.append_cons, !includes_lt_cons, IH. apply orb_assoc.
Qed.

Lemma includes_lt_drop (n : nat) (s : string) :
  includes s "<" = false -> includes (drop n s) "<" = false.
Proof.
  revert s; induction n as [|n IH]; intros [|c s]; cbn [drop]; try (intros H; exact H).
  rewrite includes_lt_cons. intros H. apply orb_false_elim in H as [_ H]. now apply IH.
Qed.

(** Nothing that begins with [<] is found in a text without [<]. *)
Lemma startsWith_lt (s p : string) :
  includes s "<" = false -> startsWith s (String "<" p) = false.
Proof.
  destruct s as [|c s]; [reflexivity |].
  rewrite includes_lt_cons, ParserFacts.startsWith_cons. intros H.
  apply orb_false_elim in H as [-> _]. reflexivity.
Qed.

Lemma indexOf_cons_miss (c : ascii) (s p : string) :
  startsWith (String c s) p = false ->
  indexOf (String c s) p = option_map S (indexOf s p).
Proof. intros H. cbn [indexOf]. now rewrite H. Qed.

Lemma indexOf_hit (s p : string) : startsWith s p = true -> indexOf s p = Some 0%nat.
Proof. intros H. destruct s; cbn [indexOf]; now rewrite H. Qed.

(** The search for something that begins with [<] passes over a text
    without [<]. *)
Lemma indexOf_lt_append (a r p : string) :
  includes a "<" = false ->
  indexOf (a +:+ r) (String "<" p)
  = option_map (Nat.add (String.length a)) (indexOf r (String "<" p)).
Proof.
  induction a as [|c a IH]; intros Ha.
  - rewrite JsStringFacts.append_nil. now destruct (indexOf r (String "<" p)).
  - rewrite includes_lt_cons in Ha. apply orb_false_elim in Ha as [Hc Ha].
    rewrite JsStringFacts.append_cons, indexOf_cons_miss, (IH Ha).
    + now destruct (indexOf r (String "<" p)).
    + rewrite ParserFacts.startsWith_cons, Hc. reflexivity.
Qed.

Lemma indexOf_lt (s p : string) :
  includes s "<" = false -> indexOf s (String "<" p) = None.
Proof.
  intros H. rewrite <- (JsStringFacts.append_empty_r s), (indexOf_lt_append s _ p H).
  reflexivity.
Qed.

Lemma endsWith_lt (s p : string) :
  includes s "<" = false -> endsWith s (String "<" p) = false.
Proof.
  intros H. unfold endsWith.
  destruct (String.eqb_spec (drop (String.length s - String.length (String "<" p)) s)
              (String "<" p)) as [E | E]; [| apply andb_false_r].
  apply (includes_lt_drop (String.length s - String.length (String "<" p))) in H.
  rewrite E, includes_lt_cons in H. discriminate H.
Qed.

(** No prefix of the opening marker ends a text without [<]. *)
Lemma longestPartialPrefixFrom_lt (k : nat) (s : string) :
  includes s "<" = false -> longestPartialPrefixFrom k s = 0%nat.
Proof.
  intros H. induction k as [|k IH]; [reflexivity |].
  cbn [longestPartialPrefixFrom]. unfold BEGIN at 1. cbn [take].
  now rewrite (endsWith_lt s _ H).
Qed.

(** What the downward loop started at [m] finds. *)
Lemma longestPartialPrefixFrom_spec (m : nat) (s : string) :
  (longestPartialPrefixFrom m s <= m)%nat
  /\ ((0 < longestPartialPrefixFrom m s)%nat ->
      endsWith s (take (longestPartialPrefixFrom m s) BEGIN) = true)
  /\ forall j : nat,
       (longestPartialPrefixFrom m s < j)%nat -> (j <= m)%nat ->
       endsWith s (take j BEGIN) = false.
Proof.
  induction m as [|m (IHle & IHends & IHlongest)].
  - cbn [longestPartialPrefixFrom]. repeat split; intros; lia.
  - cbn [longestPartialPrefixFrom].
    destruct (endsWith s (take (S m) BEGIN)) eqn:E.
    + split; [lia | split; [intros _; exact E | intros j H1 H2; lia]].
    + split; [lia | split; [exact IHends |]].
      intros j H1 H2. destruct (Nat.eq_dec j (S m)) as [-> | Hne]; [exact E |].
      apply IHlongest; lia.
Qed.

Lemma removeMatches_none (matchLength : string -> option nat) (s : string) :
  (forall t : string, includes t "<" = false -> matchLength t = None) ->
  includes s "<" = false -> removeMatches matchLength 0 s = s.
Proof.
  intros Hnone. induction s as [|c s IH]; [reflexivity |].
  intros H. cbn [removeMatches]. rewrite (Hnone _ H).
  rewrite includes_lt_cons in H. apply orb_false_elim in H as [_ H].
  now rewrite (IH H).
Qed.

Lemma sectionMarkerLength_lt (t : string) :
  includes t "<" = false -> sectionMarkerLength t = None.
Proof. intros H. unfold sectionMarkerLength. now rewrite (startsWith_lt t _ H). Qed.

Lemma toolTokenLength_lt (t : string) :
  includes t "<" = false -> toolTokenLength t = None.
Proof.
  intros H. unfold toolTokenLength. cbn [List.find].
  now rewrite !(startsWith_lt t _ H).
Qed.

(** A text without [<] holds no control token. *)
Lemma stripControlTokens_lt (t : string) :
  includes t "<" = false -> stripControlTokens t = t.
Proof.
  intros H. unfold stripControlTokens.
  rewrite (removeMatches_none _ t sectionMarkerLength_lt H).
  exact (removeMatches_none _ t toolTokenLength_lt H).
Qed.

Lemma setParserBuffer_same (st : State) :
  _textToolParserBuffer st = EmptyString -> setParserBuffer st EmptyString = st.
Proof. destruct st. cbn. now intros ->. Qed.

Section WithRuntime.
Context `{RT : Runtime}.

(** A text without [<] met outside a call is the visible text. *)
Lemma textLoop_plain (fuel : nat) (v : LoopVars) :
  _textToolActive (state v) = None ->
  includes (data v) "<" = false ->
  data v <> EmptyString ->
  textLoop (S fuel) v
  = Some {| data := EmptyString; visibleOut := visibleOut v +:+ data v;
            emittedAny := emittedAny v; state := state v; reported := reported v |}.
Proof.
  intros Hidle Hlt Hne. cbn [textLoop].
  destruct (String.eqb_spec (data v) EmptyString) as [E | _]; [contradiction |].
  rewrite Hidle. unfold BEGIN at 1. rewrite (indexOf_lt _ _ Hlt).
  unfold longestPartialPrefix. rewrite (longestPartialPrefixFrom_lt _ _ Hlt).
  cbn [Nat.ltb Nat.leb]. now rewrite (stripControlTokens_lt _ Hlt).
Qed.

Lemma startsWith_append (p r : string) : startsWith (p +:+ r) p = true.
Proof.
  induction p as [|c p IH]; [now destruct r |].
  rewrite JsStringFacts.append_cons, ParserFacts.startsWith_cons, Ascii.eqb_refl. exact IH.
Qed.

Lemma take_append (a b : string) : take (String.length a) (a +:+ b) = a.
Proof.
  induction a as [|c a IH]; [now destruct b |].
  rewrite JsStringFacts.append_cons. cbn [String.length take]. now rewrite IH.
Qed.

Lemma drop_append_more (n : nat) (a b : string) :
  drop (String.length a + n) (a +:+ b) = drop n b.
Proof.
  induction a as [|c a IH]; [reflexivity |].
  rewrite JsStringFacts.append_cons. exact IH.
Qed.

Lemma drop_marker (a p r : string) :
  drop (String.length a + String.length p) (a +:+ p +:+ r) = r.
Proof. rewrite drop_append_more. apply JsStringFacts.drop_append. Qed.

(** Where a marker is found behind a text without [<]. *)
Lemma indexOf_marker (a p r : string) :
  includes a "<" = false ->
  indexOf (a +:+ String "<" p +:+ r) (String "<" p) = Some (String.length a).
Proof.
  intros Ha. rewrite (indexOf_lt_append a _ p Ha).
  rewrite (indexOf_hit _ _ (startsWith_append (String "<" p) r)).
  cbn [option_map]. now rewrite Nat.add_0_r.
Qed.

(** The closing marker is not found at the marker that opens the
    arguments, nor inside it. *)
Lemma indexOf_END_behind_ARG_BEGIN (rest : string) :
  match indexOf (ARG_BEGIN +:+ rest) END with
  | Some e => (0 < e)%nat
  | None => True
  end.
Proof.
  change ARG_BEGIN with (String "<" "|tool_call_argument_begin|>").
  rewrite JsStringFacts.append_cons, indexOf_cons_miss by reflexivity.
  destruct (indexOf _ END); cbn [option_map]; [lia | exact I].
Qed.

Lemma not_empty_append (a b : string) : b <> EmptyString -> a +:+ b <> EmptyString.
Proof.
  intros Hb E. apply (f_equal String.length) in E.
  rewrite JsStringFacts.length_append in E. destruct b; [contradiction | simpl in E; lia].
Qed.

(** The opening of an inline call: the text before the marker is
    visible, the header names the call, the loop goes on behind the marker
    that opens the arguments. *)
Lemma textLoop_open (fuel : nat) (v : LoopVars) (pre header rest : string)
    (name : option string) (index : option Z) :
  _textToolActive (state v) = None ->
  data v = pre +:+ BEGIN +:+ header +:+ ARG_BEGIN +:+ rest ->
  includes pre "<" = false ->
  includes header "<" = false ->
  matchHeader (trim header) = (name, index) ->
  textLoop (S fuel) v
  = textLoop fuel
      {| data := rest; visibleOut := visibleOut v +:+ pre; emittedAny := emittedAny v;
         state := setActive (state v)
                    (Some {| TextToolActive.name := name; TextToolActive.index := index;
                             TextToolActive.argBuffer := EmptyString;
                             TextToolActive.emitted := false |});
         reported := reported v |}.
Proof.
  intros Hidle Hdata Hpre Hheader Hname. cbn [textLoop].
  destruct (String.eqb_spec (data v) EmptyString) as [E | _].
  { exfalso. rewrite Hdata in E. revert E. apply not_empty_append.
    intros E; discriminate E. }
  rewrite Hidle, Hdata.
  unfold BEGIN at 1 2. rewrite (indexOf_marker pre _ _ Hpre). fold BEGIN.
  rewrite take_append, drop_marker.
  unfold ARG_BEGIN at 1 2. rewrite (indexOf_marker header _ _ Hheader). fold ARG_BEGIN.
  unfold END at 1. rewrite (indexOf_lt_append header _ _ Hheader). fold END.
  pose proof (indexOf_END_behind_ARG_BEGIN rest) as He.
  pose proof (drop_marker header ARG_BEGIN rest) as Hnext.
  assert (Hvisible :
    (if negb (String.eqb pre EmptyString)
     then visibleOut v +:+ stripControlTokens pre else visibleOut v)
    = visibleOut v +:+ pre).
  { destruct (String.eqb_spec pre EmptyString) as [-> | _]; cbn [negb].
    - rewrite JsStringFacts.append_empty_r; reflexivity.
    - rewrite (stripControlTokens_lt pre Hpre); reflexivity. }
  destruct (indexOf (ARG_BEGIN +:+ rest) END) as [e|]; cbn [option_map].
  - replace (String.length header <? String.length header + e)%nat with true
      by (symmetry; apply Nat.ltb_lt; lia).
    rewrite take_append, Hname, Hnext, Hvisible; reflexivity.
  - rewrite take_append, Hname, Hnext, Hvisible; reflexivity.
Qed.

(** The closing of an inline call whose arguments end in this chunk. *)
Lemma textLoop_close (fuel : nat) (v : LoopVars) (act : TextToolActive.t)
    (args rest : string) :
  _textToolActive (state v) = Some act ->
  TextToolActive.emitted act = false ->
  data v = args +:+ END +:+ rest ->
  includes args "<" = false ->
  textLoop (S fuel) v
  = let act1 := withArgBuffer act (TextToolActive.argBuffer act +:+ args) in
    let '(did, st', out) :=
      emitTextToolCallIfValid (state v) act1 (TextToolActive.argBuffer act1) in
    textLoop fuel
      {| data := rest; visibleOut := visibleOut v; emittedAny := emittedAny v || did;
         state := setActive st' None; reported := reported v ++ out |}.
Proof.
  intros Hactive Hemitted Hdata Hargs. cbn [textLoop].
  destruct (String.eqb_spec (data v) EmptyString) as [E | _].
  { exfalso. rewrite Hdata in E. revert E. apply not_empty_append.
    intros E; discriminate E. }
  rewrite Hactive, Hdata.
  unfold END at 1 2. rewrite (indexOf_marker args _ _ Hargs). fold END.
  rewrite take_append, drop_marker.
  cbn [TextToolActive.emitted withArgBuffer]. rewrite Hemitted. reflexivity.
Qed.

(** A call without an index whose key was not seen is reported. *)
Lemma emitTextToolCallIfValid_new (st : State) (call : TextToolActive.t)
    (argText name : string) (value : json) :
  TextToolActive.name call = Some name ->
  TextToolActive.index call = None ->
  tryParseJSONObject argText = Some value ->
  callKey name value ∉ _emittedTextToolCallKeys st ->
  emitTextToolCallIfValid st call argText
  = (true, addKey st (callKey name value),
     [LanguageModelToolCallPart (FreshId "tct_") name value]).
Proof.
  intros Hname Hindex Hparse Hnew. unfold emitTextToolCallIfValid.
  rewrite Hname, Hparse, Hindex. now case_bool_decide.
Qed.

End WithRuntime.
End TokenizerFacts.

(** Text without the character [<], received while no inline call is
    open, is reported as it is, in one text part, and leaves the state of
    the tokenizer as it was ([processTextContent], [stripControlTokens],
    provider.ts). *)
Theorem plain_text_is_reported_unchanged `{RT : Runtime} (modelId : string)
    (st : Provider.State) (content : string) :
  Provider._textToolActive st = None ->
  Provider._textToolParserBuffer st = EmptyString ->
  JsString.includes content "<" = false ->
  content <> EmptyString ->
  Provider.processEvent modelId st (text content)
  = (Provider.setHasEmittedAssistantText st true, [LanguageModelTextPart content],
     Provider.Normal).
Proof.
  intros Hidle Hbuffer Hlt Hne.
  cbn [Provider.processEvent]. unfold Provider.processTextContent.
  rewrite Hbuffer, JsStringFacts.append_nil.
  rewrite TokenizerFacts.textLoop_plain by assumption.
  cbn [Provider.visibleOut Provider.data Provider.state Provider.reported Provider.emittedAny].
  rewrite JsStringFacts.append_nil.
  destruct (String.eqb_spec content EmptyString) as [E | _]; [contradiction |].
  cbn [negb app]. now rewrite (TokenizerFacts.setParserBuffer_same st Hbuffer).
Qed.

(** A sentence received by a provider that has just been constructed. *)
Lemma plain_text_witness :
  @Provider.processEvent Reference.runtime "m" Provider.initialState
    (text "The answer is 4 > 3.")
  = (Provider.setHasEmittedAssistantText Provider.initialState true,
     [LanguageModelTextPart "The answer is 4 > 3."], Provider.Normal).
Proof.
  apply (@plain_text_is_reported_unchanged Reference.runtime); [reflexivity .. |].
  intros H; discriminate H.
Defined.

(** An inline call received whole in one chunk, with text around it: the
    call is reported with the name of its header and the parsed arguments,
    then the text before and after the markers as one text part, and the
    tokenizer is back outside a call ([processTextContent],
    [emitTextToolCallIfValid], provider.ts). *)
Theorem inline_call_in_one_chunk_is_reported `{RT : Runtime} (st : Provider.State)
    (pre header args post name : string) (value : json) :
  Provider._textToolActive st = None ->
  Provider._textToolParserBuffer st = EmptyString ->
  JsString.includes pre "<" = false ->
  JsString.includes header "<" = false ->
  JsString.includes args "<" = false ->
  JsString.includes post "<" = false ->
  Provider.matchHeader (JsString.trim header) = (Some name, None) ->
  tryParseJSONObject args = Some value ->
  Provider.callKey name value ∉ Provider._emittedTextToolCallKeys st ->
  Provider.processTextContent st
    (pre +:+ Provider.BEGIN +:+ header +:+ Provider.ARG_BEGIN +:+ args
         +:+ Provider.END +:+ post)
  = ((negb (String.eqb (pre +:+ post) EmptyString), true),
     Provider.addKey st (Provider.callKey name value),
     LanguageModelToolCallPart (FreshId "tct_") name value
       :: (if String.eqb (pre +:+ post) EmptyString then []
           else [LanguageModelTextPart (pre +:+ post)])).
Proof.
  intros Hidle Hbuffer Hpre Hheader Hargs Hpost Hname Hparse Hnew.
  unfold Provider.processTextContent.
  rewrite Hbuffer, JsStringFacts.append_nil.
  assert (Hfuel : exists fuel : nat,
            String.length (pre +:+ Provider.BEGIN +:+ header +:+ Provider.ARG_BEGIN +:+ args
                               +:+ Provider.END +:+ post) = S (S fuel)).
  { rewrite !JsStringFacts.length_append.
    change (String.length Provider.BEGIN) with 19%nat.
    exists (String.length pre + (17 + (String.length header + (String.length Provider.ARG_BEGIN
             + (String.length args + (String.length Provider.END + String.length post))))))%nat.
    lia. }
  destruct Hfuel as [fuel ->].
  rewrite (TokenizerFacts.textLoop_open _ _ pre header
             (args +:+ Provider.END +:+ post) (Some name) None)
    by (try assumption; reflexivity).
  rewrite (TokenizerFacts.textLoop_close _ _ _ args post)
    by (try assumption; reflexivity).
  cbn [Provider.withArgBuffer TextToolActive.argBuffer Provider.state Provider.visibleOut
       Provider.emittedAny Provider.reported].
  rewrite !JsStringFacts.append_nil.
  rewrite (TokenizerFacts.emitTextToolCallIfValid_new _ _ args name value)
    by (try assumption; reflexivity).
  cbn [orb app].
  assert (Hstate :
    Provider.setParserBuffer
      (Provider.setActive
         (Provider.addKey
            (Provider.setActive st
               (Some {| TextToolActive.name := Some name; TextToolActive.index := None;
                        TextToolActive.argBuffer := EmptyString;
                        TextToolActive.emitted := false |}))
            (Provider.callKey name value)) None) EmptyString
    = Provider.addKey st (Provider.callKey name value)).
  { destruct st. cbn in *. now subst. }
  destruct (String.eqb_spec post EmptyString) as [-> | Hne].
  - cbn [Provider.textLoop Provider.data String.eqb Provider.visibleOut Provider.state
         Provider.reported Provider.emittedAny].
    rewrite JsStringFacts.append_empty_r, Hstate.
    now destruct (String.eqb pre EmptyString).
  - rewrite TokenizerFacts.textLoop_plain by (first [reflexivity | assumption]).
    cbn [Provider.data Provider.visibleOut Provider.state Provider.reported
         Provider.emittedAny].
    rewrite Hstate.
    now destruct (String.eqb (pre +:+ post) EmptyString).
Qed.

(** A call to [get_weather] between two sentences. *)
Lemma inline_call_in_one_chunk_witness :
  @Provider.processTextContent Reference.runtime Provider.initialState
    ("Let me check. " +:+ Provider.BEGIN +:+ "get_weather" +:+ Provider.ARG_BEGIN
       +:+ js "{'city':'Paris'}" +:+ Provider.END +:+ " Done.")
  = ((negb (String.eqb ("Let me check. " +:+ " Done.") EmptyString), true),
     Provider.addKey Provider.initialState
       (@Provider.callKey Reference.runtime "get_weather" (JObj [("city", JStr "Paris")])),
     LanguageModelToolCallPart (FreshId "tct_") "get_weather" (JObj [("city", JStr "Paris")])
       :: (if String.eqb ("Let me check. " +:+ " Done.") EmptyString then []
           else [LanguageModelTextPart ("Let me check. " +:+ " Done.")])).
Proof.
  apply (@inline_call_in_one_chunk_is_reported Reference.runtime);
    try reflexivity.
  apply not_elem_of_empty.
Defined.

(** The number of characters held back at the end of a chunk is the
    length of the longest prefix of the opening marker that ends the
    chunk, among the prefixes shorter than the marker and shorter than the
    chunk ([processTextContent], provider.ts). *)
Theorem longestPartialPrefix_is_the_longest (data : string) :
  let k := Provider.longestPartialPrefix data in
  (k <= String.length Provider.BEGIN - 1)%nat
  /\ (k <= String.length data - 1)%nat
  /\ ((0 < k)%nat -> JsString.endsWith data (JsString.take k Provider.BEGIN) = true)
  /\ forall j : nat,
       (k < j)%nat -> (j <= String.length Provider.BEGIN - 1)%nat ->
       (j <= String.length data - 1)%nat ->
       JsString.endsWith data (JsString.take j Provider.BEGIN) = false.
Proof.
  unfold Provider.longestPartialPrefix.
  set (m := Nat.min (String.length Provider.BEGIN - 1) (String.length data - 1)).
  assert (Hm1 : (m <= String.length Provider.BEGIN - 1)%nat) by apply Nat.le_min_l.
  assert (Hm2 : (m <= String.length data - 1)%nat) by apply Nat.le_min_r.
  assert (Hmax : forall j : nat, (j <= String.length Provider.BEGIN - 1)%nat ->
                   (j <= String.length data - 1)%nat -> (j <= m)%nat)
    by (intros j H1 H2; now apply Nat.min_glb).
  pose proof (TokenizerFacts.longestPartialPrefixFrom_spec m data) as (Hle & Hends & Hlongest).
  cbv zeta. repeat split; try lia; [exact Hends |].
  intros j Hk H1 H2. apply Hlongest; [exact Hk | now apply Hmax].
Qed.

(** A chunk that ends in the first six characters of the marker. *)
Lemma longestPartialPrefix_witness :
  Provider.longestPartialPrefix "see <|tool" = 6%nat
  /\ JsString.endsWith "see <|tool" (JsString.take 6 Provider.BEGIN) = true.
Proof.
  split; [reflexivity |].
  apply (proj1 (proj2 (proj2 (longestPartialPrefix_is_the_longest "see <|tool")))).
  vm_compute. lia.
Defined.

(** ** The index table of the Responses adapter *)

Module IndexTableFacts.
Import Adapters IndexTable.

(** The case analysis of a run of the Responses parser that returned. *)
Ltac parsed_cases :=
  repeat match goal with
         | H : None = Some _ |- _ => discriminate H
         | H : Some (_, _) = Some (_, _) |- _ => injection H as <- <-
         | H : Some _ = Some _ |- _ => injection H as H; try subst
         | H : match ?x with _ => _ end = Some _ |- _ => destruct x eqn:?
         end.

Section WithRuntime.
Context `{RT : Runtime}.

(** The fields of the index table are the same in both adapters. *)
Lemma same_tables_wellFormed (a a' : ResponsesAdapter) :
  _toolCallIndexById a' = _toolCallIndexById a ->
  _nextToolCallIndex a' = _nextToolCallIndex a ->
  wellFormed a -> wellFormed a'.
Proof. unfold wellFormed. intros -> ->. tauto. Qed.

Lemma getToolCallIndex_wellFormed (a : ResponsesAdapter) (callId : option string) :
  wellFormed a -> wellFormed (fst (getToolCallIndex a callId)).
Proof.
  intros Hwf. pose proof Hwf as (Hnext & Hrange & Hinj). unfold getToolCallIndex.
  destruct callId as [cid|]; [| exact Hwf].
  destruct (String.eqb cid EmptyString); [exact Hwf |].
  destruct (_toolCallIndexById a !! cid) as [existing|] eqn:E; [exact Hwf |].
  cbn [fst]. unfold wellFormed. cbn [_toolCallIndexById _nextToolCallIndex].
  split; [lia | split].
  - intros c i. destruct (decide (c = cid)) as [-> | Hne].
    + rewrite lookup_insert_eq. intros [= <-]. lia.
    + rewrite lookup_insert_ne by congruence. intros H. apply Hrange in H. lia.
  - intros c1 c2 i.
    destruct (decide (c1 = cid)) as [-> | Hne1], (decide (c2 = cid)) as [-> | Hne2];
      rewrite ?lookup_insert_eq, ?lookup_insert_ne by congruence; try congruence.
    + intros [= <-] H. apply Hrange in H. lia.
    + intros H [= <-]. apply Hrange in H. lia.
    + apply Hinj.
Qed.

(** The index of an identifier, once handed out, is handed out again. *)
Lemma getToolCallIndex_again (a : ResponsesAdapter) (callId : option string) :
  getToolCallIndex (fst (getToolCallIndex a callId)) callId
  = (fst (getToolCallIndex a callId), snd (getToolCallIndex a callId)).
Proof.
  unfold getToolCallIndex.
  destruct callId as [cid|]; [| reflexivity].
  destruct (String.eqb cid EmptyString) eqn:Ee; [reflexivity |].
  destruct (_toolCallIndexById a !! cid) as [existing|] eqn:E; cbn [fst snd].
  - now rewrite E.
  - cbn [_toolCallIndexById]. now rewrite lookup_insert_eq.
Qed.

(** An identifier that is in the table keeps its index when another one
    is looked up. *)
Lemma getToolCallIndex_keeps (a : ResponsesAdapter) (callId : option string)
    (cid : string) (i : Z) :
  _toolCallIndexById a !! cid = Some i ->
  _toolCallIndexById (fst (getToolCallIndex a callId)) !! cid = Some i.
Proof.
  intros H. unfold getToolCallIndex.
  destruct callId as [c|]; [| exact H].
  destruct (String.eqb c EmptyString); [exact H |].
  destruct (_toolCallIndexById a !! c) as [existing|] eqn:E; [exact H |].
  cbn [fst _toolCallIndexById]. rewrite lookup_insert_ne; [exact H | congruence].
Qed.

(** After a lookup the identifier is in the table, under the index
    returned. *)
Lemma getToolCallIndex_recorded (a : ResponsesAdapter) (cid : string) :
  cid <> EmptyString ->
  _toolCallIndexById (fst (getToolCallIndex a (Some cid))) !! cid
  = Some (snd (getToolCallIndex a (Some cid))).
Proof.
  intros Hne. unfold getToolCallIndex.
  destruct (String.eqb_spec cid EmptyString) as [E | _]; [contradiction |].
  destruct (_toolCallIndexById a !! cid) as [existing|] eqn:E; cbn [fst snd]; [exact E |].
  cbn [_toolCallIndexById]. apply lookup_insert_eq.
Qed.

Lemma emitTextItem_tables (a : ResponsesAdapter) (it p : jsval) (t : string) :
  _toolCallIndexById (fst (emitTextItem a it p t)) = _toolCallIndexById a
  /\ _nextToolCallIndex (fst (emitTextItem a it p t)) = _nextToolCallIndex a.
Proof.
  unfold emitTextItem.
  destruct (textItemKey it p) as [key|]; [| split; reflexivity].
  destruct (negb (String.eqb key EmptyString)); [| split; reflexivity].
  case_bool_decide; split; reflexivity.
Qed.

(** What a parsed payload does to the index table: nothing, or one
    lookup. *)
Lemma responsesOutputFallback_step (a a' : ResponsesAdapter) (parsed : json)
    (ev : StreamEvent) :
  responsesOutputFallback a parsed = Some (a', ev) ->
  a' = a \/ exists callId, a' = fst (getToolCallIndex a callId).
Proof.
  unfold responsesOutputFallback. intros H. cbv zeta in H.
  parsed_cases; try (left; reflexivity).
  all: right; eexists; match goal with E : getToolCallIndex _ _ = _ |- _ => now rewrite E end.
Qed.

Lemma responsesParsed_step (a a' : ResponsesAdapter) (parsed : json) (ev : StreamEvent) :
  responsesParsed a parsed = Some (a', ev) ->
  (_toolCallIndexById a' = _toolCallIndexById a
   /\ _nextToolCallIndex a' = _nextToolCallIndex a)
  \/ exists callId, a' = fst (getToolCallIndex a callId).
Proof.
  unfold responsesParsed. intros H. cbv zeta in H.
  parsed_cases.
  all: try (left; split; reflexivity).
  all: try (right; eexists;
            match goal with E : getToolCallIndex _ _ = _ |- _ => now rewrite E end).
  all: try (left; match goal with
                  | E : emitTextItem ?x ?i ?q ?t = _ |- _ =>
                      pose proof (emitTextItem_tables x i q t) as T; rewrite E in T; exact T
                  | E : _ = emitTextItem ?x ?i ?q ?t |- _ =>
                      pose proof (emitTextItem_tables x i q t) as T; rewrite <- E in T; exact T
                  end).
  all: try (match goal with
            | E : responsesOutputFallback _ _ = Some _ |- _ =>
                apply responsesOutputFallback_step in E as [-> | Hstep];
                [left; split; reflexivity | right; exact Hstep]
            end).
Qed.

Lemma responsesParseStreamEvent_wellFormed (a : ResponsesAdapter) (line : string) :
  wellFormed a -> wellFormed (fst (responsesParseStreamEvent a line)).
Proof.
  intros Hwf. unfold responsesParseStreamEvent.
  destruct (JsString.startsWith line "event:");
    [cbn [fst]; now apply (same_tables_wellFormed a) |].
  destruct (negb (JsString.startsWith line "data:")); [exact Hwf |].
  destruct (String.eqb _ "[DONE]"); [exact Hwf |].
  destruct (JSON_parse _) as [parsed|]; [| exact Hwf].
  destruct (responsesParsed a parsed) as [[a' ev]|] eqn:E; [| exact Hwf].
  cbn [fst]. apply responsesParsed_step in E as [[Hm Hn] | [callId ->]].
  - now apply (same_tables_wellFormed a).
  - now apply getToolCallIndex_wellFormed.
Qed.

Lemma afterLines_wellFormed (lines : list string) :
  forall a : ResponsesAdapter, wellFormed a -> wellFormed (afterLines a lines).
Proof.
  induction lines as [|line lines IH]; intros a Hwf; [exact Hwf |].
  apply IH. now apply responsesParseStreamEvent_wellFormed.
Qed.

Lemma newResponsesAdapter_wellFormed : wellFormed newResponsesAdapter.
Proof.
  split; [cbn; lia | split].
  - intros cid i H. cbn in H. now rewrite lookup_empty in H.
  - intros c1 c2 i H. cbn in H. now rewrite lookup_empty in H.
Qed.

(** In a well-formed table two different identifiers get two different
    indices, whether they are in the table or not. *)
Lemma getToolCallIndex_distinct (a : ResponsesAdapter) (c1 c2 : string) :
  wellFormed a -> c1 <> EmptyString -> c2 <> EmptyString -> c1 <> c2 ->
  snd (getToolCallIndex a (Some c1))
  <> snd (getToolCallIndex (fst (getToolCallIndex a (Some c1))) (Some c2)).
Proof.
  intros Hwf H1 H2 Hne Heq.
  pose proof (getToolCallIndex_wellFormed a (Some c1) Hwf) as Hwf1.
  pose proof (getToolCallIndex_recorded a c1 H1) as Hr1.
  set (a1 := fst (getToolCallIndex a (Some c1))) in *.
  pose proof (getToolCallIndex_wellFormed a1 (Some c2) Hwf1) as (_ & _ & Hinj).
  pose proof (getToolCallIndex_recorded a1 c2 H2) as Hr2.
  apply (getToolCallIndex_keeps a1 (Some c2)) in Hr1.
  rewrite Heq in Hr1. exact (Hne (Hinj c1 c2 _ Hr1 Hr2)).
Qed.

End WithRuntime.
End IndexTableFacts.

(** Whatever lines a Responses adapter has parsed, it numbers tool calls
    consistently: two different call identifiers get two different
    indices, and an identifier that is looked up again gets the index it
    got before ([ResponsesAdapter.getToolCallIndex],
    [ResponsesAdapter.parseStreamEvent], adapters.ts). *)
Theorem call_ids_get_distinct_stable_indices `{RT : Runtime} (lines : list string)
    (c1 c2 : string) :
  c1 <> EmptyString -> c2 <> EmptyString -> c1 <> c2 ->
  let a := IndexTable.afterLines Adapters.newResponsesAdapter lines in
  let '(a1, i1) := Adapters.getToolCallIndex a (Some c1) in
  let '(a2, i2) := Adapters.getToolCallIndex a1 (Some c2) in
  i1 <> i2
  /\ Adapters.getToolCallIndex a2 (Some c1) = (a2, i1)
  /\ Adapters.getToolCallIndex a2 (Some c2) = (a2, i2).
Proof.
  intros H1 H2 Hne a.
  assert (Hwf : IndexTable.wellFormed a)
    by apply IndexTableFacts.afterLines_wellFormed,
             IndexTableFacts.newResponsesAdapter_wellFormed.
  pose proof (IndexTableFacts.getToolCallIndex_distinct a c1 c2 Hwf H1 H2 Hne) as Hdistinct.
  pose proof (IndexTableFacts.getToolCallIndex_recorded a c1 H1) as Hr1.
  destruct (Adapters.getToolCallIndex a (Some c1)) as [a1 i1]. cbn [fst snd] in *.
  pose proof (IndexTableFacts.getToolCallIndex_again a1 (Some c2)) as Hagain.
  pose proof (IndexTableFacts.getToolCallIndex_keeps a1 (Some c2) c1 i1 Hr1) as Hkeep.
  destruct (Adapters.getToolCallIndex a1 (Some c2)) as [a2 i2]. cbn [fst snd] in *.
  split; [exact Hdistinct | split; [| exact Hagain]].
  unfold Adapters.getToolCallIndex.
  destruct (String.eqb_spec c1 EmptyString) as [E | _]; [contradiction |].
  now rewrite Hkeep.
Qed.

(** An adapter that has seen the call [a] announced, asked for [a] and
    then for [b]. *)
Lemma call_ids_witness :
  let a := @IndexTable.afterLines Reference.runtime Adapters.newResponsesAdapter
             [js ("data: {'type':'response.output_item.added',"
                  +:+ "'item':{'type':'function_call','call_id':'a','name':'f'}}")] in
  let '(a1, i1) := Adapters.getToolCallIndex a (Some "a") in
  let '(a2, i2) := Adapters.getToolCallIndex a1 (Some "b") in
  i1 <> i2
  /\ Adapters.getToolCallIndex a2 (Some "a") = (a2, i1)
  /\ Adapters.getToolCallIndex a2 (Some "b") = (a2, i2).
Proof.
  apply (@call_ids_get_distinct_stable_indices Reference.runtime); intros H; discriminate H.
Defined.

(** ** The items of a request *)

Module ItemFacts.
Import JsString Request Items.

Section WithRuntime.
Context `{RT : Runtime}.

(** The accumulators of the loop over the parts of a message. *)
Lemma convertParts_calls (r : LanguageModelChatMessageRole) (parts : list ChatPart) :
  forall acc : PartAcc,
  toolCalls (fold_left (convertPart r) parts acc)
  = toolCalls acc ++ flat_map callOfPart parts.
Proof.
  induction parts as [|part parts IH]; intros acc; cbn [fold_left flat_map].
  - now rewrite app_nil_r.
  - rewrite IH. destruct part as [value | mime bytes | callId name inp | callId cs |];
      cbn [convertPart callOfPart].
    + reflexivity.
    + destruct (String.eqb mime "stateful_marker"); [reflexivity |].
      destruct (tryDataPartToDataUrl mime bytes); [| reflexivity].
      destruct r; reflexivity.
    + cbn [toolCalls]. now rewrite <- app_assoc.
    + destruct (collectToolResultTextAndImages cs). reflexivity.
    + reflexivity.
Qed.

Lemma filter_output_images (urls : list string) :
  List.filter isFunctionCallOutput
    (List.map (fun url => message user [textItem input_text "Image associated with tool output.";
                                        imageItem url]) urls) = []
  /\ List.filter isFunctionCall
       (List.map (fun url => message user [textItem input_text "Image associated with tool output.";
                                           imageItem url]) urls) = [].
Proof. induction urls as [|u urls [IH1 IH2]]; split; cbn; assumption || reflexivity. Qed.

Lemma convertParts_results (r : LanguageModelChatMessageRole) (parts : list ChatPart) :
  forall acc : PartAcc,
  List.filter isFunctionCallOutput (toolResults (fold_left (convertPart r) parts acc))
  = List.filter isFunctionCallOutput (toolResults acc) ++ flat_map outputOfPart parts
  /\ (List.filter isFunctionCall (toolResults acc) = [] ->
      List.filter isFunctionCall (toolResults (fold_left (convertPart r) parts acc)) = []).
Proof.
  induction parts as [|part parts IH]; intros acc; cbn [fold_left flat_map].
  - rewrite app_nil_r. split; [reflexivity | tauto].
  - destruct (IH (convertPart r acc part)) as [IH1 IH2]. rewrite IH1. clear IH1.
    destruct part as [value | mime bytes | callId name inp | callId cs |];
      cbn [convertPart outputOfPart] in *.
    + split; [reflexivity | exact IH2].
    + destruct (String.eqb mime "stateful_marker"); [split; [reflexivity | exact IH2] |].
      destruct (tryDataPartToDataUrl mime bytes); [| split; [reflexivity | exact IH2]].
      destruct r; split; (reflexivity || exact IH2).
    + split; [reflexivity | exact IH2].
    + destruct (collectToolResultTextAndImages cs) as [t urls]. cbn [toolResults fst] in *.
      destruct (filter_output_images urls) as [F1 F2].
      split.
      * rewrite List.filter_app. cbn [List.filter isFunctionCallOutput].
        rewrite F1, <- app_assoc. reflexivity.
      * intros H. apply IH2. rewrite List.filter_app, H.
        cbn [List.filter isFunctionCall app]. exact F2.
    + split; [reflexivity | exact IH2].
Qed.

(** The message item of a message, if it has one, is a [message]. *)
Lemma convertMessage_shape (supportsSystem : bool) (msg : LanguageModelChatRequestMessage) :
  exists head : list ResponsesItem,
    convertMessage supportsSystem msg
    = head
      ++ toolCalls (fold_left (convertPart (role msg)) (content msg)
                      {| pendingText := EmptyString; contentItems := [];
                         toolCalls := []; toolResults := [] |})
      ++ toolResults (fold_left (convertPart (role msg)) (content msg)
                        {| pendingText := EmptyString; contentItems := [];
                           toolCalls := []; toolResults := [] |})
    /\ (head = [] \/ exists r c, head = [message r c]).
Proof.
  unfold convertMessage.
  set (acc := fold_left _ _ _).
  match goal with |- context [let '(items1, needsSystemPrefix) := ?x in _] =>
    destruct x as [items1 needsSystemPrefix] end.
  eexists. split; [reflexivity |].
  destruct items1 as [|i items1]; [left; reflexivity | right].
  clearbody acc. destruct (role msg), supportsSystem; cbn [negb]; eauto.
Qed.

Lemma filter_all {A : Type} (f : A -> bool) (l : list A) :
  Forall (fun x => f x = true) l -> List.filter f l = l.
Proof.
  induction 1 as [|x l Hx _ IH]; [reflexivity |]. cbn [List.filter]. now rewrite Hx, IH.
Qed.

Lemma filter_none {A : Type} (f : A -> bool) (l : list A) :
  Forall (fun x => f x = false) l -> List.filter f l = [].
Proof.
  induction 1 as [|x l Hx _ IH]; [reflexivity |]. cbn [List.filter]. now rewrite Hx, IH.
Qed.

Lemma callOfPart_calls (parts : list ChatPart) :
  Forall (fun it => isFunctionCall it = true) (flat_map callOfPart parts)
  /\ Forall (fun it => isFunctionCallOutput it = false) (flat_map callOfPart parts).
Proof.
  induction parts as [|part parts [IH1 IH2]]; [split; constructor |].
  cbn [flat_map]. destruct part; cbn [callOfPart app]; split; try assumption;
    constructor; (reflexivity || assumption).
Qed.

Lemma convertMessage_calls (supportsSystem : bool) (msg : LanguageModelChatRequestMessage) :
  List.filter isFunctionCall (convertMessage supportsSystem msg)
  = flat_map callOfPart (content msg)
  /\ List.filter isFunctionCallOutput (convertMessage supportsSystem msg)
     = flat_map outputOfPart (content msg).
Proof.
  destruct (convertMessage_shape supportsSystem msg) as (head & -> & Hhead).
  rewrite convertParts_calls. cbn [toolCalls app].
  destruct (convertParts_results (role msg) (content msg)
              {| pendingText := EmptyString; contentItems := [];
                 toolCalls := []; toolResults := [] |}) as [Hout Hnocall].
  cbn [toolResults List.filter app] in Hout, Hnocall. specialize (Hnocall eq_refl).
  destruct (callOfPart_calls (content msg)) as [Hc1 Hc2].
  rewrite !List.filter_app, Hout, Hnocall, (filter_all _ _ Hc1), (filter_none _ _ Hc2).
  rewrite app_nil_r.
  destruct Hhead as [-> | (r & c & ->)]; split; reflexivity.
Qed.

End WithRuntime.
End ItemFacts.

(** The tool calls and the tool results of a conversation are sent in the
    order of their parts, whatever the roles of the messages and whatever
    text and images surround them: the [function_call] items of the input
    are the tool-call parts in order, and the [function_call_output] items
    are the tool-result parts in order
    ([ResponsesAdapter.convertMessagesToItems], adapters.ts). *)
Theorem tool_calls_and_results_are_sent_in_order `{RT : Runtime}
    (messages : list Request.LanguageModelChatRequestMessage)
    (config : Request.OpenAICustomModelConfig) :
  List.filter Items.isFunctionCall (Request.convertMessagesToItems messages config)
  = flat_map (fun m => flat_map Items.callOfPart (Request.content m)) messages
  /\ List.filter Items.isFunctionCallOutput (Request.convertMessagesToItems messages config)
     = flat_map (fun m => flat_map Items.outputOfPart (Request.content m)) messages.
Proof.
  unfold Request.convertMessagesToItems.
  set (supportsSystem := match Request.supportsSystemRole config with
                         | Some false => false
                         | _ => true
                         end).
  set (lead := match Request.instructions config with Some _ => _ | None => _ end).
  assert (Hlead : List.filter Items.isFunctionCall lead = []
                  /\ List.filter Items.isFunctionCallOutput lead = []).
  { unfold lead. destruct (Request.instructions config) as [ins|]; [| split; reflexivity].
    destruct (negb (String.eqb (JsString.trim ins) EmptyString)); split; reflexivity. }
  destruct Hlead as [Hl1 Hl2]. rewrite !List.filter_app, Hl1, Hl2. cbn [app].
  induction messages as [|m messages [IH1 IH2]]; [split; reflexivity |].
  cbn [flat_map]. rewrite !List.filter_app, IH1, IH2.
  destruct (ItemFacts.convertMessage_calls supportsSystem m) as [-> ->].
  split; reflexivity.
Qed.

(** ** Roles and content types of the items *)

Module ContentFacts.
Import JsString Request Items.
Section WithRuntime.
Context `{RT : Runtime}.

(** The content gathered for a message holds no [output_text] before the
    role is looked at, and the items gathered for tool results fit their
    role. *)
Lemma convertParts_content (r : LanguageModelChatMessageRole) (parts : list ChatPart) :
  forall acc : PartAcc,
  Forall (fun ci => ci_type ci <> output_text) (contentItems acc) ->
  Forall contentFitsRole (toolResults acc) ->
  Forall (fun it => isSystemMessage it = false) (toolResults acc) ->
  Forall (fun ci => ci_type ci <> output_text)
         (contentItems (fold_left (convertPart r) parts acc))
  /\ Forall contentFitsRole (toolResults (fold_left (convertPart r) parts acc))
  /\ Forall (fun it => isSystemMessage it = false)
            (toolResults (fold_left (convertPart r) parts acc)).
Proof.
  induction parts as [|part parts IH]; intros acc Hc Hr Hs; [repeat split; assumption |].
  cbn [fold_left]. apply IH; clear IH.
  - destruct part as [value | mime bytes | callId name inp | callId cs |];
      cbn [convertPart]; try assumption.
    + destruct (String.eqb mime "stateful_marker"); [assumption |].
      destruct (tryDataPartToDataUrl mime bytes) as [url|]; [| assumption].
      destruct r; try assumption; cbn [contentItems].
      all: apply Forall_app; split; [| repeat constructor; discriminate].
      all: destruct (negb (String.eqb (pendingText acc) EmptyString)); [| assumption].
      all: apply Forall_app; split; [assumption | repeat constructor; discriminate].
    + destruct (collectToolResultTextAndImages cs). assumption.
  - destruct part as [value | mime bytes | callId name inp | callId cs |];
      cbn [convertPart]; try assumption.
    + destruct (String.eqb mime "stateful_marker"); [assumption |].
      destruct (tryDataPartToDataUrl mime bytes) as [url|]; [| assumption].
      destruct r; assumption.
    + destruct (collectToolResultTextAndImages cs) as [t urls]. cbn [toolResults].
      apply Forall_app; split; [assumption |]. constructor; [exact I |].
      apply List.Forall_forall. intros it Hin. apply in_map_iff in Hin as (url & <- & _).
      intros ci [<- | [<- | []]]; discriminate.
  - destruct part as [value | mime bytes | callId name inp | callId cs |];
      cbn [convertPart]; try assumption.
    + destruct (String.eqb mime "stateful_marker"); [assumption |].
      destruct (tryDataPartToDataUrl mime bytes) as [url|]; [| assumption].
      destruct r; assumption.
    + destruct (collectToolResultTextAndImages cs) as [t urls]. cbn [toolResults].
      apply Forall_app; split; [assumption |]. constructor; [reflexivity |].
      apply List.Forall_forall. intros it Hin. apply in_map_iff in Hin as (url & <- & _).
      reflexivity.
Qed.

Lemma assistant_content (items : list ResponsesContentItem) :
  Forall (fun ci => ci_type ci = output_text -> ci_image_url ci = None) items ->
  contentFitsRole
    (message assistant
       (List.map (fun c => match ci_type c with
                           | output_text => c
                           | _ => {| ci_type := output_text; ci_text := ci_text c;
                                     ci_image_url := None |}
                           end) items)).
Proof.
  intros Hitems ci Hin. apply in_map_iff in Hin as (x & <- & Hx).
  rewrite List.Forall_forall in Hitems. specialize (Hitems x Hx).
  destruct (ci_type x) eqn:E; cbn; auto.
Qed.

Lemma head_fits (P : ResponsesItem -> Prop) (items : list ResponsesContentItem)
    (m : ResponsesItem) :
  P m -> Forall P (match items with [] => [] | _ :: _ => [m] end).
Proof. intros Hm. destruct items; repeat constructor. exact Hm. Qed.

Lemma other_content (r : ItemRole) (items : list ResponsesContentItem) :
  r <> assistant ->
  Forall (fun ci => ci_type ci <> output_text) items ->
  contentFitsRole (message r items).
Proof.
  intros Hr Hitems. rewrite List.Forall_forall in Hitems.
  destruct r; [exact Hitems | contradiction | exact Hitems].
Qed.

(** Lists of content items built from the gathered ones. *)
Ltac content_items :=
  repeat first [ assumption
               | apply List.Forall_nil
               | apply List.Forall_cons
               | apply List.Forall_app; split
               | discriminate
               | intros _; reflexivity ].

Lemma convertMessage_fits (supportsSystem : bool) (msg : LanguageModelChatRequestMessage) :
  Forall contentFitsRole (convertMessage supportsSystem msg)
  /\ (supportsSystem = false ->
      Forall (fun it => isSystemMessage it = false) (convertMessage supportsSystem msg)).
Proof.
  unfold convertMessage.
  pose proof (ItemFacts.convertParts_calls (role msg) (content msg)
                {| pendingText := EmptyString; contentItems := [];
                   toolCalls := []; toolResults := [] |}) as Hcalls.
  destruct (convertParts_content (role msg) (content msg)
              {| pendingText := EmptyString; contentItems := [];
                 toolCalls := []; toolResults := [] |}) as (Hc & Hr & Hs);
    [constructor .. |].
  set (acc := fold_left _ _ _) in *. cbn [toolCalls app] in Hcalls.
  assert (Hcalls1 : Forall contentFitsRole (toolCalls acc)
                    /\ Forall (fun it => isSystemMessage it = false) (toolCalls acc)).
  { rewrite Hcalls. clear. induction (content msg) as [|part parts [IH1 IH2]];
      [split; constructor |].
    cbn [flat_map]. destruct part; cbn [callOfPart app]; split; try assumption;
      constructor; (exact I || reflexivity || assumption). }
  destruct Hcalls1 as [Hk1 Hk2]. clear Hcalls.
  assert (Himg : Forall (fun ci => ci_type ci = output_text -> ci_image_url ci = None)
                        (contentItems acc)).
  { eapply List.Forall_impl; [| exact Hc]. intros ci Hne E. contradiction. }
  clearbody acc.
  destruct (role msg), supportsSystem; cbn [negb];
    destruct (negb (String.eqb (pendingText acc) EmptyString)).
  all: split; [| intros E; try discriminate E].
  all: repeat (apply List.Forall_app; split); try assumption.
  all: apply head_fits; try reflexivity.
  all: first [ apply assistant_content; content_items
             | apply other_content; [discriminate | content_items] ].
Qed.

End WithRuntime.
End ContentFacts.

(** Every message item of the input carries the content types of its
    role: an item of the assistant holds [output_text] entries without an
    image, an item of the user or of the system holds no [output_text]
    entry ([ResponsesAdapter.convertMessagesToItems], adapters.ts). *)
Theorem content_types_fit_the_role `{RT : Runtime}
    (messages : list Request.LanguageModelChatRequestMessage)
    (config : Request.OpenAICustomModelConfig) :
  Forall Items.contentFitsRole (Request.convertMessagesToItems messages config).
Proof.
  unfold Request.convertMessagesToItems.
  apply List.Forall_app; split.
  - destruct (Request.instructions config) as [ins|]; [| constructor].
    destruct (negb (String.eqb (JsString.trim ins) EmptyString)); [| constructor].
    constructor; [| constructor].
    destruct (Request.supportsSystemRole config) as [[|]|];
      intros ci [<- | []]; discriminate.
  - induction messages as [|m messages IH]; [constructor |].
    cbn [flat_map]. apply List.Forall_app; split; [| exact IH].
    apply ContentFacts.convertMessage_fits.
Qed.

(** For a model configured without a system role no item is sent with
    the role [system], neither for the instructions nor for a message of
    the conversation ([ResponsesAdapter.convertMessagesToItems],
    adapters.ts). *)
Theorem no_system_item_without_system_role `{RT : Runtime}
    (messages : list Request.LanguageModelChatRequestMessage)
    (config : Request.OpenAICustomModelConfig) :
  Request.supportsSystemRole config = Some false ->
  Forall (fun it => Items.isSystemMessage it = false)
         (Request.convertMessagesToItems messages config).
Proof.
  intros Hconfig. unfold Request.convertMessagesToItems. rewrite Hconfig.
  apply List.Forall_app; split.
  - destruct (Request.instructions config) as [ins|]; [| constructor].
    destruct (negb (String.eqb (JsString.trim ins) EmptyString)); repeat constructor.
  - induction messages as [|m messages IH]; [constructor |].
    cbn [flat_map]. apply List.Forall_app; split; [| exact IH].
    now apply ContentFacts.convertMessage_fits.
Qed.

(** Instructions and a message of another role, for a model without a
    system role. *)
Lemma no_system_item_witness :
  Forall (fun it => Items.isSystemMessage it = false)
    (@Request.convertMessagesToItems Reference.runtime
       [{| Request.role := Request.OtherRole;
           Request.content := [Request.LanguageModelTextPart "Be brief."] |}]
       {| Request.id := "m"; Request.modelName := "m"; Request.baseUrl := "https://h";
          Request.instructions := Some "Answer in French.";
          Request.supportsSystemRole := Some false;
          Request.supportsStatefulResponses := None |}).
Proof. apply (@no_system_item_without_system_role Reference.runtime). reflexivity. Defined.

(** ** The payload of a stateful marker *)

Module MarkerFacts.
Import JsString Request.

Lemma indexOf_char_cons (c d : ascii) (s : string) :
  indexOf (String d s) (String c EmptyString)
  = if Ascii.eqb c d then Some 0%nat else option_map S (indexOf s (String c EmptyString)).
Proof.
  cbn [indexOf startsWith]. destruct (Ascii.eqb c d); [destruct s |]; reflexivity.
Qed.

(** Where a character is found behind a text that does not hold it. *)
Lemma indexOf_char_append (c : ascii) (a r : string) :
  indexOf a (String c EmptyString) = None ->
  indexOf (a +:+ String c r) (String c EmptyString) = Some (String.length a).
Proof.
  induction a as [|d a IH].
  - intros _. rewrite JsStringFacts.append_nil, indexOf_char_cons.
    now rewrite Ascii.eqb_refl.
  - rewrite JsStringFacts.append_cons, !indexOf_char_cons.
    destruct (Ascii.eqb c d); [intros H; discriminate H |].
    destruct (indexOf a (String c EmptyString)) eqn:E; [intros H; discriminate H |].
    intros _. now rewrite IH.
Qed.

(** The text before the first occurrence of a character does not hold
    it. *)
Lemma indexOf_char_take (c : ascii) (s : string) :
  forall n : nat,
  indexOf s (String c EmptyString) = Some n ->
  indexOf (take n s) (String c EmptyString) = None.
Proof.
  induction s as [|d s IH]; intros n.
  - intros H. discriminate H.
  - rewrite indexOf_char_cons. destruct (Ascii.eqb c d) eqn:Ec.
    + intros [= <-]. reflexivity.
    + destruct (indexOf s (String c EmptyString)) as [k|] eqn:E; [| intros H; discriminate H].
      intros [= <-]. cbn [take]. rewrite indexOf_char_cons, Ec, (IH k eq_refl). reflexivity.
Qed.

Section WithRuntime.
Context `{RT : Runtime}.

(** The model id decoded from a marker holds no backslash. *)
Lemma decodeMarker_model_id (part : ChatPart) (mid rid : string) :
  decodeMarker part = Some (mid, rid) -> indexOf mid backslash = None.
Proof.
  unfold decodeMarker. destruct part as [| mime bytes | | |]; try discriminate.
  destruct (String.eqb mime "stateful_marker"); [| discriminate].
  destruct (indexOf (TextDecoder_decode bytes) backslash) as [[|sep]|] eqn:E; try discriminate.
  destruct (_ || _); [discriminate |].
  intros [= <- _]. exact (indexOf_char_take _ _ _ E).
Qed.

(** The payload written for a response id is decoded to the model id and
    the response id. *)
Lemma decodeMarker_payload (modelId marker bytes : string) :
  modelId <> EmptyString ->
  indexOf modelId backslash = None ->
  marker <> EmptyString ->
  TextDecoder_decode bytes = modelId +:+ backslash +:+ marker ->
  decodeMarker (LanguageModelDataPart "stateful_marker" bytes) = Some (modelId, marker).
Proof.
  intros Hid Hclean Hmarker Hbytes. unfold decodeMarker.
  rewrite String.eqb_refl, Hbytes.
  pose proof (TokenizerFacts.take_append modelId (backslash +:+ marker)) as Htake.
  pose proof (TokenizerFacts.drop_marker modelId backslash marker) as Hdrop.
  change (String.length backslash) with 1%nat in Hdrop.
  change (backslash +:+ marker) with (String "092" marker) in *.
  change backslash with (String "092" EmptyString).
  rewrite (indexOf_char_append _ modelId marker Hclean).
  destruct (String.length modelId) as [|n] eqn:Elen;
    [destruct modelId; [contradiction | discriminate Elen] |].
  rewrite Htake, Hdrop.
  destruct (String.eqb_spec modelId EmptyString) as [E | _]; [contradiction |].
  destruct (String.eqb_spec marker EmptyString) as [E | _]; [contradiction |].
  reflexivity.
Qed.

(** No part is a marker of a model whose id holds a backslash. *)
Lemma decodeMarker_backslash_id (modelId : string) (part : ChatPart) (rid : string) :
  indexOf modelId backslash <> None -> decodeMarker part <> Some (modelId, rid).
Proof.
  intros Hid H. apply decodeMarker_model_id in H. contradiction.
Qed.

(** What the scan returns: a response id that is not empty, and a
    position behind a message of the conversation. *)
Lemma scanParts_bounds (modelId : string) (i : nat) (parts : list ChatPart) :
  forall (last : option (string * nat)) (rid : string) (k : nat),
  (forall r j, last = Some (r, j) -> r <> EmptyString /\ (1 <= j <= S i)%nat) ->
  scanParts modelId i parts last = Some (rid, k) ->
  rid <> EmptyString /\ (1 <= k <= S i)%nat.
Proof.
  induction parts as [|part parts IH]; intros last rid k Hlast; cbn [scanParts].
  - apply Hlast.
  - apply IH. intros r j.
    destruct (decodeMarker part) as [[mid marker]|] eqn:E; [| apply Hlast].
    destruct (String.eqb mid modelId); [| apply Hlast].
    intros [= <- <-]. split; [exact (RequestFacts.decodeMarker_response_id _ _ _ E) | lia].
Qed.

Lemma scanMessages_bounds (modelId : string)
    (messages : list LanguageModelChatRequestMessage) :
  forall (i : nat) (last : option (string * nat)) (rid : string) (k : nat),
  (forall r j, last = Some (r, j) -> r <> EmptyString /\ (1 <= j <= i)%nat) ->
  scanMessages modelId i messages last = Some (rid, k) ->
  rid <> EmptyString /\ (1 <= k <= i + List.length messages)%nat.
Proof.
  induction messages as [|m messages IH]; intros i last rid k Hlast; cbn [scanMessages].
  - intros H. apply Hlast in H as [H1 H2]. cbn [List.length]. split; [exact H1 | lia].
  - intros H. apply IH in H as [H1 H2]; [cbn [List.length]; split; [exact H1 | lia] |].
    intros r j Hscan. apply (scanParts_bounds modelId i (content m) last r j); [| exact Hscan].
    intros r' j' E. apply Hlast in E as [E1 E2]. split; [exact E1 | lia].
Qed.

End WithRuntime.
End MarkerFacts.

(** The response id reported at the end of a turn comes back in the next
    request: the payload of the marker part is the model id, a backslash
    and the response id, and the builder of the next request, given a
    conversation whose last assistant message ends with that part and is
    followed by the new user message, sends the response id as
    [previous_response_id] and converts the new message only
    ([processStreamingResponse], provider.ts;
    [ResponsesAdapter.extractPreviousResponseId], [buildRequest],
    adapters.ts). *)
Theorem response_id_round_trip `{RT : Runtime} (st : Provider.State)
    (config : Request.OpenAICustomModelConfig) (marker bytes question : string)
    (history : list Request.LanguageModelChatRequestMessage)
    (answer : list Request.ChatPart) :
  Request.id config <> EmptyString ->
  JsString.indexOf (Request.id config) Request.backslash = None ->
  marker <> EmptyString ->
  Request.supportsStatefulResponses config <> Some false ->
  TextDecoder_decode bytes = Request.id config +:+ Request.backslash +:+ marker ->
  (exists (st' : Provider.State) (out : list LanguageModelResponsePart),
     Provider.processEvent (Request.id config) st (stateful_marker marker)
     = (st',
        LanguageModelDataPart_text
          (Request.id config +:+ Request.backslash +:+ marker) "stateful_marker" :: out,
        Provider.Normal))
  /\ let next := {| Request.role := Request.User;
                    Request.content := [Request.LanguageModelTextPart question] |} in
     let body :=
       snd (Request.buildRequest
              (history
               ++ [{| Request.role := Request.Assistant;
                      Request.content :=
                        answer ++ [Request.LanguageModelDataPart "stateful_marker" bytes] |};
                   next])
              config) in
     Request.previous_response_id body = Some marker
     /\ Request.input body = Request.convertMessagesToItems [next] config.
Proof.
  intros Hid Hclean Hmarker Hstateful Hbytes. split.
  - cbn [Provider.processEvent].
    destruct (Provider.flushSilently st) as [st' out]. now exists st', out.
  - intros next body.
    pose proof (MarkerFacts.decodeMarker_payload _ _ _ Hid Hclean Hmarker Hbytes) as Hdecode.
    assert (Hscan :
      Request.extractPreviousResponseId
        (history
         ++ {| Request.role := Request.Assistant;
               Request.content :=
                 answer ++ [Request.LanguageModelDataPart "stateful_marker" bytes] |}
            :: [next])
        (Request.id config)
      = Some (marker, S (List.length history))).
    { apply (RequestFacts.extractPreviousResponseId_last_marker _ _ _ _ answer []
               (Request.LanguageModelDataPart "stateful_marker" bytes));
        [reflexivity | exact Hdecode | intros q [] |].
      intros m q [<- | []] [<- | []] rid'. discriminate. }
    subst body. unfold Request.buildRequest. cbn [snd].
    assert (Hflag : match Request.supportsStatefulResponses config with
                    | Some false => false
                    | _ => true
                    end = true).
    { destruct (Request.supportsStatefulResponses config) as [[|]|];
        [reflexivity | contradiction | reflexivity]. }
    rewrite Hflag, Hscan.
    cbn [Request.previous_response_id Request.input andb].
    destruct (String.eqb_spec marker EmptyString) as [E | _]; [contradiction |].
    split; [reflexivity |]. now rewrite RequestFacts.skipn_past.
Qed.

(** The model [gpt], the response id [resp_1] and the question that
    follows. *)
Lemma response_id_round_trip_witness :
  let config := {| Request.id := "gpt"; Request.modelName := "gpt";
                   Request.baseUrl := "https://h"; Request.instructions := None;
                   Request.supportsSystemRole := None;
                   Request.supportsStatefulResponses := None |} in
  let next := {| Request.role := Request.User;
                 Request.content := [Request.LanguageModelTextPart "And then?"] |} in
  let body :=
    snd (@Request.buildRequest Reference.runtime
           ([] ++ [{| Request.role := Request.Assistant;
                      Request.content :=
                        [Request.LanguageModelTextPart "Hello."]
                        ++ [Request.LanguageModelDataPart "stateful_marker"
                              ("gpt" +:+ Request.backslash +:+ "resp_1")] |};
                   next])
           config) in
  Request.previous_response_id body = Some "resp_1"
  /\ Request.input body = @Request.convertMessagesToItems Reference.runtime [next] config.
Proof.
  intros config next body.
  apply (proj2 (@response_id_round_trip Reference.runtime Provider.initialState config
                  "resp_1" ("gpt" +:+ Request.backslash +:+ "resp_1") "And then?" []
                  [Request.LanguageModelTextPart "Hello."]
                  ltac:(intros H; discriminate H) eq_refl
                  ltac:(intros H; discriminate H) ltac:(intros H; discriminate H) eq_refl)).
Defined.

(** A model whose id holds a backslash never continues a conversation:
    no marker is decoded to its id, so no request for it carries a
    [previous_response_id] and every request sends the whole conversation
    ([ResponsesAdapter.extractPreviousResponseId], [buildRequest],
    adapters.ts). *)
Theorem model_id_with_backslash_never_resumes `{RT : Runtime}
    (messages : list Request.LanguageModelChatRequestMessage)
    (config : Request.OpenAICustomModelConfig) :
  JsString.indexOf (Request.id config) Request.backslash <> None ->
  Request.previous_response_id (snd (Request.buildRequest messages config)) = None
  /\ Request.input (snd (Request.buildRequest messages config))
     = Request.convertMessagesToItems messages config.
Proof.
  intros Hid.
  assert (Hscan : Request.extractPreviousResponseId messages (Request.id config) = None).
  { apply RequestFacts.scanMessages_no_marker. intros m q _ _ rid.
    now apply MarkerFacts.decodeMarker_backslash_id. }
  unfold Request.buildRequest. rewrite Hscan.
  destruct (match Request.supportsStatefulResponses config with
            | Some false => false
            | _ => true
            end); split; reflexivity.
Qed.

(** The marker written for the model [a\b] is read as a marker of the
    model [a]. *)
Lemma model_id_with_backslash_witness :
  let config := {| Request.id := "a" +:+ Request.backslash +:+ "b";
                   Request.modelName := "m"; Request.baseUrl := "https://h";
                   Request.instructions := None; Request.supportsSystemRole := None;
                   Request.supportsStatefulResponses := None |} in
  let messages :=
    [{| Request.role := Request.Assistant;
        Request.content :=
          [Request.LanguageModelDataPart "stateful_marker"
             (Request.id config +:+ Request.backslash +:+ "resp_1")] |}] in
  Request.previous_response_id (snd (@Request.buildRequest Reference.runtime messages config))
  = None
  /\ Request.input (snd (@Request.buildRequest Reference.runtime messages config))
     = @Request.convertMessagesToItems Reference.runtime messages config.
Proof.
  intros config messages.
  apply (@model_id_with_backslash_never_resumes Reference.runtime messages config).
  intros H; discriminate H.
Defined.

(** A request that carries a [previous_response_id] carries one that is
    not empty, and leaves out at least the first message of the
    conversation ([ResponsesAdapter.extractPreviousResponseId],
    [buildRequest], adapters.ts). *)
Theorem previous_response_id_cuts_the_history `{RT : Runtime}
    (messages : list Request.LanguageModelChatRequestMessage)
    (config : Request.OpenAICustomModelConfig) (rid : string) :
  Request.previous_response_id (snd (Request.buildRequest messages config)) = Some rid ->
  rid <> EmptyString
  /\ exists k : nat,
       (1 <= k <= List.length messages)%nat
       /\ Request.input (snd (Request.buildRequest messages config))
          = Request.convertMessagesToItems (List.skipn k messages) config.
Proof.
  unfold Request.buildRequest. cbn [snd Request.previous_response_id Request.input].
  destruct (match Request.supportsStatefulResponses config with
            | Some false => false
            | _ => true
            end); [| intros H; discriminate H].
  destruct (Request.extractPreviousResponseId messages (Request.id config))
    as [[r k]|] eqn:E; [| intros H; discriminate H].
  cbn [andb]. destruct (negb (String.eqb r EmptyString)); [| intros H; discriminate H].
  intros [= ->].
  apply MarkerFacts.scanMessages_bounds in E; [| intros r j H; discriminate H].
  destruct E as [Hrid Hk]. split; [exact Hrid |].
  exists k. split; [exact Hk | reflexivity].
Qed.

(** The conversation of the round trip above. *)
Lemma previous_response_id_witness :
  let config := {| Request.id := "gpt"; Request.modelName := "gpt";
                   Request.baseUrl := "https://h"; Request.instructions := None;
                   Request.supportsSystemRole := None;
                   Request.supportsStatefulResponses := None |} in
  let messages :=
    [{| Request.role := Request.Assistant;
        Request.content :=
          [Request.LanguageModelDataPart "stateful_marker"
             ("gpt" +:+ Request.backslash +:+ "resp_1")] |};
     {| Request.role := Request.User;
        Request.content := [Request.LanguageModelTextPart "And then?"] |}] in
  "resp_1" <> EmptyString
  /\ exists k : nat,
       (1 <= k <= List.length messages)%nat
       /\ Request.input (snd (@Request.buildRequest Reference.runtime messages config))
          = @Request.convertMessagesToItems Reference.runtime (List.skipn k messages) config.
Proof.
  intros config messages.
  apply (@previous_response_id_cuts_the_history Reference.runtime messages config "resp_1").
  reflexivity.
Defined.

(** ** One event for a line of the chat protocol *)



(** ** Classification of error responses *)

Module ClassifyFacts.
Import Classify.

Lemma lowerChar_idempotent (c : ascii) : lowerChar (lowerChar c) = lowerChar c.
Proof. destruct c as [[] [] [] [] [] [] [] []]; reflexivity. Qed.

Lemma toLowerCase_idempotent (s : string) : toLowerCase (toLowerCase s) = toLowerCase s.
Proof.
  induction s as [|c s IH]; [reflexivity |].
  cbn [toLowerCase]. now rewrite lowerChar_idempotent, IH.
Qed.

End ClassifyFacts.

(** The classification of an error response looks at the status and at
    the text in lower case only: a text and its lower-case form are
    classified alike by both adapters ([ResponsesAdapter.isUnsupportedError],
    [ChatCompletionsAdapter.isUnsupportedError], adapters.ts). *)
Theorem error_classification_ignores_letter_case (ad : Adapters.LLMAdapter) (status : Z)
    (errorText : string) :
  Classify.isUnsupportedError ad status (Classify.toLowerCase errorText)
  = Classify.isUnsupportedError ad status errorText.
Proof.
  destruct ad as [|a]; [reflexivity |].
  cbn [Classify.isUnsupportedError]. unfold Classify.responsesIsUnsupportedError.
  now rewrite ClassifyFacts.toLowerCase_idempotent.
Qed.

(** ** Token estimates *)

Module TokenFacts.
Import Tokens.

Lemma fold_partTokens (parts : list Request.ChatPart) (total : nat) :
  fold_left (fun t part => (t + partTokens part)%nat) parts total
  = (total + fold_left (fun t part => (t + partTokens part)%nat) parts 0)%nat.
Proof.
  revert total; induction parts as [|part parts IH]; intros total; cbn [fold_left].
  - lia.
  - rewrite IH, (IH (0 + partTokens part)%nat). lia.
Qed.

Lemma fold_messages (msgs : list Request.LanguageModelChatRequestMessage) (total : nat) :
  fold_left
    (fun total m =>
       fold_left (fun t part => (t + partTokens part)%nat) (Request.content m) total)
    msgs total
  = (total + list_sum (List.map (fun m => provideTokenCount (inr m)) msgs))%nat.
Proof.
  revert total; induction msgs as [|m msgs IH]; intros total;
    cbn [fold_left List.map].
  - cbn. lia.
  - rewrite IH, fold_partTokens. cbn [provideTokenCount]. unfold list_sum.
    cbn [fold_right]. lia.
Qed.

End TokenFacts.

(** The estimate checked against the token limit before a request is the
    sum, over the messages, of the count [provideTokenCount] gives the host
    for each message ([estimateMessagesTokens], [provideTokenCount],
    provider.ts). *)
Theorem token_estimate_is_sum_of_message_counts
    (msgs : list Request.LanguageModelChatRequestMessage) :
  Tokens.estimateMessagesTokens msgs
  = list_sum (List.map (fun m => Tokens.provideTokenCount (inr m)) msgs).
Proof. unfold Tokens.estimateMessagesTokens. now rewrite TokenFacts.fold_messages. Qed.

(** ** The stored configuration path *)

(** What the input box returns decides what [getConfig] answers next: a
    cancelled box changes nothing, a blank path brings the default back,
    any other path is stored trimmed ([Storage.showAndSetConfig],
    [getConfig], [setConfig], [clearConfig], storage.ts). *)
Theorem stored_path_round_trip (defaultConfigPath : string) (storage : Storage.Memento)
    (input : option string) :
  Storage.getConfig defaultConfigPath (fst (Storage.showAndSetConfig storage input))
  = match input with
    | None => Storage.getConfig defaultConfigPath storage
    | Some configPath =>
        if String.eqb (JsString.trim configPath) EmptyString then defaultConfigPath
        else JsString.trim configPath
    end.
Proof.
  destruct input as [configPath|]; [| reflexivity].
  unfold Storage.showAndSetConfig.
  destruct (String.eqb (JsString.trim configPath) EmptyString) eqn:E; cbn; [reflexivity |].
  now rewrite E.
Qed.

(** ** The model table *)

Module TableFacts.
Import Orchestrator.

Lemma fold_insert_snoc (models : list ModelConfig) (c : ModelConfig)
    (t : gmap string ModelConfig) :
  fold_left (fun t c => <[Request.id (core c) := c]> t) (models ++ [c]) t
  = <[Request.id (core c) := c]>
      (fold_left (fun t c => <[Request.id (core c) := c]> t) models t).
Proof. now rewrite fold_left_app. Qed.

(** Every model of the list has an entry under its id, and the entry is
    a model of the list with that id. *)
Lemma table_lookup (models : list ModelConfig) :
  forall c : ModelConfig,
  In c models ->
  exists c' : ModelConfig,
    In c' models
    /\ fold_left (fun t c => <[Request.id (core c) := c]> t) models
         (∅ : gmap string ModelConfig)
       !! Request.id (core c) = Some c'
    /\ Request.id (core c') = Request.id (core c).
Proof.
  induction models as [|x models IH] using rev_ind; intros c Hin; [destruct Hin |].
  rewrite fold_insert_snoc.
  destruct (decide (Request.id (core x) = Request.id (core c))) as [E | Hne].
  - exists x. rewrite <- E, lookup_insert_eq.
    split; [apply in_or_app; right; now left | split; reflexivity].
  - apply in_app_or in Hin as [Hin | [-> | []]]; [| contradiction].
    destruct (IH c Hin) as (c' & Hin' & Hlookup & Hid).
    exists c'. rewrite lookup_insert_ne by exact Hne.
    split; [apply in_or_app; now left | split; assumption].
Qed.

End TableFacts.

(** Every model advertised to the host can be looked up when a turn
    starts: the table left by [prepareLanguageModelChatInformation] has,
    under the id of every entry of the list it returns, a model of the
    configuration with that id ([prepareLanguageModelChatInformation],
    provider.ts). *)
Theorem advertised_models_are_configured (old : gmap string Orchestrator.ModelConfig)
    (models : list Orchestrator.ModelConfig) :
  let '(table, infos) := Orchestrator.prepareLanguageModelChatInformation old models in
  List.length infos = List.length models
  /\ forall info : Orchestrator.ModelInfo,
       In info infos ->
       exists c : Orchestrator.ModelConfig,
         In c models
         /\ table !! Orchestrator.info_id info = Some c
         /\ Request.id (Orchestrator.core c) = Orchestrator.info_id info.
Proof.
  unfold Orchestrator.prepareLanguageModelChatInformation.
  destruct models as [|m models]; [split; [reflexivity | intros info []] |].
  cbn [List.map]. split; [cbn [List.length]; now rewrite List.length_map |].
  intros info Hin.
  change (Orchestrator.modelInfoOf m :: List.map Orchestrator.modelInfoOf models)
    with (List.map Orchestrator.modelInfoOf (m :: models)) in Hin.
  apply in_map_iff in Hin as (c & <- & Hc).
  exact (TableFacts.table_lookup (m :: models) c Hc).
Qed.

(** ** The requests of a turn *)

Module TurnPolicy.
Import Orchestrator.

Section WithRuntime.
Context `{RT : Runtime}.

(** Streaming a body changes neither the list of requests, nor the
    warnings, nor the entry of the model. *)
Lemma streamBody_record (input : TurnInput) (st0 : Provider.State) (ad : Adapters.LLMAdapter)
    (r : HttpResponse) (noBody : string) (reqs : list WireRequest) (warns : list string)
    (config : ModelConfig) :
  requests (streamBody input st0 ad r noBody reqs warns config) = reqs
  /\ warnings (streamBody input st0 ad r noBody reqs warns config) = warns
  /\ configAfter (streamBody input st0 ad r noBody reqs warns config) = Some config.
Proof.
  unfold streamBody. destruct (body r) as [[chunks ending]|]; [| repeat split].
  destruct (Provider.processStreamingResponse _ _ _ _ _) as [[st1 out] o]. repeat split.
Qed.

Lemma afterRetry_record (input : TurnInput) (st0 : Provider.State) (ad : Adapters.LLMAdapter)
    (second : Fetched) (noBody : string) (reqs : list WireRequest) (warns : list string)
    (config : ModelConfig) :
  requests (afterRetry input st0 ad second noBody reqs warns config) = reqs
  /\ warnings (afterRetry input st0 ad second noBody reqs warns config) = warns
  /\ configAfter (afterRetry input st0 ad second noBody reqs warns config) = Some config.
Proof.
  unfold afterRetry. destruct second as [message | r]; [repeat split |].
  destruct (negb (ok r)); [repeat split | apply streamBody_record].
Qed.

(** What a turn does to the per-turn state and what it reports is what
    the streaming loop does on one exchange. *)
Lemma streamBody_exchange (input : TurnInput) (st : Provider.State) (ad : Adapters.LLMAdapter)
    (r : HttpResponse) (noBody : string) (reqs : list WireRequest) (warns : list string)
    (config : ModelConfig) :
  exists x : Provider.Exchange,
    let t := streamBody input (Provider.resetAtTurnStart st) ad r noBody reqs warns config in
    (state t, parts t, outcome t)
    = Provider.provideLanguageModelChatResponse (modelId input) st x.
Proof.
  unfold streamBody. destruct (body r) as [[chunks ending]|].
  - exists (Provider.Streamed ad chunks ending). cbn [Provider.provideLanguageModelChatResponse].
    now destruct (Provider.processStreamingResponse _ _ _ _ _) as [[st1 out] o].
  - now exists (Provider.FailedBeforeStreaming noBody).
Qed.

Lemma afterRetry_exchange (input : TurnInput) (st : Provider.State) (ad : Adapters.LLMAdapter)
    (second : Fetched) (noBody : string) (reqs : list WireRequest) (warns : list string)
    (config : ModelConfig) :
  exists x : Provider.Exchange,
    let t := afterRetry input (Provider.resetAtTurnStart st) ad second noBody reqs warns
               config in
    (state t, parts t, outcome t)
    = Provider.provideLanguageModelChatResponse (modelId input) st x.
Proof.
  unfold afterRetry. destruct second as [message | r].
  - now exists (Provider.FailedBeforeStreaming message).
  - destruct (negb (ok r)); [now exists (Provider.FailedBeforeStreaming (apiError r)) |].
    apply streamBody_exchange.
Qed.

End WithRuntime.

(** The case analysis of a turn, down to the streaming of a body. *)
Ltac turn_cases :=
  unfold provideLanguageModelChatResponse; cbv zeta;
  repeat match goal with
         | |- context [match ?x with _ => _ end] => destruct x eqn:?
         end.

End TurnPolicy.

(** A turn posts at most two requests, and a second one only for a model
    in the [responses] mode whose first request was answered with an
    error status; a turn that posts no request reports nothing and ends
    with an error; a turn that posts fewer than two requests shows no
    warning and leaves the entry of the model as it was
    ([provideLanguageModelChatResponse], provider.ts). *)
Theorem turn_posts_at_most_two_requests `{RT : Runtime} (st : Provider.State)
    (input : Orchestrator.TurnInput) (lookup : option Orchestrator.ModelConfig)
    (first second : Orchestrator.Fetched) :
  let t := Orchestrator.provideLanguageModelChatResponse st input lookup first second in
  (List.length (Orchestrator.requests t) <= 2)%nat
  /\ (List.length (Orchestrator.requests t) = 2%nat ->
      exists (config : Orchestrator.ModelConfig) (r : Orchestrator.HttpResponse),
        lookup = Some config
        /\ Orchestrator.apiMode config = Some Orchestrator.responses
        /\ first = Orchestrator.Answered r
        /\ Orchestrator.ok r = false)
  /\ (Orchestrator.requests t = [] ->
      Orchestrator.parts t = [] /\ exists message, Orchestrator.outcome t = Provider.Thrown message)
  /\ ((List.length (Orchestrator.requests t) < 2)%nat ->
      Orchestrator.warnings t = [] /\ Orchestrator.configAfter t = lookup).
Proof.
  cbv zeta. TurnPolicy.turn_cases.
  all: repeat match goal with
       | |- context [Orchestrator.streamBody ?i ?s ?a ?r ?n ?q ?w ?c] =>
           destruct (TurnPolicy.streamBody_record i s a r n q w c) as (Hq & Hw & Hc);
           rewrite ?Hq, ?Hw, ?Hc; clear Hq Hw Hc;
           generalize (Orchestrator.streamBody i s a r n q w c); intros ?
       | |- context [Orchestrator.afterRetry ?i ?s ?a ?r ?n ?q ?w ?c] =>
           destruct (TurnPolicy.afterRetry_record i s a r n q w c) as (Hq & Hw & Hc);
           rewrite ?Hq, ?Hw, ?Hc; clear Hq Hw Hc;
           generalize (Orchestrator.afterRetry i s a r n q w c); intros ?
       end.
  all: cbn [Orchestrator.requests Orchestrator.warnings Orchestrator.configAfter
            Orchestrator.parts Orchestrator.outcome List.length].
  all: split; [lia | split; [| split]].
  all: try (intros H; discriminate H).
  all: try (intros H; lia).
  all: try (intros _; split; [reflexivity | eauto]; fail).
  all: intros _.
  all: repeat match goal with
       | H : _ && _ = true |- _ => apply andb_true_iff in H as [H ?]
       end.
  all: match goal with
       | H : match Orchestrator.apiMode ?c with _ => _ end = true |- _ =>
           destruct (Orchestrator.apiMode c) as [[|]|] eqn:Emode; try discriminate H
       end.
  all: eauto 10.
Qed.

(** Whatever the requests of a turn, its effect on the per-turn state,
    the parts it reports and its outcome are those of the streaming loop
    on one exchange: an error before any body is streamed, or one body
    streamed through one adapter ([provideLanguageModelChatResponse],
    [processStreamingResponse], provider.ts). *)
Theorem turn_streams_at_most_one_body `{RT : Runtime} (st : Provider.State)
    (input : Orchestrator.TurnInput) (lookup : option Orchestrator.ModelConfig)
    (first second : Orchestrator.Fetched) :
  exists x : Provider.Exchange,
    let t := Orchestrator.provideLanguageModelChatResponse st input lookup first second in
    (Orchestrator.state t, Orchestrator.parts t, Orchestrator.outcome t)
    = Provider.provideLanguageModelChatResponse (Orchestrator.modelId input) st x.
Proof.
  TurnPolicy.turn_cases.
  all: try apply TurnPolicy.streamBody_exchange.
  all: try apply TurnPolicy.afterRetry_exchange.
  all: match goal with
       | |- context [Provider.Thrown ?m] => now exists (Provider.FailedBeforeStreaming m)
       end.
Qed.

(** When the first request of a model in the [responses] mode is refused
    with status 400 and a text that names [previous_response_id] as an
    unsupported parameter, the turn posts one more request, which carries
    no [previous_response_id] and the whole conversation, and stateful
    continuation stays disabled in the entry of the model, whatever
    becomes of that request ([provideLanguageModelChatResponse],
    provider.ts; [ResponsesAdapter.buildRequest], adapters.ts). *)
Theorem stateless_retry_resends_the_conversation `{RT : Runtime} (st : Provider.State)
    (input : Orchestrator.TurnInput) (config : Orchestrator.ModelConfig)
    (r : Orchestrator.HttpResponse) (second : Orchestrator.Fetched) :
  let t := Orchestrator.provideLanguageModelChatResponse st input (Some config)
             (Orchestrator.Answered r) second in
  Orchestrator.requests t <> [] ->
  Orchestrator.ok r = false ->
  Orchestrator.apiMode config = Some Orchestrator.responses ->
  Request.supportsStatefulResponses (Orchestrator.core config) <> Some false ->
  Orchestrator.status r = 400%Z ->
  JsString.includes (Classify.toLowerCase (Orchestrator.text r)) "unsupported parameter"
  = true ->
  JsString.includes (Classify.toLowerCase (Orchestrator.text r)) "previous_response_id"
  = true ->
  exists (endpoint : string) (body : Request.ResponsesBody),
    Orchestrator.requests t
    = [Orchestrator.buildRequest (Orchestrator.createAdapter config)
         (Orchestrator.messages input) config;
       Orchestrator.ResponsesRequest endpoint body]
    /\ Request.previous_response_id body = None
    /\ Request.input body
       = Request.convertMessagesToItems (Orchestrator.messages input)
           (Orchestrator.core config)
    /\ Orchestrator.configAfter t = Some (Orchestrator.withoutStatefulResponses config)
    /\ Orchestrator.warnings t = [].
Proof.
  intros t Hposted Hok Hmode Hstateful Hstatus Hphrase1 Hphrase2. subst t.
  revert Hposted. unfold Orchestrator.provideLanguageModelChatResponse. cbv zeta.
  destruct (Orchestrator.validationError input); [intros H; now contradiction H |].
  destruct (match Orchestrator.declaredTools input with
            | Some n => (128 <? n)%nat
            | None => false
            end); [intros H; now contradiction H |].
  destruct (Orchestrator.convertedTools input) as [message | tools];
    [intros H; now contradiction H |].
  destruct (_ <? _)%Z; [intros H; now contradiction H |].
  intros _. rewrite Hok, Hmode, Hstatus, Hphrase1, Hphrase2.
  assert (Hflag : match Request.supportsStatefulResponses (Orchestrator.core config) with
                  | Some b => b
                  | None => true
                  end = true).
  { destruct (Request.supportsStatefulResponses (Orchestrator.core config)) as [[|]|];
      [reflexivity | contradiction | reflexivity]. }
  rewrite Hflag. cbn [andb Z.eqb Pos.eqb].
  match goal with
  | |- context [Orchestrator.afterRetry ?i ?s ?a ?f ?n ?q ?w ?c] =>
      destruct (TurnPolicy.afterRetry_record i s a f n q w c) as (-> & -> & ->)
  end.
  unfold Orchestrator.createAdapter at 2. cbn [Orchestrator.apiMode
    Orchestrator.withoutStatefulResponses]. rewrite Hmode.
  cbn [Orchestrator.buildRequest]. unfold Request.buildRequest.
  cbn [Orchestrator.core Request.supportsStatefulResponses].
  eexists _, _. split; [reflexivity |]. repeat split.
Qed.

(** A model in the [responses] mode, a conversation of one message, and a
    service that refuses [previous_response_id] and then cannot be
    reached. *)
Lemma stateless_retry_witness :
  let config :=
    {| Orchestrator.core :=
         {| Request.id := "m"; Request.modelName := "m"; Request.baseUrl := "https://h/v1";
            Request.instructions := None; Request.supportsSystemRole := None;
            Request.supportsStatefulResponses := None |};
       Orchestrator.apiMode := Some Orchestrator.responses;
       Orchestrator.fallbackToChatCompletions := Some true;
       Orchestrator.displayName := "M"; Orchestrator.tooltip := None;
       Orchestrator.family := "f"; Orchestrator.maxInputTokens := 1000;
       Orchestrator.maxOutputTokens := 1000; Orchestrator.isDefault := None;
       Orchestrator.supports_tools := Some true; Orchestrator.supports_image := None |} in
  let input :=
    {| Orchestrator.modelId := "m"; Orchestrator.modelMaxInputTokens := 1000;
       Orchestrator.messages :=
         [{| Request.role := Request.User;
             Request.content := [Request.LanguageModelTextPart "Hello"] |}];
       Orchestrator.declaredTools := None; Orchestrator.convertedTools := inr None;
       Orchestrator.validationError := None |} in
  let r := {| Orchestrator.ok := false; Orchestrator.status := 400;
              Orchestrator.statusText := "Bad Request";
              Orchestrator.text := "Unsupported parameter: previous_response_id";
              Orchestrator.body := None |} in
  let t := @Orchestrator.provideLanguageModelChatResponse Reference.runtime
             Provider.initialState input (Some config) (Orchestrator.Answered r)
             (Orchestrator.Rejected "fetch failed") in
  exists (endpoint : string) (body : Request.ResponsesBody),
    Orchestrator.requests t
    = [@Orchestrator.buildRequest Reference.runtime (Orchestrator.createAdapter config)
         (Orchestrator.messages input) config;
       Orchestrator.ResponsesRequest endpoint body]
    /\ Request.previous_response_id body = None
    /\ Request.input body
       = @Request.convertMessagesToItems Reference.runtime (Orchestrator.messages input)
           (Orchestrator.core config)
    /\ Orchestrator.configAfter t = Some (Orchestrator.withoutStatefulResponses config)
    /\ Orchestrator.warnings t = [].
Proof.
  intros config input r.
  apply (@stateless_retry_resends_the_conversation Reference.runtime Provider.initialState
           input config r (Orchestrator.Rejected "fetch failed"));
    try reflexivity; intros H; discriminate H.
Defined.

(** When the first request of a model in the [responses] mode with
    [fallbackToChatCompletions] set is refused as unsupported (and not as a
    refusal of [previous_response_id]), the turn posts one more request, to
    the chat-completions endpoint, and shows one warning; the entry of the
    model keeps the [responses] mode, so the next turn starts with the
    [responses] protocol again ([provideLanguageModelChatResponse],
    provider.ts; [createAdapter], [isUnsupportedError], adapters.ts). *)
Theorem fallback_is_not_remembered `{RT : Runtime} (st : Provider.State)
    (input : Orchestrator.TurnInput) (config : Orchestrator.ModelConfig)
    (r : Orchestrator.HttpResponse) (second : Orchestrator.Fetched) :
  let t := Orchestrator.provideLanguageModelChatResponse st input (Some config)
             (Orchestrator.Answered r) second in
  Orchestrator.requests t <> [] ->
  Orchestrator.ok r = false ->
  Orchestrator.apiMode config = Some Orchestrator.responses ->
  Orchestrator.fallbackToChatCompletions config = Some true ->
  Orchestrator.status r <> 400%Z ->
  Classify.responsesIsUnsupportedError (Orchestrator.status r) (Orchestrator.text r) = true ->
  Orchestrator.requests t
  = [Orchestrator.buildRequest (Orchestrator.createAdapter config)
       (Orchestrator.messages input) config;
     Orchestrator.ChatRequest
       (Endpoint.chatEndpoint (Request.baseUrl (Orchestrator.core config)))]
  /\ Orchestrator.warnings t = [Orchestrator.fallbackWarning]
  /\ Orchestrator.configAfter t = Some config
  /\ Orchestrator.apiMode config = Some Orchestrator.responses.
Proof.
  intros t Hposted Hok Hmode Hfallback Hstatus Hunsupported. subst t.
  revert Hposted. unfold Orchestrator.provideLanguageModelChatResponse. cbv zeta.
  destruct (Orchestrator.validationError input); [intros H; now contradiction H |].
  destruct (match Orchestrator.declaredTools input with
            | Some n => (128 <? n)%nat
            | None => false
            end); [intros H; now contradiction H |].
  destruct (Orchestrator.convertedTools input) as [message | tools];
    [intros H; now contradiction H |].
  destruct (_ <? _)%Z; [intros H; now contradiction H |].
  intros _. rewrite Hok, Hmode, Hfallback.
  apply Z.eqb_neq in Hstatus. rewrite Hstatus.
  rewrite andb_false_r. cbn [andb negb].
  assert (Hclass : Classify.isUnsupportedError (Orchestrator.createAdapter config)
                     (Orchestrator.status r) (Orchestrator.text r) = true)
    by (unfold Orchestrator.createAdapter; rewrite Hmode; exact Hunsupported).
  rewrite Hclass.
  match goal with
  | |- context [Orchestrator.afterRetry ?i ?s ?a ?f ?n ?q ?w ?c] =>
      destruct (TurnPolicy.afterRetry_record i s a f n q w c) as (-> & -> & ->)
  end.
  repeat split; assumption.
Qed.

(** The same model behind a service that answers 404 to the [responses]
    endpoint and then cannot be reached. *)
Lemma fallback_witness :
  let config :=
    {| Orchestrator.core :=
         {| Request.id := "m"; Request.modelName := "m"; Request.baseUrl := "https://h/v1";
            Request.instructions := None; Request.supportsSystemRole := None;
            Request.supportsStatefulResponses := None |};
       Orchestrator.apiMode := Some Orchestrator.responses;
       Orchestrator.fallbackToChatCompletions := Some true;
       Orchestrator.displayName := "M"; Orchestrator.tooltip := None;
       Orchestrator.family := "f"; Orchestrator.maxInputTokens := 1000;
       Orchestrator.maxOutputTokens := 1000; Orchestrator.isDefault := None;
       Orchestrator.supports_tools := Some true; Orchestrator.supports_image := None |} in
  let input :=
    {| Orchestrator.modelId := "m"; Orchestrator.modelMaxInputTokens := 1000;
       Orchestrator.messages :=
         [{| Request.role := Request.User;
             Request.content := [Request.LanguageModelTextPart "Hello"] |}];
       Orchestrator.declaredTools := None; Orchestrator.convertedTools := inr None;
       Orchestrator.validationError := None |} in
  let r := {| Orchestrator.ok := false; Orchestrator.status := 404;
              Orchestrator.statusText := "Not Found"; Orchestrator.text := EmptyString;
              Orchestrator.body := None |} in
  let t := @Orchestrator.provideLanguageModelChatResponse Reference.runtime
             Provider.initialState input (Some config) (Orchestrator.Answered r)
             (Orchestrator.Rejected "fetch failed") in
  Orchestrator.requests t
  = [@Orchestrator.buildRequest Reference.runtime (Orchestrator.createAdapter config)
       (Orchestrator.messages input) config;
     Orchestrator.ChatRequest
       (Endpoint.chatEndpoint (Request.baseUrl (Orchestrator.core config)))]
  /\ Orchestrator.warnings t = [Orchestrator.fallbackWarning]
  /\ Orchestrator.configAfter t = Some config
  /\ Orchestrator.apiMode config = Some Orchestrator.responses.
Proof.
  intros config input r.
  apply (@fallback_is_not_remembered Reference.runtime Provider.initialState
           input config r (Orchestrator.Rejected "fetch failed"));
    try reflexivity; intros H; discriminate H.
Defined.
